(** * System_Monitor: the sampling-and-derivation pipeline

    A shallow embedding of [Collectors.cpp], [Collectors.h], [Logger.h],
    [CollectorFactory.h] and the tick loop of [main.cpp], and the
    properties of the six collectors.

    Conventions of the embedding:
    - [std::string] is a list of characters; [size_t] and the fixed-width
      integers are [Z] with the wrap-around written out ([wrap]);
      [std::string::npos] is [None];
    - [double] is the exact rational value of a finite binary64 number, and
      every arithmetic operation rounds to nearest, ties to even
      ([Binary64.rnd]);
    - a formatted input stream is its unread characters and its fail bit;
      an extraction that does not write its target returns [None], so that
      a local left uninitialised by the source stays [None] here;
    - a member function returns an [outcome]: it returns normally, throws a
      C++ exception, or reads an uninitialised local (undefined behaviour);
    - the kernel text sources are a function from paths to file contents
      and a listing of the process root. *)

From Stdlib Require Import ZArith QArith Qround Qpower Qreduction Lia Lqa.
From Stdlib Require Import Bool Ascii String List Sorting.Sorted Sorting.Permutation.
From Stdlib Require Qcanon Qabs DecimalString.
From Stdlib Require Import SpecFloat.
Import ListNotations.
Open Scope Z_scope.

(* ================================================================== *)
(** * Part I: the embedding                                            *)
(* ================================================================== *)

(** ** Binary64 arithmetic *)

Module Binary64.

(** A finite [double] is denoted by its exact value. *)
Definition double := Q.

(** Nearest integer, ties to the even one. *)
Definition round_half_even (x : Q) : Z :=
  let f := Qfloor x in
  match Qcompare (x - inject_Z f) (1 # 2) with
  | Lt => f
  | Gt => f + 1
  | Eq => if Z.even f then f else f + 1
  end.

(** The exponent [e] with [2^e <= q < 2^(e+1)], for [q > 0]. *)
Definition binade (q : Q) : Z :=
  let k := Z.log2 (Qnum q) - Z.log2 (Zpos (Qden q)) in
  if Qle_bool (2 ^ k) q then k else k - 1.

(** Rounding of a positive rational to 53 significant bits.  The exponent
    range is left out: the operands met in the collectors are conversions
    of 64-bit integers, the constant 100 and quotients of such values,
    all of magnitude between 2^-64 and 2^71 (or zero). *)
Definition rnd_pos (q : Q) : Q :=
  let u := (2 ^ (binade q - 52))%Q in
  Qred (inject_Z (round_half_even (q / u)) * u).

Definition rnd (q : Q) : double :=
  match Qcompare q 0 with
  | Eq => 0%Q
  | Gt => rnd_pos q
  | Lt => Qred (- rnd_pos (- q))
  end.

(** Conversion of an unsigned 64-bit integer, product and quotient. *)
Definition of_u64 (x : Z) : double := rnd (inject_Z x).
Definition dmul (a b : double) : double := rnd (a * b).
Definition ddiv (a b : double) : double := rnd (a / b).

(** [strtod]: as [rnd], with the gradual underflow below [2^-1022] and
    the overflow to infinity ([None]) that a decimal text can reach. *)
Definition dbl_max : Q := (inject_Z (2 ^ 1024 - 2 ^ 971))%Q.
Definition overflow_threshold : Q := (inject_Z (2 ^ 1024 - 2 ^ 970))%Q.

Definition rnd_abs_full (q : Q) : option Q :=
  if Qle_bool overflow_threshold q then None
  else if Qle_bool (2 ^ (-1022)) q then Some (rnd_pos q)
  else Some (Qred (inject_Z (round_half_even (q / 2 ^ (-1074))) * 2 ^ (-1074))).

Definition strtod_round (q : Q) : option double :=
  match Qcompare q 0 with
  | Eq => Some 0%Q
  | Gt => rnd_abs_full q
  | Lt => option_map (fun r => Qred (- r)) (rnd_abs_full (- q))
  end.

(** The reference semantics of the Standard Library, used to cross-check
    [rnd] on concrete operands. *)
Definition SF2Q (f : spec_float) : option Q :=
  match f with
  | S754_zero _ => Some 0%Q
  | S754_finite s m e =>
      Some (Qred ((if s then -1 else 1) * inject_Z (Zpos m) * 2 ^ e))%Q
  | _ => None
  end.
Definition sf_of_Z (z : Z) : spec_float := binary_normalize 53 1024 z 0 false.
Definition sf_mul := SFmul 53 1024.
Definition sf_div := SFdiv 53 1024.

End Binary64.
Export Binary64.

(** ** The C++ library subset used by the collectors *)

Module Cxx.

Definition str := list ascii.

(** String literal. *)
Definition lit (s : string) : str := list_ascii_of_string s.

Definition size (s : str) : Z := Z.of_nat (length s).

(** Arithmetic of a [w]-bit unsigned integer. *)
Definition wrap (w : Z) (x : Z) : Z := x mod 2 ^ w.

(** Exceptions of the library functions the collectors call. *)
Inductive exn := invalid_argument | out_of_range.

Inductive outcome (A : Type) : Type :=
| Normal (a : A)
| Throws (e : exn)
| Undefined.
Arguments Normal {A} a.
Arguments Throws {A} e.
Arguments Undefined {A}.

Definition bind {A B} (m : outcome A) (k : A -> outcome B) : outcome B :=
  match m with
  | Normal a => k a
  | Throws e => Throws e
  | Undefined => Undefined
  end.

(** Reading a local: undefined behaviour when it was never written. *)
Definition read {A} (v : option A) : outcome A :=
  match v with
  | Some a => Normal a
  | None => Undefined
  end.

Definition is_normal {A} (m : outcome A) : bool :=
  match m with Normal _ => true | _ => false end.

(** An exception leaves the call.  Undefined behaviour is not an
    exception: [is_undefined] tells it apart. *)
Definition raises {A} (m : outcome A) : bool :=
  match m with Throws _ => true | _ => false end.


(** *** Character classes of the "C" locale *)

Definition isspace (c : ascii) : bool :=
  let n := N_of_ascii c in ((n =? 32) || ((9 <=? n) && (n <=? 13)))%N.

Definition isdigit (c : ascii) : bool :=
  let n := N_of_ascii c in ((48 <=? n) && (n <=? 57))%N.

Definition digit_val (c : ascii) : Z := Z.of_N (N_of_ascii c) - 48.

Definition digits_val (ds : str) : Z :=
  fold_left (fun acc c => 10 * acc + digit_val c) ds 0.

Fixpoint take_while (p : ascii -> bool) (s : str) : str :=
  match s with
  | c :: s' => if p c then c :: take_while p s' else []
  | [] => []
  end.

Fixpoint drop_while (p : ascii -> bool) (s : str) : str :=
  match s with
  | c :: s' => if p c then drop_while p s' else s
  | [] => []
  end.

(** *** [std::string] members *)

Fixpoint starts_with (p s : str) : bool :=
  match p, s with
  | [], _ => true
  | a :: p', b :: s' => Ascii.eqb a b && starts_with p' s'
  | _ :: _, [] => false
  end.

(** [s.find(p)] *)
Fixpoint find (p s : str) : option Z :=
  match s with
  | [] => if starts_with p [] then Some 0 else None
  | _ :: s' => if starts_with p s then Some 0 else option_map Z.succ (find p s')
  end.

(** [s.find(p) != npos] *)
Definition contains (p s : str) : bool :=
  match find p s with Some _ => true | None => false end.

(** [s.find(c)] *)
Fixpoint find_char (c : ascii) (s : str) : option Z :=
  match s with
  | [] => None
  | a :: s' => if Ascii.eqb a c then Some 0 else option_map Z.succ (find_char c s')
  end.

(** [s.rfind(c)] *)
Fixpoint rfind_char (c : ascii) (s : str) : option Z :=
  match s with
  | [] => None
  | a :: s' =>
      match rfind_char c s' with
      | Some k => Some (Z.succ k)
      | None => if Ascii.eqb a c then Some 0 else None
      end
  end.

(** [s.find_first_not_of(set)] *)
Fixpoint find_first_not_of (set : str) (s : str) : option Z :=
  match s with
  | [] => None
  | a :: s' =>
      if existsb (Ascii.eqb a) set then option_map Z.succ (find_first_not_of set s')
      else Some 0
  end.

(** At most [n] leading characters, [n] being a [size_t]. *)
Fixpoint take (n : Z) (s : str) : str :=
  match s with
  | [] => []
  | c :: s' => if n <=? 0 then [] else c :: take (n - 1) s'
  end.

(** [s.substr(pos)] and [s.substr(pos, n)] *)
Definition substr (s : str) (pos : Z) : outcome str :=
  if pos >? size s then Throws out_of_range
  else Normal (skipn (Z.to_nat pos) s).

Definition substr_n (s : str) (pos n : Z) : outcome str :=
  if pos >? size s then Throws out_of_range
  else Normal (take n (skipn (Z.to_nat pos) s)).

(** [s.erase(0, n)], [n] possibly [npos] *)
Definition erase_front (s : str) (n : option Z) : str :=
  match n with
  | None => []
  | Some k => skipn (Z.to_nat k) s
  end.

(** [s.back()] *)
Definition back (s : str) : ascii := last s "000"%char.

Definition INT_MAX : Z := 2 ^ 31 - 1.
Definition INT_MIN : Z := - 2 ^ 31.

(** An optional sign. *)
Definition strip_sign (b : str) : bool * str :=
  match b with
  | "-"%char :: t => (true, t)
  | "+"%char :: t => (false, t)
  | _ => (false, b)
  end.

(** [std::stoi(s)]: [strtol] in base 10 (white space, a sign, digits),
    then the range check of [int]. *)
Definition stoi (s : str) : outcome Z :=
  let '(neg, b1) := strip_sign (drop_while isspace s) in
  match take_while isdigit b1 with
  | [] => Throws invalid_argument
  | ds =>
      let v := if neg then - digits_val ds else digits_val ds in
      if (v <? INT_MIN) || (v >? INT_MAX) then Throws out_of_range
      else Normal v
  end.

(** [std::getline] called until it fails: the lines of a text. *)
Definition newline : ascii := "010"%char.

Fixpoint getlines (s : str) : list str :=
  match s with
  | [] => []
  | c :: s' =>
      if Ascii.eqb c newline then [] :: getlines s'
      else match getlines s' with
           | [] => [[c]]
           | l :: ls => (c :: l) :: ls
           end
  end.

(** The characters before the first line feed. *)
Definition first_line (s : str) : str :=
  take_while (fun c => negb (Ascii.eqb c newline)) s.

(** One [std::getline]: [None] when no character could be extracted. *)
Definition getline (s : str) : option str :=
  match s with
  | [] => None
  | _ => Some (first_line s)
  end.

End Cxx.
Export Cxx.

Notation "x <- m ;; k" := (bind m (fun x => k))
  (at level 61, m at next level, right associativity).

(** ** Formatted input: [std::istream] and [operator>>] *)

Module IStream.

Record istream := mkStream { buf : str; failbit : bool }.

Definition open (s : str) : istream := mkStream s false.

(** The sentry of a formatted extraction: it refuses a stream that is not
    good, skips white space and refuses at the end of the input. *)
Definition sentry (s : istream) : option (ascii * str) :=
  if failbit s then None
  else match drop_while isspace (buf s) with
       | [] => None
       | c :: b => Some (c, b)
       end.

(** The stream a refusing sentry leaves behind. *)
Definition refused (s : istream) : istream :=
  if failbit s then s else mkStream [] true.

(** [is >> std::string] *)
Definition extract_string (s : istream) : option str * istream :=
  match sentry s with
  | None => (None, refused s)
  | Some (c, b) =>
      let nonspace := fun c => negb (isspace c) in
      (Some (c :: take_while nonspace b), mkStream (drop_while nonspace b) false)
  end.

(** [is >> char] *)
Definition extract_char (s : istream) : option ascii * istream :=
  match sentry s with
  | None => (None, refused s)
  | Some (c, b) => (Some c, mkStream b false)
  end.

(** [is >> integer], for a signed or unsigned type of [bits] bits
    ([num_get] in base 10): an optional sign, then digits.  Without a
    digit the target becomes 0; out of range it becomes the nearest bound;
    both set the fail bit.  A negated value wraps in an unsigned type. *)
Definition extract_int (signed : bool) (bits : Z) (s : istream)
  : option Z * istream :=
  match sentry s with
  | None => (None, refused s)
  | Some (c, b) =>
      let '(neg, b1) :=
        if Ascii.eqb c "-" then (true, b)
        else if Ascii.eqb c "+" then (false, b)
        else (false, c :: b) in
      let ds := take_while isdigit b1 in
      let rest := drop_while isdigit b1 in
      match ds with
      | [] => (Some 0, mkStream rest true)
      | _ =>
          let n := digits_val ds in
          let hi := if signed then 2 ^ (bits - 1) - 1 else 2 ^ bits - 1 in
          let lo := - 2 ^ (bits - 1) in
          let bound := if signed && neg then - lo else hi in
          if n >? bound then
            (Some (if signed && neg then lo else hi), mkStream rest true)
          else
            (Some (if neg then (if signed then - n else wrap bits (- n)) else n),
             mkStream rest false)
      end
  end.

Definition extract_u64 := extract_int false 64.
Definition extract_i64 := extract_int true 64.
Definition extract_i32 := extract_int true 32.
Definition extract_u32 := extract_int false 32.

(** [is >> double]: the characters [num_get] accumulates (a sign, digits,
    one decimal point, one exponent with its sign), then [strtod] on them,
    which has to use them all. *)
Record fscan := mkScan {
  sc_neg : bool;          (* sign of the mantissa *)
  sc_mant : Z;            (* digits of the mantissa, point removed *)
  sc_have_mant : bool;    (* a mantissa digit was read *)
  sc_frac : Z;            (* digits after the point *)
  sc_dec : bool;          (* the point was read *)
  sc_sci : bool;          (* the exponent letter was read *)
  sc_eneg : bool;         (* sign of the exponent *)
  sc_exp : Z;             (* digits of the exponent *)
  sc_have_exp : bool      (* an exponent digit was read *)
}.

Definition scan_digit (st : fscan) (c : ascii) : fscan :=
  let d := digit_val c in
  if sc_sci st then
    mkScan (sc_neg st) (sc_mant st) (sc_have_mant st) (sc_frac st) (sc_dec st)
           true (sc_eneg st) (10 * sc_exp st + d) true
  else
    mkScan (sc_neg st) (10 * sc_mant st + d) true
           (if sc_dec st then sc_frac st + 1 else sc_frac st) (sc_dec st)
           false (sc_eneg st) (sc_exp st) (sc_have_exp st).

Fixpoint scan_float (st : fscan) (after_e : bool) (b : str) : fscan * str :=
  match b with
  | [] => (st, [])
  | c :: b' =>
      if after_e && (Ascii.eqb c "+" || Ascii.eqb c "-") then
        scan_float (mkScan (sc_neg st) (sc_mant st) (sc_have_mant st) (sc_frac st)
                           (sc_dec st) (sc_sci st) (Ascii.eqb c "-") (sc_exp st)
                           (sc_have_exp st)) false b'
      else if isdigit c then scan_float (scan_digit st c) false b'
      else if Ascii.eqb c "." && negb (sc_dec st) && negb (sc_sci st) then
        scan_float (mkScan (sc_neg st) (sc_mant st) (sc_have_mant st) (sc_frac st)
                           true (sc_sci st) (sc_eneg st) (sc_exp st) (sc_have_exp st))
                   false b'
      else if (Ascii.eqb c "e" || Ascii.eqb c "E") && negb (sc_sci st)
              && sc_have_mant st then
        scan_float (mkScan (sc_neg st) (sc_mant st) (sc_have_mant st) (sc_frac st)
                           (sc_dec st) true (sc_eneg st) (sc_exp st) (sc_have_exp st))
                   true b'
      else (st, b)
  end.

Definition scan_value (st : fscan) : Q :=
  let e := (if sc_eneg st then - sc_exp st else sc_exp st) - sc_frac st in
  ((if sc_neg st then -1 else 1) * inject_Z (sc_mant st) * 10 ^ e)%Q.

Definition extract_double (s : istream) : option double * istream :=
  match sentry s with
  | None => (None, refused s)
  | Some (c, b) =>
      let '(neg, b1) :=
        if Ascii.eqb c "-" then (true, b)
        else if Ascii.eqb c "+" then (false, b)
        else (false, c :: b) in
      let '(st, rest) :=
        scan_float (mkScan neg 0 false 0 false false false 0 false) false b1 in
      if sc_have_mant st && (negb (sc_sci st) || sc_have_exp st) then
        match strtod_round (scan_value st) with
        | Some v => (Some v, mkStream rest false)
        | None => (Some (if neg then Qred (- dbl_max) else dbl_max), mkStream rest true)
        end
      else (Some 0%Q, mkStream rest true)
  end.

End IStream.
Export IStream.

(** ** [Logger.h] *)

Module Logger.

Inductive Level := DEBUG | INFO | WARNING | ERROR.

Definition rank (l : Level) : Z :=
  match l with DEBUG => 0 | INFO => 1 | WARNING => 2 | ERROR => 3 end.

(** The singleton: its level and what it wrote to the two streams (the
    time stamp of a line is left out). *)
Record t := mk {
  current_level_ : Level;
  cout : list (Level * str);
  cerr : list (Level * str)
}.

(** The constructor sets [INFO]. *)
Definition instance : t := mk INFO [] [].

Definition set_level (level : Level) (lg : t) : t :=
  mk level (cout lg) (cerr lg).

Definition log (level : Level) (msg : str) (lg : t) : t :=
  if rank level <? rank (current_level_ lg) then lg
  else if rank level >=? rank WARNING then
    mk (current_level_ lg) (cout lg) (cerr lg ++ [(level, msg)])
  else
    mk (current_level_ lg) (cout lg ++ [(level, msg)]) (cerr lg).

Definition LOG_ERROR (msg : str) (lg : t) : t := log ERROR msg lg.
Definition LOG_INFO (msg : str) (lg : t) : t := log INFO msg lg.

(** The [ERROR] lines written so far. *)
Definition errors (lg : t) : list str :=
  map snd (filter (fun e => match fst e with ERROR => true | _ => false end) (cerr lg)).

End Logger.

(** ** The kernel text sources *)

Module Kernel.

(** An entry of the process root, as [readdir] returns it. *)
Record dirent := mkDirent { d_is_dir : bool; d_name : str }.

(** What the pseudo-files hold at one tick: [None] is a path that cannot
    be opened. *)
Record t := mk {
  file : str -> option str;
  proc_root : option (list dirent)
}.

Definition CPU_PATH := lit "/proc/stat".
Definition MEMORY_PATH := lit "/proc/meminfo".
Definition NETWORK_PATH := lit "/proc/net/dev".
Definition DISK_PATH := lit "/proc/diskstats".
Definition UPTIME_PATH := lit "/proc/uptime".
Definition LOADAVG_PATH := lit "/proc/loadavg".
Definition PROC_PATH := lit "/proc".

(** The message of a failed open: the source's text is the Chinese for
    "cannot open", then the path. *)
Definition cannot_open (path : str) : str := lit "cannot open " ++ path.

End Kernel.

Import Kernel(file, proc_root, CPU_PATH, MEMORY_PATH, NETWORK_PATH, DISK_PATH,
              UPTIME_PATH, LOADAVG_PATH, PROC_PATH, cannot_open).
Import Logger(LOG_ERROR, LOG_INFO).

Fixpoint str_eqb (a b : str) : bool :=
  match a, b with
  | [], [] => true
  | x :: a', y :: b' => Ascii.eqb x y && str_eqb a' b'
  | _, _ => false
  end.

(** ** [std::sort]

    The standard fixes the result of [std::sort] up to the order of
    equivalent elements: a permutation of the input in which no element
    is followed by one that compares before it.  The collectors are
    modelled over any function that meets this contract. *)

Definition strict_weak_order {A} (comp : A -> A -> bool) : Prop :=
  (forall a, comp a a = false) /\
  (forall a b c, comp a b = true -> comp b c = true -> comp a c = true) /\
  (forall a b c, comp a b = false -> comp b c = false -> comp a c = false).

Class StdSort := {
  std_sort : forall {A : Type}, (A -> A -> bool) -> list A -> list A;
  std_sort_perm : forall A (comp : A -> A -> bool) (l : list A),
      Permutation l (std_sort comp l);
  std_sort_sorted : forall A (comp : A -> A -> bool) (l : list A),
      strict_weak_order comp ->
      StronglySorted (fun a b => comp b a = false) (std_sort comp l)
}.

(** An implementation of the contract: insertion sort (what libstdc++
    runs on short ranges). *)
Fixpoint insert_sorted {A} (comp : A -> A -> bool) (x : A) (l : list A) : list A :=
  match l with
  | [] => [x]
  | y :: l' => if comp x y then x :: l else y :: insert_sorted comp x l'
  end.

Definition insertion_sort {A} (comp : A -> A -> bool) (l : list A) : list A :=
  fold_right (insert_sorted comp) [] l.

(** ** [Collectors.h]: the abstract collector *)

Module Collector.

(** The virtual members of a collector over its state [T], whose report
    (what [print_result] shows, before formatting) has type [R]. *)
Record vtable (T R : Type) := {
  get_name : str;
  do_collect : Kernel.t -> Logger.t -> T -> T * Logger.t;
  do_parse : Kernel.t -> Logger.t -> T -> outcome (T * Logger.t);
  do_calculate : T -> T;
  print_result : T -> R
}.
Arguments get_name {T R}.
Arguments do_collect {T R}.
Arguments do_parse {T R}.
Arguments do_calculate {T R}.
Arguments print_result {T R}.

(** The template method [update]. *)
Definition update {T R} (v : vtable T R) (k : Kernel.t) (lg : Logger.t) (c : T)
  : outcome (T * Logger.t) :=
  let '(c1, lg1) := do_collect v k lg c in
  r <- do_parse v k lg1 c1 ;;
  Normal (do_calculate v (fst r), snd r).

End Collector.

(** ** [CPUCollector] *)

Module CPUCollector.

Record t := mk {
  raw_data_ : str;
  prev_idle_ : Z;
  prev_total_ : Z;
  curr_idle_ : Z;
  curr_total_ : Z;
  usage_percent_ : double
}.

Definition init : t := mk [] 0 0 0 0 0%Q.

Definition set_raw (c : t) (raw : str) : t :=
  mk raw (prev_idle_ c) (prev_total_ c) (curr_idle_ c) (curr_total_ c) (usage_percent_ c).

Definition do_collect (k : Kernel.t) (lg : Logger.t) (c : t) : t * Logger.t :=
  match file k CPU_PATH with
  | None => (c, LOG_ERROR (cannot_open CPU_PATH) lg)
  | Some content =>
      (* [std::getline(file, raw_data_)] *)
      (set_raw c (first_line content), lg)
  end.

(** The eight cumulative counters of the aggregate line. *)
Record sample := mkSample {
  user : Z; nice : Z; system : Z; idle : Z;
  iowait : Z; irq : Z; softirq : Z; steal : Z
}.

(** The extraction statement of [do_parse], and the reads of its eight
    locals. *)
Definition extract_counters (raw : str) : outcome sample :=
  let ss := open raw in
  let '(cpu_label, ss) := extract_string ss in
  let '(user, ss) := extract_u64 ss in
  let '(nice, ss) := extract_u64 ss in
  let '(system, ss) := extract_u64 ss in
  let '(idle, ss) := extract_u64 ss in
  let '(iowait, ss) := extract_u64 ss in
  let '(irq, ss) := extract_u64 ss in
  let '(softirq, ss) := extract_u64 ss in
  let '(steal, ss) := extract_u64 ss in
  user <- read user ;; nice <- read nice ;; system <- read system ;;
  idle <- read idle ;; iowait <- read iowait ;; irq <- read irq ;;
  softirq <- read softirq ;; steal <- read steal ;;
  Normal (mkSample user nice system idle iowait irq softirq steal).

Definition idle_ticks (s : sample) : Z := wrap 64 (idle s + iowait s).

Definition total_ticks (s : sample) : Z :=
  wrap 64 (user s + nice s + system s + idle s + iowait s + irq s + softirq s + steal s).

Definition do_parse (c : t) : outcome t :=
  match raw_data_ c with
  | [] => Normal c
  | _ =>
      let prev_idle := curr_idle_ c in
      let prev_total := curr_total_ c in
      s <- extract_counters (raw_data_ c) ;;
      Normal (mk (raw_data_ c) prev_idle prev_total (idle_ticks s) (total_ticks s)
                 (usage_percent_ c))
  end.

(** The two locals of [do_calculate]. *)
Definition total_diff (c : t) : Z := wrap 64 (curr_total_ c - prev_total_ c).
Definition idle_diff (c : t) : Z := wrap 64 (curr_idle_ c - prev_idle_ c).

Definition do_calculate (c : t) : t :=
  if total_diff c >? 0 then
    mk (raw_data_ c) (prev_idle_ c) (prev_total_ c) (curr_idle_ c) (curr_total_ c)
       (ddiv (dmul 100%Q (of_u64 (wrap 64 (total_diff c - idle_diff c))))
             (of_u64 (total_diff c)))
  else c.

(** [get_usage], which is also what [print_result] shows. *)
Definition get_usage (c : t) : double := usage_percent_ c.

Definition vtable : Collector.vtable t double := {|
  Collector.get_name := lit "cpu";
  Collector.do_collect := do_collect;
  Collector.do_parse := fun _ lg c => c' <- do_parse c ;; Normal (c', lg);
  Collector.do_calculate := do_calculate;
  Collector.print_result := get_usage
|}.

Definition update := Collector.update vtable.

End CPUCollector.

(** ** [MemoryCollector] *)

Module MemoryCollector.

Record t := mk {
  raw_data_ : str;
  total_kb_ : Z;
  free_kb_ : Z;
  available_kb_ : Z;
  buffers_kb_ : Z;
  cached_kb_ : Z;
  used_kb_ : Z;
  usage_percent_ : double
}.

Definition init : t := mk [] 0 0 0 0 0 0 0%Q.

Definition do_collect (k : Kernel.t) (lg : Logger.t) (c : t) : t * Logger.t :=
  match file k MEMORY_PATH with
  | None => (c, LOG_ERROR (cannot_open MEMORY_PATH) lg)
  | Some content =>
      (mk content (total_kb_ c) (free_kb_ c) (available_kb_ c) (buffers_kb_ c)
          (cached_kb_ c) (used_kb_ c) (usage_percent_ c), lg)
  end.

(** The body of the [while (std::getline(iss, line))] loop. *)
Definition parse_line (c : t) (line : str) : outcome t :=
  let ss := open line in
  let '(key, ss) := extract_string ss in
  let '(value, ss) := extract_u64 ss in
  let '(unit, ss) := extract_string ss in
  let key := match key with Some k => k | None => [] end in
  if str_eqb key (lit "MemTotal:") then
    v <- read value ;;
    Normal (mk (raw_data_ c) v (free_kb_ c) (available_kb_ c) (buffers_kb_ c)
               (cached_kb_ c) (used_kb_ c) (usage_percent_ c))
  else if str_eqb key (lit "MemFree:") then
    v <- read value ;;
    Normal (mk (raw_data_ c) (total_kb_ c) v (available_kb_ c) (buffers_kb_ c)
               (cached_kb_ c) (used_kb_ c) (usage_percent_ c))
  else if str_eqb key (lit "MemAvailable:") then
    v <- read value ;;
    Normal (mk (raw_data_ c) (total_kb_ c) (free_kb_ c) v (buffers_kb_ c)
               (cached_kb_ c) (used_kb_ c) (usage_percent_ c))
  else if str_eqb key (lit "Buffers:") then
    v <- read value ;;
    Normal (mk (raw_data_ c) (total_kb_ c) (free_kb_ c) (available_kb_ c) v
               (cached_kb_ c) (used_kb_ c) (usage_percent_ c))
  else if str_eqb key (lit "Cached:") then
    v <- read value ;;
    Normal (mk (raw_data_ c) (total_kb_ c) (free_kb_ c) (available_kb_ c)
               (buffers_kb_ c) v (used_kb_ c) (usage_percent_ c))
  else Normal c.

Fixpoint parse_lines (c : t) (lines : list str) : outcome t :=
  match lines with
  | [] => Normal c
  | line :: rest => c' <- parse_line c line ;; parse_lines c' rest
  end.

Definition do_parse (c : t) : outcome t := parse_lines c (getlines (raw_data_ c)).

Definition do_calculate (c : t) : t :=
  let used := wrap 64 (total_kb_ c - available_kb_ c) in
  mk (raw_data_ c) (total_kb_ c) (free_kb_ c) (available_kb_ c) (buffers_kb_ c)
     (cached_kb_ c) used
     (if total_kb_ c >? 0 then ddiv (dmul 100%Q (of_u64 used)) (of_u64 (total_kb_ c))
      else usage_percent_ c).

(** What [print_result] shows: total, used, available, percentage. *)
Definition print_result (c : t) : Z * Z * Z * double :=
  (total_kb_ c, used_kb_ c, available_kb_ c, usage_percent_ c).

Definition vtable : Collector.vtable t (Z * Z * Z * double) := {|
  Collector.get_name := lit "memory";
  Collector.do_collect := do_collect;
  Collector.do_parse := fun _ lg c => c' <- do_parse c ;; Normal (c', lg);
  Collector.do_calculate := do_calculate;
  Collector.print_result := print_result
|}.

Definition update := Collector.update vtable.

End MemoryCollector.

(** ** [DiskCollector] *)

Module DiskCollector.

Record DiskStats := mkStats {
  name : str;
  reads_completed : Z;
  writes_completed : Z;
  sectors_read : Z;
  sectors_written : Z
}.

Record t := mk { raw_data_ : str; disks_ : list DiskStats }.

Definition init : t := mk [] [].

Definition do_collect (k : Kernel.t) (lg : Logger.t) (c : t) : t * Logger.t :=
  match file k DISK_PATH with
  | None => (c, LOG_ERROR (cannot_open DISK_PATH) lg)
  | Some content => (mk content (disks_ c), lg)
  end.

(** The two nested conditions that guard [disks_.push_back]. *)
Definition keeps (name : str) : bool :=
  if negb (contains (lit "loop") name) &&
     (contains (lit "sd") name || contains (lit "vd") name ||
      contains (lit "nvme") name)
  then
    let is_partition :=
      if size name >? 2 then
        let last := back name in
        (isdigit last && negb (contains (lit "nvme") name)) ||
        (contains (lit "nvme") name && contains (lit "p") name)
      else false in
    negb is_partition ||
    (contains (lit "nvme") name && negb (contains (lit "p") name))
  else false.

(** The name field of a line, as the extraction leaves it. *)
Definition line_name (line : str) : str :=
  let ss := open line in
  let '(major, ss) := extract_i32 ss in
  let '(minor, ss) := extract_i32 ss in
  let '(name, ss) := extract_string ss in
  match name with Some n => n | None => [] end.

(** The body of the loop: the record the line adds, if any. *)
Definition parse_line (line : str) : outcome (option DiskStats) :=
  let ss := open line in
  let '(major, ss) := extract_i32 ss in
  let '(minor, ss) := extract_i32 ss in
  let '(name, ss) := extract_string ss in
  let '(reads_completed, ss) := extract_u64 ss in
  let '(reads_merged, ss) := extract_u64 ss in
  let '(sectors_read, ss) := extract_u64 ss in
  let '(time_reading, ss) := extract_u64 ss in
  let '(writes_completed, ss) := extract_u64 ss in
  let '(writes_merged, ss) := extract_u64 ss in
  let '(sectors_written, ss) := extract_u64 ss in
  let '(time_writing, ss) := extract_u64 ss in
  let name := match name with Some n => n | None => [] end in
  if keeps name then
    rc <- read reads_completed ;; wc <- read writes_completed ;;
    sr <- read sectors_read ;; sw <- read sectors_written ;;
    Normal (Some (mkStats name rc wc sr sw))
  else Normal None.

Fixpoint parse_lines (acc : list DiskStats) (lines : list str)
  : outcome (list DiskStats) :=
  match lines with
  | [] => Normal acc
  | line :: rest =>
      r <- parse_line line ;;
      parse_lines (match r with Some d => acc ++ [d] | None => acc end) rest
  end.

Definition do_parse (c : t) : outcome t :=
  ds <- parse_lines [] (getlines (raw_data_ c)) ;;
  Normal (mk (raw_data_ c) ds).

Definition print_result (c : t) : list DiskStats := disks_ c.

Definition vtable : Collector.vtable t (list DiskStats) := {|
  Collector.get_name := lit "disk";
  Collector.do_collect := do_collect;
  Collector.do_parse := fun _ lg c => c' <- do_parse c ;; Normal (c', lg);
  Collector.do_calculate := fun c => c;
  Collector.print_result := print_result
|}.

Definition update := Collector.update vtable.

End DiskCollector.

(** ** [NetworkCollector] *)

Module NetworkCollector.

Record InterfaceStats := mkStats {
  name : str;
  rx_bytes : Z;
  tx_bytes : Z;
  rx_packets : Z;
  tx_packets : Z
}.

Record t := mk { raw_data_ : str; interfaces_ : list InterfaceStats }.

Definition init : t := mk [] [].

Definition do_collect (k : Kernel.t) (lg : Logger.t) (c : t) : t * Logger.t :=
  match file k NETWORK_PATH with
  | None => (c, LOG_ERROR (cannot_open NETWORK_PATH) lg)
  | Some content => (mk content (interfaces_ c), lg)
  end.

(** A member with the initialiser [= 0] keeps it when the extraction
    does not write it. *)
Definition or0 (v : option Z) : Z := match v with Some x => x | None => 0 end.

(** The part of the loop body after the header test, for a line with a
    colon at [colon_pos]. *)
Definition parse_interface (line : str) (colon_pos : Z) : outcome InterfaceStats :=
  iface_name <- substr_n line 0 colon_pos ;;
  let iface_name :=
    erase_front iface_name (find_first_not_of [" "%char; "009"%char] iface_name) in
  stats_str <- substr line (colon_pos + 1) ;;
  let ss := open stats_str in
  let '(rx_bytes, ss) := extract_u64 ss in
  let '(rx_packets, ss) := extract_u64 ss in
  let '(dummy, ss) := extract_u64 ss in
  let '(dummy, ss) := extract_u64 ss in
  let '(dummy, ss) := extract_u64 ss in
  let '(dummy, ss) := extract_u64 ss in
  let '(dummy, ss) := extract_u64 ss in
  let '(dummy, ss) := extract_u64 ss in
  let '(tx_bytes, ss) := extract_u64 ss in
  let '(tx_packets, ss) := extract_u64 ss in
  Normal (mkStats iface_name (or0 rx_bytes) (or0 tx_bytes) (or0 rx_packets)
                  (or0 tx_packets)).

(** The [while] loop, [line_num] being the count of lines read before. *)
Fixpoint parse_lines (line_num : Z) (acc : list InterfaceStats) (lines : list str)
  : outcome (list InterfaceStats) :=
  match lines with
  | [] => Normal acc
  | line :: rest =>
      let line_num := line_num + 1 in
      if line_num <=? 2 then parse_lines line_num acc rest
      else
        match find_char ":" line with
        | None => parse_lines line_num acc rest
        | Some colon_pos =>
            stats <- parse_interface line colon_pos ;;
            parse_lines line_num (acc ++ [stats]) rest
        end
  end.

Definition do_parse (c : t) : outcome t :=
  l <- parse_lines 0 [] (getlines (raw_data_ c)) ;;
  Normal (mk (raw_data_ c) l).

Definition print_result (c : t) : list InterfaceStats := interfaces_ c.

Definition vtable : Collector.vtable t (list InterfaceStats) := {|
  Collector.get_name := lit "network";
  Collector.do_collect := do_collect;
  Collector.do_parse := fun _ lg c => c' <- do_parse c ;; Normal (c', lg);
  Collector.do_calculate := fun c => c;
  Collector.print_result := print_result
|}.

Definition update := Collector.update vtable.

End NetworkCollector.

(** ** [ProcessCollector] *)

Module ProcessCollector.

Record ProcessInfo := mkInfo {
  pid : Z;
  name : str;
  state : ascii;
  vsize : Z;
  rss : Z
}.

Record t := mk {
  raw_data_ : str;
  processes_ : list ProcessInfo;
  total_processes_ : Z;
  running_processes_ : Z
}.

Definition init : t := mk [] [] 0 0.

(** [do_collect] only clears the raw text. *)
Definition do_collect (k : Kernel.t) (lg : Logger.t) (c : t) : t * Logger.t :=
  (mk [] (processes_ c) (total_processes_ c) (running_processes_ c), lg).

(** The test on a directory name. *)
Definition is_pid (name : str) : bool :=
  negb (match name with [] => true | _ => false end) && forallb isdigit name.

Definition stat_path (name : str) : str :=
  PROC_PATH ++ lit "/" ++ name ++ lit "/stat".

(** The treatment of the first line of a [stat] file: [None] when a
    parenthesis is missing and the entry is dropped. *)
Definition parse_stat_line (pid : Z) (line : str) : outcome (option ProcessInfo) :=
  match find_char "(" line, rfind_char ")" line with
  | Some start, Some end_ =>
      name <- substr_n line (start + 1) (wrap 64 (end_ - start - 1)) ;;
      rest <- substr line (end_ + 2) ;;
      let ss := open rest in
      let '(state, ss) := extract_char ss in
      let '(ppid, ss) := extract_i32 ss in
      let '(pgrp, ss) := extract_i32 ss in
      let '(session, ss) := extract_i32 ss in
      let '(tty_nr, ss) := extract_i32 ss in
      let '(tpgid, ss) := extract_i32 ss in
      let '(flags, ss) := extract_u32 ss in
      let '(minflt, ss) := extract_u64 ss in
      let '(cminflt, ss) := extract_u64 ss in
      let '(majflt, ss) := extract_u64 ss in
      let '(cmajflt, ss) := extract_u64 ss in
      let '(utime, ss) := extract_u64 ss in
      let '(stime, ss) := extract_u64 ss in
      let '(cutime, ss) := extract_i64 ss in
      let '(cstime, ss) := extract_i64 ss in
      let '(priority, ss) := extract_i64 ss in
      let '(nice, ss) := extract_i64 ss in
      let '(num_threads, ss) := extract_i64 ss in
      let '(itrealvalue, ss) := extract_i64 ss in
      let '(starttime, ss) := extract_u64 ss in
      let '(vsize, ss) := extract_u64 ss in
      let '(rss, ss) := extract_i64 ss in
      state <- read state ;; vsize <- read vsize ;; rss <- read rss ;;
      Normal (Some (mkInfo pid name state vsize rss))
  | _, _ => Normal None
  end.

(** What the scan has built so far: the list and the two counters. *)
Definition scan_state : Type := list ProcessInfo * Z * Z.

(** The body of the [readdir] loop. *)
Definition scan_entry (k : Kernel.t) (acc : scan_state) (entry : Kernel.dirent)
  : outcome scan_state :=
  let '(processes, total, running) := acc in
  if Kernel.d_is_dir entry then
    let name := Kernel.d_name entry in
    if is_pid name then
      pid <- stoi name ;;
      match file k (stat_path name) with
      | Some content =>
          match getline content with
          | Some line =>
              r <- parse_stat_line pid line ;;
              match r with
              | Some info =>
                  Normal (processes ++ [info], total + 1,
                          if Ascii.eqb (state info) "R" then running + 1 else running)
              | None => Normal acc
              end
          | None => Normal acc
          end
      | None => Normal acc
      end
    else Normal acc
  else Normal acc.

Fixpoint scan (k : Kernel.t) (acc : scan_state) (entries : list Kernel.dirent)
  : outcome scan_state :=
  match entries with
  | [] => Normal acc
  | entry :: rest => acc' <- scan_entry k acc entry ;; scan k acc' rest
  end.

(** The comparison handed to [std::sort]. *)
Definition by_rss_desc (a b : ProcessInfo) : bool := rss a >? rss b.

Definition do_parse `{StdSort} (k : Kernel.t) (lg : Logger.t) (c : t)
  : outcome (t * Logger.t) :=
  match proc_root k with
  | None => Normal (c, LOG_ERROR (cannot_open PROC_PATH) lg)
  | Some entries =>
      r <- scan k ([], 0, 0) entries ;;
      let '(processes, total, running) := r in
      Normal (mk (raw_data_ c) (std_sort by_rss_desc processes) total running, lg)
  end.

(** What [print_result] shows: the two counters and the first five
    entries of the list (the conversion of pages to megabytes is
    formatting). *)
Definition top5 (c : t) : list ProcessInfo := firstn 5 (processes_ c).

Definition print_result (c : t) : Z * Z * list ProcessInfo :=
  (total_processes_ c, running_processes_ c, top5 c).

Definition vtable `{StdSort} : Collector.vtable t (Z * Z * list ProcessInfo) := {|
  Collector.get_name := lit "process";
  Collector.do_collect := do_collect;
  Collector.do_parse := do_parse;
  Collector.do_calculate := fun c => c;
  Collector.print_result := print_result
|}.

Definition update `{StdSort} := Collector.update vtable.

End ProcessCollector.

(** ** [SystemCollector] *)

Module SystemCollector.

Record t := mk {
  raw_data_ : str;
  uptime_seconds_ : double;
  load_1min_ : double;
  load_5min_ : double;
  load_15min_ : double;
  running_tasks_ : Z;
  total_tasks_ : Z
}.

Definition init : t := mk [] 0%Q 0%Q 0%Q 0%Q 0 0.

Definition or_keep {A} (v : option A) (old : A) : A :=
  match v with Some x => x | None => old end.

(** Two guarded reads, neither of which logs. *)
Definition do_collect (k : Kernel.t) (lg : Logger.t) (c : t) : t * Logger.t :=
  let uptime :=
    match file k UPTIME_PATH with
    | Some content => or_keep (fst (extract_double (open content))) (uptime_seconds_ c)
    | None => uptime_seconds_ c
    end in
  let raw :=
    match file k LOADAVG_PATH with
    | Some content => content
    | None => raw_data_ c
    end in
  (mk raw uptime (load_1min_ c) (load_5min_ c) (load_15min_ c)
      (running_tasks_ c) (total_tasks_ c), lg).

(** The fourth token of the load line, as the extraction leaves it. *)
Definition running_str (raw : str) : str :=
  let iss := open raw in
  let '(l1, iss) := extract_double iss in
  let '(l5, iss) := extract_double iss in
  let '(l15, iss) := extract_double iss in
  let '(running, iss) := extract_string iss in
  or_keep running [].

Definition do_parse (c : t) : outcome t :=
  let iss := open (raw_data_ c) in
  let '(l1, iss) := extract_double iss in
  let '(l5, iss) := extract_double iss in
  let '(l15, iss) := extract_double iss in
  let '(running, iss) := extract_string iss in
  let running_str := or_keep running [] in
  let c1 := mk (raw_data_ c) (uptime_seconds_ c) (or_keep l1 (load_1min_ c))
               (or_keep l5 (load_5min_ c)) (or_keep l15 (load_15min_ c))
               (running_tasks_ c) (total_tasks_ c) in
  match find_char "/" running_str with
  | Some slash_pos =>
      a <- substr_n running_str 0 slash_pos ;;
      running_tasks <- stoi a ;;
      b <- substr running_str (slash_pos + 1) ;;
      total_tasks <- stoi b ;;
      Normal (mk (raw_data_ c1) (uptime_seconds_ c1) (load_1min_ c1) (load_5min_ c1)
                 (load_15min_ c1) running_tasks total_tasks)
  | None => Normal c1
  end.

(** What [print_result] shows (the split of the uptime into days, hours,
    minutes and seconds is formatting). *)
Definition print_result (c : t) : double * (double * double * double) * (Z * Z) :=
  (uptime_seconds_ c, (load_1min_ c, load_5min_ c, load_15min_ c),
   (running_tasks_ c, total_tasks_ c)).

Definition vtable
  : Collector.vtable t (double * (double * double * double) * (Z * Z)) := {|
  Collector.get_name := lit "system";
  Collector.do_collect := do_collect;
  Collector.do_parse := fun _ lg c => c' <- do_parse c ;; Normal (c', lg);
  Collector.do_calculate := fun c => c;
  Collector.print_result := print_result
|}.

Definition update := Collector.update vtable.

End SystemCollector.

(** ** The collector set and the tick loop of [main.cpp] *)

Module Main.

(** The six variants behind the common interface. *)
Inductive collector :=
| CSystem (c : SystemCollector.t)
| CCPU (c : CPUCollector.t)
| CMemory (c : MemoryCollector.t)
| CDisk (c : DiskCollector.t)
| CNetwork (c : NetworkCollector.t)
| CProcess (c : ProcessCollector.t).

Inductive report :=
| RSystem (r : double * (double * double * double) * (Z * Z))
| RCPU (r : double)
| RMemory (r : Z * Z * Z * double)
| RDisk (r : list DiskCollector.DiskStats)
| RNetwork (r : list NetworkCollector.InterfaceStats)
| RProcess (r : Z * Z * list ProcessCollector.ProcessInfo).

Definition lift {T} (inj : T -> collector) (r : outcome (T * Logger.t))
  : outcome (collector * Logger.t) :=
  x <- r ;; Normal (inj (fst x), snd x).

(** [collector->update()] *)
Definition update `{StdSort} (k : Kernel.t) (lg : Logger.t) (c : collector)
  : outcome (collector * Logger.t) :=
  match c with
  | CSystem c => lift CSystem (SystemCollector.update k lg c)
  | CCPU c => lift CCPU (CPUCollector.update k lg c)
  | CMemory c => lift CMemory (MemoryCollector.update k lg c)
  | CDisk c => lift CDisk (DiskCollector.update k lg c)
  | CNetwork c => lift CNetwork (NetworkCollector.update k lg c)
  | CProcess c => lift CProcess (ProcessCollector.update k lg c)
  end.

(** [collector->print_result()] *)
Definition print_result (c : collector) : report :=
  match c with
  | CSystem c => RSystem (SystemCollector.print_result c)
  | CCPU c => RCPU (CPUCollector.get_usage c)
  | CMemory c => RMemory (MemoryCollector.print_result c)
  | CDisk c => RDisk (DiskCollector.print_result c)
  | CNetwork c => RNetwork (NetworkCollector.print_result c)
  | CProcess c => RProcess (ProcessCollector.print_result c)
  end.

(** [CollectorFactory::create_all]: one collector per [REGISTER_COLLECTOR]
    line, in the order of the lines. *)
Definition create_all : list collector :=
  [ CSystem SystemCollector.init; CCPU CPUCollector.init;
    CMemory MemoryCollector.init; CDisk DiskCollector.init;
    CNetwork NetworkCollector.init; CProcess ProcessCollector.init ].

(** The first loop of [main]: every collector is updated, nothing is
    shown. *)
Fixpoint update_all `{StdSort} (k : Kernel.t) (lg : Logger.t) (cs : list collector)
  : outcome (list collector * Logger.t) :=
  match cs with
  | [] => Normal ([], lg)
  | c :: rest =>
      r <- update k lg c ;;
      r' <- update_all k (snd r) rest ;;
      Normal (fst r :: fst r', snd r')
  end.

(** The loop of one timer event: each collector is updated and shown in
    turn.  No handler surrounds it: an exception ends the program. *)
Fixpoint tick_loop `{StdSort} (k : Kernel.t) (lg : Logger.t) (cs : list collector)
  : outcome (list collector * Logger.t * list report) :=
  match cs with
  | [] => Normal ([], lg, [])
  | c :: rest =>
      r <- update k lg c ;;
      let shown := print_result (fst r) in
      r' <- tick_loop k (snd r) rest ;;
      let '(cs', lg', shown') := r' in
      Normal (fst r :: cs', lg', shown :: shown')
  end.

(** The program between two timer events. *)
Record process := mkProcess {
  logger : Logger.t;
  collectors : list collector;
  screen : list report
}.

(** [main] up to the event loop (the timer and the poll set are taken to
    be created). *)
Definition startup `{StdSort} (k : Kernel.t) : outcome process :=
  let lg := Logger.set_level Logger.WARNING Logger.instance in
  r <- update_all k lg create_all ;;
  Normal (mkProcess (LOG_INFO (lit "system monitor started") (snd r)) (fst r) []).

Definition tick `{StdSort} (k : Kernel.t) (p : process) : outcome process :=
  r <- tick_loop k (logger p) (collectors p) ;;
  let '(cs, lg, shown) := r in
  Normal (mkProcess lg cs shown).

(** A run over the successive states of the kernel sources. *)
Fixpoint ticks `{StdSort} (ks : list Kernel.t) (p : process) : outcome process :=
  match ks with
  | [] => Normal p
  | k :: rest => p' <- tick k p ;; ticks rest p'
  end.

End Main.

(** ** States of a collector between refreshes *)

Module Refresh.
Import Main.

(** The sources of a collector cannot be opened. *)
Definition source_unreachable (k : Kernel.t) (c : collector) : Prop :=
  match c with
  | CSystem _ => file k UPTIME_PATH = None /\ file k LOADAVG_PATH = None
  | CCPU _ => file k CPU_PATH = None
  | CMemory _ => file k MEMORY_PATH = None
  | CDisk _ => file k DISK_PATH = None
  | CNetwork _ => file k NETWORK_PATH = None
  | CProcess _ => proc_root k = None
  end.

(** The path a collector names when it logs a failed open. *)
Definition source_path (c : collector) : str :=
  match c with
  | CSystem _ => LOADAVG_PATH
  | CCPU _ => CPU_PATH
  | CMemory _ => MEMORY_PATH
  | CDisk _ => DISK_PATH
  | CNetwork _ => NETWORK_PATH
  | CProcess _ => PROC_PATH
  end.

(** The failure notices of one refresh from unreachable sources: one
    for each collector but the system collector, whose [do_collect] has
    no call of the logger. *)
Definition failure_notices (c : collector) : list str :=
  match c with
  | CSystem _ => []
  | _ => [cannot_open (source_path c)]
  end.

(** Two collectors of the same variant. *)
Definition same_kind (c c' : collector) : Prop :=
  match c, c' with
  | CSystem _, CSystem _ | CCPU _, CCPU _ | CMemory _, CMemory _
  | CDisk _, CDisk _ | CNetwork _, CNetwork _ | CProcess _, CProcess _ => True
  | _, _ => False
  end.

(** The states a collector can be in: as constructed, or as left by a
    refresh that returned. *)
Inductive reachable `{StdSort} : collector -> Prop :=
| reach_init c : In c create_all -> reachable c
| reach_update k lg c c' lg' :
    reachable c -> update k lg c = Normal (c', lg') -> reachable c'.

(** What every reachable state satisfies: parsing the retained raw text
    again changes nothing that is shown. *)
Definition cpu_settled (c : CPUCollector.t) : Prop :=
  match CPUCollector.raw_data_ c with
  | [] =>
      CPUCollector.usage_percent_ (CPUCollector.do_calculate c)
      = CPUCollector.usage_percent_ c
  | raw =>
      exists s,
        CPUCollector.extract_counters raw = Normal s /\
        CPUCollector.curr_idle_ c = CPUCollector.idle_ticks s /\
        CPUCollector.curr_total_ c = CPUCollector.total_ticks s
  end.

Definition memory_settled (c : MemoryCollector.t) : Prop :=
  exists c', MemoryCollector.do_parse c = Normal c' /\
             MemoryCollector.do_calculate c' = c.

Definition settled (c : collector) : Prop :=
  match c with
  | CSystem c => SystemCollector.do_parse c = Normal c
  | CCPU c => cpu_settled c
  | CMemory c => memory_settled c
  | CDisk c => DiskCollector.do_parse c = Normal c
  | CNetwork c => NetworkCollector.do_parse c = Normal c
  | CProcess c => ProcessCollector.raw_data_ c = []
  end.

(** Two states of the memory collector before and after the same line:
    a field is either left alone in both or set to the same value. *)
Definition same_effect (c c' d d' : MemoryCollector.t) : Prop :=
  let field_ok (f : MemoryCollector.t -> Z) :=
    (f c' = f c /\ f d' = f d) \/ f c' = f d' in
  (MemoryCollector.raw_data_ c' = MemoryCollector.raw_data_ c /\
   MemoryCollector.raw_data_ d' = MemoryCollector.raw_data_ d /\
   MemoryCollector.used_kb_ c' = MemoryCollector.used_kb_ c /\
   MemoryCollector.used_kb_ d' = MemoryCollector.used_kb_ d /\
   MemoryCollector.usage_percent_ c' = MemoryCollector.usage_percent_ c /\
   MemoryCollector.usage_percent_ d' = MemoryCollector.usage_percent_ d) /\
  field_ok MemoryCollector.total_kb_ /\ field_ok MemoryCollector.free_kb_ /\
  field_ok MemoryCollector.available_kb_ /\ field_ok MemoryCollector.buffers_kb_ /\
  field_ok MemoryCollector.cached_kb_.

End Refresh.

(** ** The specification's own wording, for comparison with the code *)

Module Spec.

(** A name "ends in a digit". *)
Definition ends_in_digit (name : str) : bool :=
  match name with
  | [] => false
  | _ => isdigit (back name)
  end.

(** "A name ending in a digit is a partition unless it is an NVMe-style
    name (which instead uses a partition-suffix marker within the name)". *)
Definition is_partition (name : str) : bool :=
  if contains (lit "nvme") name then contains (lit "p") name
  else ends_in_digit name.

(** "A line is kept only if: the name does not contain the loop-device
    marker, AND the name contains one of the recognized physical-disk
    prefixes, AND the name is not itself a partition". *)
Definition disk_kept (name : str) : bool :=
  negb (contains (lit "loop") name) &&
  (contains (lit "sd") name || contains (lit "vd") name || contains (lit "nvme") name) &&
  negb (is_partition name).

(** "Cumulative counters, monotonically non-decreasing". *)
Definition monotone (s1 s2 : CPUCollector.sample) : Prop :=
  (CPUCollector.user s1 <= CPUCollector.user s2 /\
   CPUCollector.nice s1 <= CPUCollector.nice s2 /\
   CPUCollector.system s1 <= CPUCollector.system s2 /\
   CPUCollector.idle s1 <= CPUCollector.idle s2) /\
  (CPUCollector.iowait s1 <= CPUCollector.iowait s2 /\
   CPUCollector.irq s1 <= CPUCollector.irq s2 /\
   CPUCollector.softirq s1 <= CPUCollector.softirq s2 /\
   CPUCollector.steal s1 <= CPUCollector.steal s2).

(** "Total-ticks = sum of all eight counters", as a number. *)
Definition counter_sum (s : CPUCollector.sample) : Z :=
  CPUCollector.user s + CPUCollector.nice s + CPUCollector.system s +
  CPUCollector.idle s + CPUCollector.iowait s + CPUCollector.irq s +
  CPUCollector.softirq s + CPUCollector.steal s.

(** The white space the interface name is trimmed of: blank and tab. *)
Definition is_blank (c : ascii) : bool := Ascii.eqb c " " || Ascii.eqb c "009".

(** "Whitespace-separated unsigned integers in fixed position": the
    values of [n] successive extractions. *)
Fixpoint u64_fields (n : nat) (ss : istream) : list (option Z) :=
  match n with
  | O => []
  | Datatypes.S n' => let '(v, ss') := extract_u64 ss in v :: u64_fields n' ss'
  end.

Definition field (fs : list (option Z)) (i : nat) : Z :=
  match nth i fs None with Some v => v | None => 0 end.

Definition has_colon (line : str) : bool :=
  existsb (fun c => Ascii.eqb c ":") line.

(** "Split at the first colon into interface name (left) and a
    statistics blob (right)". *)
Fixpoint split_at_colon (line : str) : option (str * str) :=
  match line with
  | [] => None
  | c :: r =>
      if Ascii.eqb c ":" then Some ([], r)
      else match split_at_colon r with
           | Some (l, r') => Some (c :: l, r')
           | None => None
           end
  end.

(** "Receive-bytes, receive-packets, then six ignored receive-side
    fields, then transmit-bytes, transmit-packets". *)
Definition interface_record (line : str) : option NetworkCollector.InterfaceStats :=
  match split_at_colon line with
  | None => None
  | Some (l, r) =>
      let fs := u64_fields 10 (open r) in
      Some (NetworkCollector.mkStats (drop_while is_blank l)
              (field fs 0) (field fs 8) (field fs 1) (field fs 9))
  end.

Definition interface_records (lines : list str)
  : list NetworkCollector.InterfaceStats :=
  flat_map (fun line => match interface_record line with
                        | Some r => [r]
                        | None => []
                        end) lines.


(** "Descending order of resident set size". *)
Definition rss_descending (l : list ProcessCollector.ProcessInfo) : Prop :=
  StronglySorted (fun a b => ProcessCollector.rss a >= ProcessCollector.rss b) l.



End Spec.

(** ** Sample inputs *)

Module Samples.

#[local] Open Scope string_scope.

Definition nl : string := String newline EmptyString.

(** A kernel whose only readable file is [path]. *)
Definition only (path : str) (content : string) : Kernel.t :=
  Kernel.mk (fun p => if str_eqb p path then Some (lit content) else None) None.

(** A kernel with no readable source at all. *)
Definition unreachable : Kernel.t := Kernel.mk (fun _ => None) None.

Definition logger0 : Logger.t := Logger.set_level Logger.WARNING Logger.instance.

Definition cpu_half_idle_text : string :=
  "cpu  10 0 0 10 0 0 0 0 0 0" ++ nl ++ "cpu0 10 0 0 10 0 0 0 0 0 0" ++ nl.
Definition cpu_half_idle : Kernel.t := only CPU_PATH cpu_half_idle_text.

Definition cpu_zero_text : string := "cpu  0 0 0 0 0 0 0 0 0 0" ++ nl.
Definition cpu_zero : Kernel.t := only CPU_PATH cpu_zero_text.

Definition cpu_later_text : string := "cpu  40 0 0 20 0 0 0 0 0 0" ++ nl.
Definition cpu_later : Kernel.t := only CPU_PATH cpu_later_text.

Definition cpu_reset_text : string := "cpu  1 0 0 1 0 0 0 0 0 0" ++ nl.
Definition cpu_reset : Kernel.t := only CPU_PATH cpu_reset_text.

(** 5764607523034237 busy ticks, none idle. *)
Definition cpu_huge_text : string := "cpu  5764607523034237 0 0 0 0 0 0 0 0 0" ++ nl.
Definition cpu_huge : Kernel.t := only CPU_PATH cpu_huge_text.

(** 2^63 busy ticks and 2^63+1 idle ticks: their sum is 2^64+1. *)
Definition cpu_wrapping_text : string :=
  "cpu  9223372036854775808 0 0 9223372036854775809 0 0 0 0 0 0" ++ nl.
Definition cpu_wrapping : Kernel.t := only CPU_PATH cpu_wrapping_text.

(** The state of the collector after a normal refresh. *)
Definition cpu_after (k : Kernel.t) (c : CPUCollector.t) : CPUCollector.t :=
  match CPUCollector.update k logger0 c with
  | Normal r => fst r
  | _ => c
  end.


Definition mem_half_text : string :=
  "MemTotal:       100 kB" ++ nl ++ "MemFree:        10 kB" ++ nl ++
  "MemAvailable:   50 kB" ++ nl ++ "Buffers:        5 kB" ++ nl ++
  "Cached:         20 kB" ++ nl.
Definition mem_half : Kernel.t := only MEMORY_PATH mem_half_text.

Definition mem_zero_text : string :=
  "MemTotal:       0 kB" ++ nl ++ "MemFree:        0 kB" ++ nl ++
  "MemAvailable:   0 kB" ++ nl.
Definition mem_zero : Kernel.t := only MEMORY_PATH mem_zero_text.

Definition mem_more_available_text : string :=
  "MemTotal:       50 kB" ++ nl ++ "MemAvailable:   100 kB" ++ nl.
Definition mem_more_available : Kernel.t := only MEMORY_PATH mem_more_available_text.

Definition mem_after (k : Kernel.t) (c : MemoryCollector.t) : MemoryCollector.t :=
  match MemoryCollector.update k logger0 c with
  | Normal r => fst r
  | _ => c
  end.


Definition disk_text : string :=
  "   7       3 loop3 10 0 20 0 0 0 0 0 0 0 0" ++ nl ++
  "   8       0 sda 100 1 3000 9 200 2 4000 8 0 0 0" ++ nl ++
  "   8       1 sda1 50 1 1500 9 100 2 2000 8 0 0 0" ++ nl ++
  " 259       0 nvme0n1 5 0 70 1 6 0 80 1 0 0 0" ++ nl ++
  " 259       1 nvme0n1p1 4 0 60 1 5 0 70 1 0 0 0" ++ nl.


Definition net_text : string :=
  "Inter-|   Receive                                                |  Transmit" ++ nl ++
  " face |bytes    packets errs drop fifo frame compressed multicast|bytes    packets errs drop fifo colls carrier compressed" ++ nl ++
  "  eth0: 1000 10 0 0 0 0 0 0 2000 20 0 0 0 0 0 0" ++ nl.

Definition net_with_junk_text : string :=
  "header one" ++ nl ++ "header two" ++ nl ++
  "    lo: 7 1 0 0 0 0 0 0 7 1 0 0 0 0 0 0" ++ nl ++
  "this line has no separator" ++ nl ++
  "  eth0: 1000 10 0 0 0 0 0 0 2000 20 0 0 0 0 0 0" ++ nl.


(** A kernel given by the list of its readable files and the entries of
    its process root. *)
Fixpoint lookup (files : list (string * string)) (p : str) : option str :=
  match files with
  | [] => None
  | (path, content) :: rest =>
      if str_eqb p (lit path) then Some (lit content) else lookup rest p
  end.

Definition dir (name : string) : Kernel.dirent := Kernel.mkDirent true (lit name).
Definition nondir (name : string) : Kernel.dirent := Kernel.mkDirent false (lit name).

(** The fields of a stat line after the name: state, 19 numbers, then
    the virtual size and the resident set size. *)
Definition stat_tail (state : string) (vsize rss : string) : string :=
  state ++ " 1 1234 1234 0 -1 4194304 100 0 0 0 5 3 0 0 20 0 1 0 12345 "
        ++ vsize ++ " " ++ rss ++ " 18446744073709551615 1 1".

Definition stat_my_proc : string := "1234 (my proc) " ++ stat_tail "R" "1000000" "250".

(** Four processes of resident sizes 5, 50, 1 and 100, among entries
    that are no processes. *)
Definition four_entries : list Kernel.dirent :=
  [dir "."; dir ".."; dir "1"; dir "2"; dir "cpuinfo"; nondir "77";
   dir "30"; dir "1234"; dir "1x"].

Definition four_processes : Kernel.t :=
  Kernel.mk
    (lookup [("/proc/1/stat", "1 (init) " ++ stat_tail "S" "4096" "5" ++ nl);
             ("/proc/2/stat", "2 (kthreadd) " ++ stat_tail "R" "8192" "50" ++ nl);
             ("/proc/30/stat", "30 (a (b) c) " ++ stat_tail "S" "100" "1" ++ nl);
             ("/proc/1234/stat", "1234 (my proc) " ++ stat_tail "R" "1000000" "100" ++ nl);
             ("/proc/cpuinfo/stat", "5 (fake) " ++ stat_tail "R" "1" "999" ++ nl)])
    (Some four_entries).

(** The four processes in the order of the scan, and the collector that
    holds them sorted. *)
Definition four_scanned : list ProcessCollector.ProcessInfo :=
  [ProcessCollector.mkInfo 1 (lit "init") "S" 4096 5;
   ProcessCollector.mkInfo 2 (lit "kthreadd") "R" 8192 50;
   ProcessCollector.mkInfo 30 (lit "a (b) c") "S" 100 1;
   ProcessCollector.mkInfo 1234 (lit "my proc") "R" 1000000 100].

Definition four_parsed : ProcessCollector.t :=
  ProcessCollector.mk []
    [ProcessCollector.mkInfo 1234 (lit "my proc") "R" 1000000 100;
     ProcessCollector.mkInfo 2 (lit "kthreadd") "R" 8192 50;
     ProcessCollector.mkInfo 1 (lit "init") "S" 4096 5;
     ProcessCollector.mkInfo 30 (lit "a (b) c") "S" 100 1]
    4 2.

(** Seven processes of resident sizes 1 to 7. *)
Definition seven_entries : list Kernel.dirent :=
  [dir "1"; dir "2"; dir "3"; dir "4"; dir "5"; dir "6"; dir "7"].

Definition seven_processes : Kernel.t :=
  Kernel.mk
    (lookup [("/proc/1/stat", "1 (a) " ++ stat_tail "S" "1" "3" ++ nl);
             ("/proc/2/stat", "2 (b) " ++ stat_tail "S" "1" "1" ++ nl);
             ("/proc/3/stat", "3 (c) " ++ stat_tail "R" "1" "7" ++ nl);
             ("/proc/4/stat", "4 (d) " ++ stat_tail "S" "1" "2" ++ nl);
             ("/proc/5/stat", "5 (e) " ++ stat_tail "S" "1" "6" ++ nl);
             ("/proc/6/stat", "6 (f) " ++ stat_tail "S" "1" "4" ++ nl);
             ("/proc/7/stat", "7 (g) " ++ stat_tail "S" "1" "5" ++ nl)])
    (Some seven_entries).

Definition seven_scanned : list ProcessCollector.ProcessInfo :=
  [ProcessCollector.mkInfo 1 (lit "a") "S" 1 3;
   ProcessCollector.mkInfo 2 (lit "b") "S" 1 1;
   ProcessCollector.mkInfo 3 (lit "c") "R" 1 7;
   ProcessCollector.mkInfo 4 (lit "d") "S" 1 2;
   ProcessCollector.mkInfo 5 (lit "e") "S" 1 6;
   ProcessCollector.mkInfo 6 (lit "f") "S" 1 4;
   ProcessCollector.mkInfo 7 (lit "g") "S" 1 5].


Definition good_loadavg_text : string := "0.50 0.40 0.30 2/150 12345" ++ nl.


Definition good_sources : Kernel.t :=
  Kernel.mk (lookup [("/proc/loadavg", good_loadavg_text);
                     ("/proc/uptime", "350735.47 234388.90" ++ nl);
                     ("/proc/stat", cpu_half_idle_text);
                     ("/proc/meminfo", mem_half_text);
                     ("/proc/diskstats", disk_text);
                     ("/proc/net/dev", net_text);
                     ("/proc/1234/stat", stat_my_proc ++ nl)])
            (Some [dir "."; dir ".."; dir "1234"; nondir "version"]).




End Samples.

(** ** [CollectorFactory.h] *)

Module CollectorFactory.
Import Main.

(** [CreatorFunc]: a function that makes a collector. *)
Definition CreatorFunc : Type := unit -> collector.

(** The factory is its vector [creators_], empty when constructed. *)
Definition t : Type := list CreatorFunc.
Definition instance : t := [].

Definition register_collector (creator : CreatorFunc) (f : t) : t := f ++ [creator].

Definition create_all (f : t) : list collector := map (fun creator => creator tt) f.

(** The six [REGISTER_COLLECTOR] lines of [Collectors.cpp]: each defines
    a registrar whose constructor registers [std::make_unique<T>]. *)
Definition registrars : list CreatorFunc :=
  [ fun _ => CSystem SystemCollector.init; fun _ => CCPU CPUCollector.init;
    fun _ => CMemory MemoryCollector.init; fun _ => CDisk DiskCollector.init;
    fun _ => CNetwork NetworkCollector.init; fun _ => CProcess ProcessCollector.init ].

(** The factory once the registrars, objects of one translation unit,
    have been constructed in the order of their definitions. *)
Definition registered : t :=
  fold_left (fun f creator => register_collector creator f) registrars instance.

End CollectorFactory.

(** ** The four logging members of [Logger.h] *)

Module LoggerCalls.
Import Logger.

Definition debug (msg : str) (lg : t) : t := log DEBUG msg lg.
Definition info (msg : str) (lg : t) : t := log INFO msg lg.
Definition warning (msg : str) (lg : t) : t := log WARNING msg lg.
Definition error (msg : str) (lg : t) : t := log ERROR msg lg.

(** The member a level selects. *)
Definition call (c : Level * str) (lg : t) : t :=
  match fst c with
  | DEBUG => debug (snd c) lg
  | INFO => info (snd c) lg
  | WARNING => warning (snd c) lg
  | ERROR => error (snd c) lg
  end.

(** A sequence of calls, first to last. *)
Definition calls (cs : list (Level * str)) (lg : t) : t :=
  fold_left (fun lg c => call c lg) cs lg.

End LoggerCalls.

(** ** Formatted output and the helpers of [Collectors.cpp] *)

Module Format.

(** [os << n] for an unsigned integer: its decimal digits. *)
Definition show_unsigned (n : Z) : str :=
  lit (DecimalString.NilZero.string_of_uint (N.to_uint (Z.to_N n))).

(** Zeros in front, up to [width] characters. *)
Definition pad_zeros (width : nat) (s : str) : str :=
  repeat "0"%char (width - length s) ++ s.

(** [os << std::fixed << std::setprecision(p) << x], for [p > 0]: the
    conversion [%.pf] of the C library, which rounds the exact value of
    [x] to [p] decimals, ties to even.  (A negative zero, which the
    rational denotation does not have, does not arise from the unsigned
    counts the helpers format.) *)
Definition show_fixed (p : nat) (x : double) : str :=
  let scale := 10 ^ Z.of_nat p in
  let n := round_half_even (Qabs.Qabs x * inject_Z scale) in
  (if Qlt_le_dec x 0 then ["-"%char] else [])
  ++ show_unsigned (n / scale) ++ "."%char :: pad_zeros p (show_unsigned (n mod scale)).

Definition format_bytes (bytes : Z) : str :=
  if bytes >=? 1024 * 1024 * 1024 then
    show_fixed 2 (ddiv (ddiv (ddiv (of_u64 bytes) 1024%Q) 1024%Q) 1024%Q) ++ lit " GB"
  else if bytes >=? 1024 * 1024 then
    show_fixed 2 (ddiv (ddiv (of_u64 bytes) 1024%Q) 1024%Q) ++ lit " MB"
  else if bytes >=? 1024 then
    show_fixed 2 (ddiv (of_u64 bytes) 1024%Q) ++ lit " KB"
  else show_unsigned bytes ++ lit " B".

Definition format_kb (kb : Z) : str :=
  if kb >=? 1024 * 1024 then
    show_fixed 2 (ddiv (ddiv (of_u64 kb) 1024%Q) 1024%Q) ++ lit " GB"
  else if kb >=? 1024 then
    show_fixed 2 (ddiv (of_u64 kb) 1024%Q) ++ lit " MB"
  else show_unsigned kb ++ lit " KB".

End Format.

(** ** The numbers [print_result] derives before it prints *)

Module Display.

(** [static_cast<int>(x)]: the value without its fraction; undefined
    when that is no [int]. *)
Definition to_int (x : double) : outcome Z :=
  let t := Z.quot (Qnum x) (Zpos (Qden x)) in
  if (t <? INT_MIN) || (t >? INT_MAX) then Undefined else Normal t.

(** The days, hours, minutes and seconds of the uptime line of
    [SystemCollector::print_result]; the days are printed when they are
    positive. *)
Definition uptime_fields (uptime_seconds_ : double) : outcome (Z * Z * Z * Z) :=
  days <- to_int (ddiv uptime_seconds_ 86400%Q) ;;
  t <- to_int uptime_seconds_ ;;
  let hours := Z.quot (Z.rem t 86400) 3600 in
  let minutes := Z.quot (Z.rem t 3600) 60 in
  let seconds := Z.rem t 60 in
  Normal (days, hours, minutes, seconds).

(** [rss_mb] of [ProcessCollector::print_result]: the resident pages
    times 4.0, divided by 1024.0. *)
Definition rss_mb (rss : Z) : double :=
  ddiv (dmul (rnd (inject_Z rss)) 4%Q) 1024%Q.

End Display.

(** ** Tokens and entries as the parsers see them *)

Module Tokens.

(** The first token of a line, as [ss >> key] leaves it: empty when the
    line holds no token. *)
Definition line_key (line : str) : str :=
  match fst (extract_string (open line)) with
  | Some key => key
  | None => []
  end.

(** The keys of a text, line by line. *)
Definition keys (content : str) : list str := map line_key (getlines content).

End Tokens.

Module Listing.
Import ProcessCollector.


End Listing.

(** ** What holds of the program between refreshes *)

Module Invariants.

(** What the logger holds while the program runs: the level set by
    [main], nothing on the standard output, and on the standard error
    only [ERROR] lines that report a failed open of one of the five
    logged paths. *)
Definition only_failed_opens (lg : Logger.t) : Prop :=
  Logger.current_level_ lg = Logger.WARNING /\
  Logger.cout lg = [] /\
  Forall (fun e => fst e = Logger.ERROR /\
                   In (snd e) (map cannot_open
                                 [CPU_PATH; MEMORY_PATH; DISK_PATH; NETWORK_PATH; PROC_PATH]))
         (Logger.cerr lg).

(** The five parsed fields of the memory collector are 64-bit values. *)
Definition memory_in_range (c : MemoryCollector.t) : Prop :=
  0 <= MemoryCollector.total_kb_ c < 2 ^ 64 /\
  0 <= MemoryCollector.free_kb_ c < 2 ^ 64 /\
  0 <= MemoryCollector.available_kb_ c < 2 ^ 64 /\
  0 <= MemoryCollector.buffers_kb_ c < 2 ^ 64 /\
  0 <= MemoryCollector.cached_kb_ c < 2 ^ 64.


End Invariants.

(** ** Sample runs *)

Module Runs.
Import Samples.

#[local] Open Scope string_scope.

(** The logger after the six collectors were refreshed from sources that
    cannot be opened. *)
Definition after_failures (lg : Logger.t) : Logger.t :=
  fold_left (fun lg path => LOG_ERROR (cannot_open path) lg)
            [CPU_PATH; MEMORY_PATH; DISK_PATH; NETWORK_PATH; PROC_PATH] lg.

(** The program started on unreadable sources, and after one timer event
    on them. *)
Definition started_blind : Main.process :=
  Main.mkProcess (after_failures logger0) Main.create_all [].

Definition ticked_blind : Main.process :=
  Main.mkProcess (after_failures (after_failures logger0)) Main.create_all
                 (map Main.print_result Main.create_all).

(** Seven busy ticks, none idle. *)
Definition cpu_busy_text : string := "cpu  7 0 0 0 0 0 0 0 0 0" ++ nl.
Definition cpu_busy : Kernel.t := only CPU_PATH cpu_busy_text.

(** The memory text of a kernel that does not report [MemAvailable]. *)
Definition mem_old_kernel_text : string :=
  "MemTotal:       4000 kB" ++ nl ++ "MemFree:        1000 kB" ++ nl ++
  "Buffers:        200 kB" ++ nl ++ "Cached:         800 kB" ++ nl.
Definition mem_old_kernel : Kernel.t := only MEMORY_PATH mem_old_kernel_text.

(** The collector that holds the seven processes sorted. *)
Definition seven_parsed : ProcessCollector.t :=
  ProcessCollector.mk []
    [ProcessCollector.mkInfo 3 (lit "c") "R" 1 7;
     ProcessCollector.mkInfo 5 (lit "e") "S" 1 6;
     ProcessCollector.mkInfo 7 (lit "g") "S" 1 5;
     ProcessCollector.mkInfo 6 (lit "f") "S" 1 4;
     ProcessCollector.mkInfo 1 (lit "a") "S" 1 3;
     ProcessCollector.mkInfo 4 (lit "d") "S" 1 2;
     ProcessCollector.mkInfo 2 (lit "b") "S" 1 1]
    7 1.

(** An uptime text with no number in it, and an empty load line. *)
Definition odd_uptime_text : string := "unknown" ++ nl.
Definition odd_uptime : Kernel.t :=
  Kernel.mk (lookup [("/proc/uptime", odd_uptime_text); ("/proc/loadavg", nl)]) None.

(** A blank uptime text, and a load line whose task token has no slash. *)
Definition no_slash_text : string := "0.50 0.40 0.30 2 12345" ++ nl.
Definition blank_uptime : Kernel.t :=
  Kernel.mk (lookup [("/proc/uptime", " " ++ nl); ("/proc/loadavg", no_slash_text)]) None.

(** The system collector after a refresh. *)
Definition sys_after (k : Kernel.t) (c : SystemCollector.t) : SystemCollector.t :=
  match SystemCollector.update k logger0 c with
  | Normal r => fst r
  | _ => c
  end.

(** The logger after a refresh in which only the CPU source opens. *)
Definition after_failures_but_cpu (lg : Logger.t) : Logger.t :=
  fold_left (fun lg path => LOG_ERROR (cannot_open path) lg)
            [MEMORY_PATH; DISK_PATH; NETWORK_PATH; PROC_PATH] lg.

Definition six (c : CPUCollector.t) : list Main.collector :=
  [ Main.CSystem SystemCollector.init; Main.CCPU c;
    Main.CMemory MemoryCollector.init; Main.CDisk DiskCollector.init;
    Main.CNetwork NetworkCollector.init; Main.CProcess ProcessCollector.init ].

(** The program started where only the CPU source opens, and after one
    timer event on a later state of that source. *)
Definition started_cpu_only : Main.process :=
  Main.mkProcess (after_failures_but_cpu logger0)
                 (six (cpu_after cpu_half_idle CPUCollector.init)) [].

Definition ticked_cpu_only : Main.process :=
  Main.mkProcess
    (after_failures_but_cpu (after_failures_but_cpu logger0))
    (six (cpu_after cpu_later (cpu_after cpu_half_idle CPUCollector.init)))
    (map Main.print_result
         (six (cpu_after cpu_later (cpu_after cpu_half_idle CPUCollector.init)))).

(** The same program after one timer event on the state of the source it
    started on. *)
Definition ticked_cpu_same : Main.process :=
  Main.mkProcess
    (after_failures_but_cpu (after_failures_but_cpu logger0))
    (six (cpu_after cpu_half_idle (cpu_after cpu_half_idle CPUCollector.init)))
    (map Main.print_result
         (six (cpu_after cpu_half_idle (cpu_after cpu_half_idle CPUCollector.init)))).

(** The disk collector after a refresh from the sample text, and one
    that holds a device of an earlier refresh. *)
Definition disk_parsed : DiskCollector.t :=
  DiskCollector.mk (lit disk_text)
    [DiskCollector.mkStats (lit "sda") 100 200 3000 4000;
     DiskCollector.mkStats (lit "nvme0n1") 5 6 70 80].

Definition disk_stale : DiskCollector.t :=
  DiskCollector.mk [] [DiskCollector.mkStats (lit "sdz") 1 2 3 4].

End Runs.

(** ** Locals that an extraction statement may leave unwritten *)

Module Written.










End Written.

(** ** Malformed kernel texts *)

Module Malformed.
Import Samples.

#[local] Open Scope string_scope.





End Malformed.

(* ================================================================== *)
(** * Part II: properties                                              *)
(* ================================================================== *)

(** ** Facts on binary64 rounding *)

Module Binary64Facts.

Lemma pow2_pos e : (0 < 2 ^ e)%Q.
Proof. apply Qpower_0_lt. reflexivity. Qed.

Lemma pow2_add a b : (2 ^ (a + b) == 2 ^ a * 2 ^ b)%Q.
Proof. apply Qpower_plus. discriminate. Qed.

Lemma pow2_le a b : a <= b -> (2 ^ a <= 2 ^ b)%Q.
Proof. intros; apply Qpower_le_compat_l; [lia | discriminate]. Qed.

Lemma pow2_Z n : 0 <= n -> (inject_Z (2 ^ n) == 2 ^ n)%Q.
Proof. intros; now rewrite Zpower_Qpower. Qed.

Lemma pow2_succ a : (2 ^ (a + 1) == 2 * 2 ^ a)%Q.
Proof. rewrite pow2_add. change (2 ^ 1)%Q with 2%Q. ring. Qed.

Lemma Q_as_fraction (q : Q) :
  (q * inject_Z (Zpos (Qden q)) == inject_Z (Qnum q))%Q.
Proof. destruct q as [n d]; unfold Qeq, Qmult, inject_Z; simpl. lia. Qed.

Lemma inject_Z_lt a b : (a < b)%Z -> (inject_Z a < inject_Z b)%Q.
Proof. now rewrite <- Zlt_Qlt. Qed.

Lemma inject_Z_le a b : (a <= b)%Z -> (inject_Z a <= inject_Z b)%Q.
Proof. now rewrite <- Zle_Qle. Qed.

(** The quotient of the two bit lengths is within one of the binade. *)
Lemma binade_candidates (q : Q) :
  (0 < q)%Q ->
  let k := Z.log2 (Qnum q) - Z.log2 (Zpos (Qden q)) in
  (2 ^ (k - 1) < q /\ q < 2 ^ (k + 1))%Q.
Proof.
  intros Hq k.
  assert (Hn : 0 < Qnum q).
  { destruct q as [n d]; unfold Qlt in Hq; simpl in *; lia. }
  set (n := Qnum q) in *. set (d := Zpos (Qden q)) in *.
  assert (Hd : 0 < d) by (unfold d; lia).
  pose proof (Q_as_fraction q) as Hf. fold n d in Hf.
  destruct (Z.log2_spec n Hn) as [Hn1 Hn2].
  destruct (Z.log2_spec d Hd) as [Hd1 Hd2].
  set (a := Z.log2 n) in *. set (b := Z.log2 d) in *.
  assert (Ha : 0 <= a) by apply Z.log2_nonneg.
  assert (Hb : 0 <= b) by apply Z.log2_nonneg.
  apply inject_Z_le in Hn1, Hd1. apply inject_Z_lt in Hn2, Hd2.
  rewrite <- Z.add_1_r in Hn2, Hd2.
  rewrite pow2_Z in Hn1, Hn2, Hd1, Hd2 by lia.
  pose proof (pow2_pos b) as Pb. pose proof (pow2_pos (b + 1)) as Pb1.
  split.
  - apply (Qmult_lt_r _ _ (2 ^ (b + 1))); [exact Pb1|].
    rewrite <- pow2_add. replace (k - 1 + (b + 1)) with a by (unfold k; lia).
    apply Qle_lt_trans with (inject_Z n); [exact Hn1|].
    rewrite <- Hf. apply Qmult_lt_l; assumption.
  - apply (Qmult_lt_r _ _ (2 ^ b)); [exact Pb|].
    rewrite <- pow2_add. replace (k + 1 + b) with (a + 1) by (unfold k; lia).
    apply Qle_lt_trans with (inject_Z n); [|exact Hn2].
    rewrite <- Hf. apply Qmult_le_l; assumption.
Qed.

Lemma binade_spec (q : Q) :
  (0 < q)%Q -> (2 ^ binade q <= q /\ q < 2 ^ (binade q + 1))%Q.
Proof.
  intros Hq. destruct (binade_candidates q Hq) as [H1 H2].
  unfold binade.
  set (k := Z.log2 (Qnum q) - Z.log2 (Zpos (Qden q))) in *.
  destruct (Qle_bool (2 ^ k) q) eqn:E.
  - apply Qle_bool_iff in E. split; assumption.
  - split; [apply Qlt_le_weak; exact H1|].
    replace (k - 1 + 1) with k by lia.
    apply Qnot_le_lt. intro H. apply Qle_bool_iff in H. congruence.
Qed.

Lemma binade_unique (q : Q) (e : Z) :
  (2 ^ e <= q)%Q -> (q < 2 ^ (e + 1))%Q -> binade q = e.
Proof.
  intros H1 H2.
  assert (Hq : (0 < q)%Q) by (eapply Qlt_le_trans; [apply pow2_pos | exact H1]).
  destruct (binade_spec q Hq) as [B1 B2].
  destruct (Z.lt_trichotomy (binade q) e) as [L | [L | L]];
    [exfalso | exact L | exfalso].
  - assert ((2 ^ (binade q + 1) <= 2 ^ e)%Q) by (apply pow2_le; lia). lra.
  - assert ((2 ^ (e + 1) <= 2 ^ binade q)%Q) by (apply pow2_le; lia). lra.
Qed.

Lemma binade_le (q1 q2 : Q) :
  (0 < q1)%Q -> (q1 <= q2)%Q -> binade q1 <= binade q2.
Proof.
  intros H0 H.
  destruct (binade_spec q1 H0) as [A1 A2].
  destruct (binade_spec q2) as [B1 B2]; [lra|].
  destruct (Z.le_gt_cases (binade q1) (binade q2)) as [L | L]; [exact L | exfalso].
  assert ((2 ^ (binade q2 + 1) <= 2 ^ binade q1)%Q) by (apply pow2_le; lia). lra.
Qed.

Lemma binade_comp (x y : Q) : (0 < x)%Q -> (x == y)%Q -> binade x = binade y.
Proof.
  intros Hx E. symmetry. destruct (binade_spec x Hx) as [A1 A2].
  apply binade_unique; lra.
Qed.

Lemma binade_Z (z : Z) : 0 < z -> binade (inject_Z z) = Z.log2 z.
Proof.
  intros Hz. destruct (Z.log2_spec z Hz) as [L1 L2].
  pose proof (Z.log2_nonneg z).
  apply binade_unique.
  - rewrite <- pow2_Z by lia. apply inject_Z_le, L1.
  - rewrite <- pow2_Z by lia. apply inject_Z_lt. rewrite Z.add_1_r. exact L2.
Qed.

(** *** Rounding to the nearest integer *)

Lemma rhe_floor_or_succ (x : Q) :
  round_half_even x = Qfloor x \/ round_half_even x = Qfloor x + 1.
Proof.
  unfold round_half_even. destruct (Qcompare _ _); [destruct (Z.even _)|..]; auto.
Qed.

Lemma rhe_Z (z : Z) : round_half_even (inject_Z z) = z.
Proof.
  unfold round_half_even. rewrite Qfloor_Z.
  destruct (Qcompare_spec (inject_Z z - inject_Z z) (1 # 2)) as [H | H | H]; try lra.
  reflexivity.
Qed.

Lemma rhe_comp (x y : Q) : (x == y)%Q -> round_half_even x = round_half_even y.
Proof.
  intros E. unfold round_half_even. rewrite (Qfloor_comp _ _ E).
  assert (C : Qcompare (x - inject_Z (Qfloor y)) (1 # 2)
              = Qcompare (y - inject_Z (Qfloor y)) (1 # 2)).
  { apply Qcompare_comp; [rewrite E|]; reflexivity. }
  now rewrite C.
Qed.

Lemma rhe_error (x : Q) : (inject_Z (round_half_even x) - x <= 1 # 2)%Q.
Proof.
  pose proof (Qfloor_le x) as F1. pose proof (Qlt_floor x) as F2.
  rewrite inject_Z_plus in F2. change (inject_Z 1) with 1%Q in F2.
  unfold round_half_even.
  destruct (Qcompare_spec (x - inject_Z (Qfloor x)) (1 # 2)) as [H | H | H].
  - destruct (Z.even _); [|rewrite inject_Z_plus; change (inject_Z 1) with 1%Q]; lra.
  - lra.
  - rewrite inject_Z_plus; change (inject_Z 1) with 1%Q; lra.
Qed.

Lemma rhe_le_Z (x : Q) (b : Z) : (x <= inject_Z b)%Q -> round_half_even x <= b.
Proof.
  intros H.
  pose proof (Qfloor_resp_le _ _ H) as F. rewrite Qfloor_Z in F.
  destruct (Z.eq_dec (Qfloor x) b) as [E | N].
  - unfold round_half_even. rewrite E.
    pose proof (Qfloor_le x) as F1. rewrite E in F1.
    destruct (Qcompare_spec (x - inject_Z b) (1 # 2)) as [C | C | C];
      try lra; try lia.
  - destruct (rhe_floor_or_succ x) as [R | R]; lia.
Qed.

Lemma rhe_ge_Z (x : Q) (a : Z) : (inject_Z a <= x)%Q -> a <= round_half_even x.
Proof.
  intros H.
  pose proof (Qfloor_resp_le _ _ H) as F. rewrite Qfloor_Z in F.
  destruct (rhe_floor_or_succ x) as [R | R]; lia.
Qed.

Lemma rhe_mono (x y : Q) : (x <= y)%Q -> round_half_even x <= round_half_even y.
Proof.
  intros H.
  pose proof (Qfloor_resp_le _ _ H) as F.
  destruct (Z.eq_dec (Qfloor x) (Qfloor y)) as [E | N].
  - unfold round_half_even. rewrite E.
    destruct (Qcompare_spec (x - inject_Z (Qfloor y)) (1 # 2)) as [C | C | C];
    destruct (Qcompare_spec (y - inject_Z (Qfloor y)) (1 # 2)) as [D | D | D];
    try lra; try lia; destruct (Z.even (Qfloor y)); lia.
  - destruct (rhe_floor_or_succ x) as [R | R];
    pose proof (rhe_ge_Z y (Qfloor y) (Qfloor_le y)); lia.
Qed.

(** *** Rounding to 53 bits *)

Lemma scaled_range (q : Q) :
  (0 < q)%Q ->
  (inject_Z (2 ^ 52) <= q / 2 ^ (binade q - 52) /\
   q / 2 ^ (binade q - 52) < inject_Z (2 ^ 53))%Q.
Proof.
  intros Hq. destruct (binade_spec q Hq) as [B1 B2].
  pose proof (pow2_pos (binade q - 52)) as Pu.
  rewrite !pow2_Z by lia.
  split.
  - apply Qle_shift_div_l; [exact Pu|].
    rewrite <- pow2_add. replace (52 + (binade q - 52)) with (binade q) by lia.
    exact B1.
  - apply Qlt_shift_div_r; [exact Pu|].
    rewrite <- pow2_add. replace (53 + (binade q - 52)) with (binade q + 1) by lia.
    exact B2.
Qed.

Lemma rnd_pos_eq (q : Q) :
  (rnd_pos q ==
   inject_Z (round_half_even (q / 2 ^ (binade q - 52))) * 2 ^ (binade q - 52))%Q.
Proof. unfold rnd_pos. apply Qred_correct. Qed.

(** A rounded value stays in the closed binade of its argument. *)
Lemma rnd_pos_bounds (q : Q) :
  (0 < q)%Q -> (2 ^ binade q <= rnd_pos q /\ rnd_pos q <= 2 ^ (binade q + 1))%Q.
Proof.
  intros Hq. destruct (scaled_range q Hq) as [S1 S2].
  pose proof (pow2_pos (binade q - 52)) as Pu.
  apply rhe_ge_Z in S1. apply Qlt_le_weak, rhe_le_Z in S2.
  apply inject_Z_le in S1, S2. rewrite pow2_Z in S1, S2 by lia.
  rewrite rnd_pos_eq.
  set (m := inject_Z (round_half_even _)) in *.
  split.
  - replace (binade q) with (52 + (binade q - 52)) at 1 by lia. rewrite pow2_add.
    apply Qmult_le_compat_r; [exact S1 | lra].
  - replace (binade q + 1) with (53 + (binade q - 52)) by lia. rewrite pow2_add.
    apply Qmult_le_compat_r; [exact S2 | lra].
Qed.

Lemma rnd_pos_mono (q1 q2 : Q) :
  (0 < q1)%Q -> (q1 <= q2)%Q -> (rnd_pos q1 <= rnd_pos q2)%Q.
Proof.
  intros H0 H.
  assert (H2 : (0 < q2)%Q) by lra.
  pose proof (binade_le q1 q2 H0 H) as Le.
  destruct (Z.eq_dec (binade q1) (binade q2)) as [E | N].
  - rewrite !rnd_pos_eq, E.
    pose proof (pow2_pos (binade q2 - 52)) as Pu.
    apply Qmult_le_compat_r; [|lra].
    apply inject_Z_le, rhe_mono.
    apply Qmult_le_compat_r; [exact H|]. apply Qlt_le_weak, Qinv_lt_0_compat, Pu.
  - destruct (rnd_pos_bounds q1 H0) as [_ U]. destruct (rnd_pos_bounds q2 H2) as [L _].
    assert ((2 ^ (binade q1 + 1) <= 2 ^ binade q2)%Q) by (apply pow2_le; lia). lra.
Qed.

Lemma rnd_pos_comp (x y : Q) : (0 < x)%Q -> (x == y)%Q -> rnd_pos x = rnd_pos y.
Proof.
  intros Hx E. unfold rnd_pos. apply Qred_complete.
  rewrite <- (binade_comp x y Hx E).
  generalize (2 ^ (binade x - 52))%Q; intro u.
  rewrite (rhe_comp (x / u) (y / u)); [reflexivity | now rewrite E].
Qed.

(** The relative error of one rounding is at most [2^-53]. *)
Lemma rnd_pos_error (q : Q) :
  (0 < q)%Q -> (rnd_pos q <= q * (1 + 2 ^ (-53)))%Q.
Proof.
  intros Hq. destruct (binade_spec q Hq) as [B1 _].
  pose proof (pow2_pos (binade q - 52)) as Pu.
  pose proof (rhe_error (q / 2 ^ (binade q - 52))) as E1.
  rewrite rnd_pos_eq.
  set (u := (2 ^ (binade q - 52))%Q) in *.
  set (m := inject_Z (round_half_even (q / u))) in *.
  assert (Hm : (m * u <= q + (1 # 2) * u)%Q).
  { assert (X : (m * u - q == (m - q / u) * u)%Q) by (field; lra).
    assert ((m - q / u) * u <= (1 # 2) * u)%Q by (apply Qmult_le_compat_r; lra).
    lra. }
  assert (Hu : ((1 # 2) * u <= q * 2 ^ (-53))%Q).
  { assert (X : ((1 # 2) * u == 2 ^ binade q * 2 ^ (-53))%Q).
    { unfold u. rewrite <- pow2_add.
      replace (binade q - 52) with ((binade q + -53) + 1) by lia.
      rewrite pow2_succ. field. }
    rewrite X. apply Qmult_le_compat_r; [exact B1 | apply Qlt_le_weak, pow2_pos]. }
  lra.
Qed.

Lemma rnd_pos_case (q : Q) : (0 < q)%Q -> rnd q = rnd_pos q.
Proof.
  intros H. unfold rnd.
  destruct (Qcompare_spec q 0) as [C | C | C]; try lra. reflexivity.
Qed.

Lemma rnd_zero_case (q : Q) : (q == 0)%Q -> rnd q = 0%Q.
Proof. intros H. unfold rnd. apply Qeq_alt in H. now rewrite H. Qed.

Lemma rnd_nonneg (q : Q) : (0 <= q)%Q -> (0 <= rnd q)%Q.
Proof.
  intros H. destruct (Qlt_le_dec 0 q) as [P | P].
  - rewrite rnd_pos_case by exact P.
    destruct (rnd_pos_bounds q P) as [L _]. pose proof (pow2_pos (binade q)). lra.
  - rewrite rnd_zero_case by lra. lra.
Qed.

Lemma rnd_mono (q1 q2 : Q) : (0 <= q1)%Q -> (q1 <= q2)%Q -> (rnd q1 <= rnd q2)%Q.
Proof.
  intros H0 H. destruct (Qlt_le_dec 0 q1) as [P | P].
  - rewrite !rnd_pos_case by lra. apply rnd_pos_mono; assumption.
  - rewrite (rnd_zero_case q1) by lra. apply rnd_nonneg. lra.
Qed.

Lemma rnd_comp (x y : Q) : (x == y)%Q -> rnd x = rnd y.
Proof.
  intros E. unfold rnd. rewrite (Qcompare_comp x y E 0%Q 0%Q (Qeq_refl 0%Q)).
  destruct (Qcompare_spec y 0) as [C | C | C].
  - reflexivity.
  - f_equal. f_equal. apply rnd_pos_comp; lra.
  - apply rnd_pos_comp; lra.
Qed.

Lemma rnd_error (q : Q) : (0 <= q)%Q -> (rnd q <= q * (1 + 2 ^ (-53)))%Q.
Proof.
  intros H. destruct (Qlt_le_dec 0 q) as [P | P].
  - rewrite rnd_pos_case by exact P. apply rnd_pos_error, P.
  - rewrite rnd_zero_case by lra. pose proof (pow2_pos (-53)). nra.
Qed.

(** Integers of at most 53 bits are binary64 numbers. *)
Lemma rnd_Z_exact (z : Z) : 0 <= z <= 2 ^ 53 -> rnd (inject_Z z) = inject_Z z.
Proof.
  intros [H0 H1].
  destruct (Z.eq_dec z 0) as [-> | N]; [reflexivity|].
  destruct (Z.eq_dec z (2 ^ 53)) as [-> | N']; [vm_compute; reflexivity|].
  assert (Hz : 0 < z) by lia.
  rewrite rnd_pos_case by (apply (inject_Z_lt 0 z); lia).
  unfold rnd_pos. rewrite binade_Z by exact Hz.
  assert (Hl : Z.log2 z < 53) by (apply Z.log2_lt_pow2; lia).
  pose proof (Z.log2_nonneg z) as Hl0.
  set (k := 52 - Z.log2 z).
  replace (Z.log2 z - 52) with (- k) by (unfold k; lia).
  assert (Hk : 0 <= k) by (unfold k; lia).
  pose proof (pow2_pos k) as Pk.
  assert (S : (inject_Z z / 2 ^ (- k) == inject_Z (z * 2 ^ k))%Q).
  { rewrite Qpower_opp, inject_Z_mult, pow2_Z by exact Hk. field. lra. }
  rewrite (rhe_comp _ _ S), rhe_Z.
  rewrite <- (Qcanon.Qred_identity (inject_Z z)) by (simpl; apply Z.gcd_1_r).
  apply Qred_complete.
  rewrite Qpower_opp, inject_Z_mult, pow2_Z by exact Hk. field. lra.
Qed.

Lemma of_u64_exact (z : Z) : 0 <= z <= 2 ^ 53 -> of_u64 z = inject_Z z.
Proof. apply rnd_Z_exact. Qed.

Lemma of_u64_mono (x y : Z) : 0 <= x <= y -> (of_u64 x <= of_u64 y)%Q.
Proof.
  intros [H0 H]. apply rnd_mono; [apply (inject_Z_le 0 x) | apply inject_Z_le]; lia.
Qed.

Lemma of_u64_ge_1 (x : Z) : 1 <= x -> (1 <= of_u64 x)%Q.
Proof.
  intros H. change 1%Q with (of_u64 1). apply of_u64_mono. lia.
Qed.

(** The model agrees with the reference semantics of the Standard Library
    on the operands of the examples below. *)
Example rnd_agrees_with_SpecFloat :
  let T := 5764607523034237 in
  SF2Q (sf_div (sf_mul (sf_of_Z 100) (sf_of_Z T)) (sf_of_Z T))
  = Some (ddiv (dmul 100%Q (of_u64 T)) (of_u64 T)) /\
  SF2Q (sf_div (sf_mul (sf_of_Z 100) (sf_of_Z 1)) (sf_of_Z 3))
  = Some (ddiv (dmul 100%Q (of_u64 1)) (of_u64 3)) /\
  SF2Q (sf_of_Z (2 ^ 64 - 1)) = Some (of_u64 (2 ^ 64 - 1)) /\
  SF2Q (sf_of_Z (2 ^ 53 + 3)) = Some (of_u64 (2 ^ 53 + 3)) /\
  SF2Q (sf_div (sf_mul (sf_of_Z 100) (sf_of_Z (2 ^ 63))) (sf_of_Z 1))
  = Some (ddiv (dmul 100%Q (of_u64 (2 ^ 63))) (of_u64 1)).
Proof. vm_compute. repeat split. Qed.

End Binary64Facts.

Import Binary64Facts.

Module StreamFacts.

Lemma digit_val_nonneg c : isdigit c = true -> 0 <= digit_val c <= 9.
Proof.
  unfold isdigit, digit_val. intros H.
  apply andb_true_iff in H. destruct H as [H1 H2].
  apply N.leb_le in H1, H2. lia.
Qed.

Lemma take_while_all p s : forallb p (take_while p s) = true.
Proof.
  induction s as [|c s IH]; simpl; [reflexivity|].
  destruct (p c) eqn:E; simpl; [rewrite E, IH|]; reflexivity.
Qed.

Lemma digits_val_acc_nonneg ds : forall acc,
  forallb isdigit ds = true -> 0 <= acc ->
  0 <= fold_left (fun a c => 10 * a + digit_val c) ds acc.
Proof.
  induction ds as [|c ds IH]; cbn [fold_left forallb]; intros acc H Hacc; [exact Hacc|].
  apply andb_true_iff in H. destruct H as [Hc Hds].
  apply IH; [exact Hds|]. pose proof (digit_val_nonneg c Hc). lia.
Qed.

Lemma digits_val_nonneg s : 0 <= digits_val (take_while isdigit s).
Proof.
  unfold digits_val. apply digits_val_acc_nonneg; [apply take_while_all | lia].
Qed.

(** An unsigned extraction writes a value of the type. *)
Lemma extract_unsigned_range bits s v s' :
  0 < bits -> extract_int false bits s = (Some v, s') -> 0 <= v < 2 ^ bits.
Proof.
  intros Hb. unfold extract_int.
  assert (P : 0 < 2 ^ bits) by (apply Z.pow_pos_nonneg; lia).
  destruct (sentry s) as [[c b]|]; [|discriminate].
  set (sgn := if Ascii.eqb c "-" then (true, b)
              else if Ascii.eqb c "+" then (false, b) else (false, c :: b)).
  destruct sgn as [neg b1].
  pose proof (digits_val_nonneg b1) as Hn.
  destruct (take_while isdigit b1) as [|d ds] eqn:E.
  - intros H; inversion H; subst. lia.
  - simpl andb. cbv iota.
    destruct (digits_val (d :: ds) >? 2 ^ bits - 1) eqn:G.
    + intros H; inversion H; subst. lia.
    + rewrite Z.gtb_ltb in G. apply Z.ltb_ge in G.
      destruct neg; intros H; inversion H; subst.
      * unfold wrap. apply Z.mod_pos_bound. exact P.
      * lia.
Qed.

Lemma extract_u64_range s v s' :
  extract_u64 s = (Some v, s') -> 0 <= v < 2 ^ 64.
Proof. apply extract_unsigned_range. lia. Qed.

End StreamFacts.

(** ** The CPU collector *)

Module CPUFacts.
Import CPUCollector StreamFacts.

Lemma cpu_update_eq k lg c :
  update k lg c =
  (c2 <- do_parse (fst (do_collect k lg c)) ;;
   Normal (do_calculate c2, snd (do_collect k lg c))).
Proof.
  unfold update, Collector.update. simpl.
  destruct (do_collect k lg c) as [c1 lg1]. simpl.
  destruct (do_parse c1); reflexivity.
Qed.

Lemma cpu_do_parse_usage c c' : do_parse c = Normal c' -> usage_percent_ c' = usage_percent_ c.
Proof.
  unfold do_parse. destruct (raw_data_ c).
  - intros H; inversion H; reflexivity.
  - destruct (extract_counters _); simpl; intros H; inversion H; reflexivity.
Qed.

Lemma cpu_do_collect_usage k lg c :
  usage_percent_ (fst (do_collect k lg c)) = usage_percent_ c.
Proof. unfold do_collect. destruct (file k CPU_PATH); reflexivity. Qed.

Lemma do_calculate_diff c : total_diff (do_calculate c) = total_diff c.
Proof. unfold do_calculate. destruct (total_diff c >? 0); reflexivity. Qed.

Lemma do_calculate_kept c :
  total_diff c <= 0 -> usage_percent_ (do_calculate c) = usage_percent_ c.
Proof.
  intros H. unfold do_calculate.
  destruct (total_diff c >? 0) eqn:E; [|reflexivity].
  rewrite Z.gtb_ltb in E. apply Z.ltb_lt in E. lia.
Qed.

Lemma total_diff_nonneg c : 0 <= total_diff c.
Proof. unfold total_diff, wrap. apply Z.mod_pos_bound. lia. Qed.

(** The counters read from a line are 64-bit values. *)
Lemma counters_range raw s :
  extract_counters raw = Normal s ->
  (0 <= user s < 2 ^ 64 /\ 0 <= nice s < 2 ^ 64 /\ 0 <= system s < 2 ^ 64 /\
   0 <= idle s < 2 ^ 64) /\
  (0 <= iowait s < 2 ^ 64 /\ 0 <= irq s < 2 ^ 64 /\ 0 <= softirq s < 2 ^ 64 /\
   0 <= steal s < 2 ^ 64).
Proof.
  unfold extract_counters.
  destruct (extract_string (open raw)) as [l s0].
  destruct (extract_u64 s0) as [a1 s1] eqn:E1.
  destruct (extract_u64 s1) as [a2 s2] eqn:E2.
  destruct (extract_u64 s2) as [a3 s3] eqn:E3.
  destruct (extract_u64 s3) as [a4 s4] eqn:E4.
  destruct (extract_u64 s4) as [a5 s5] eqn:E5.
  destruct (extract_u64 s5) as [a6 s6] eqn:E6.
  destruct (extract_u64 s6) as [a7 s7] eqn:E7.
  destruct (extract_u64 s7) as [a8 s8] eqn:E8.
  destruct a1; [|discriminate]. destruct a2; [|discriminate].
  destruct a3; [|discriminate]. destruct a4; [|discriminate].
  destruct a5; [|discriminate]. destruct a6; [|discriminate].
  destruct a7; [|discriminate]. destruct a8; [|discriminate].
  simpl. intros H; inversion H; subst; simpl.
  apply extract_u64_range in E1, E2, E3, E4, E5, E6, E7, E8. tauto.
Qed.

Lemma extract_counters_nonempty raw s : extract_counters raw = Normal s -> raw <> [].
Proof. intros H E. subst. vm_compute in H. discriminate H. Qed.

(** A refresh from a readable source whose first line holds the eight
    counters. *)
Lemma update_readable k lg c content s :
  file k CPU_PATH = Some content ->
  extract_counters (first_line content) = Normal s ->
  update k lg c =
  Normal (do_calculate (mk (first_line content) (curr_idle_ c) (curr_total_ c)
                           (idle_ticks s) (total_ticks s) (usage_percent_ c)), lg).
Proof.
  intros Hf Hs. rewrite cpu_update_eq. unfold do_collect. rewrite Hf. simpl.
  unfold do_parse, set_raw. simpl.
  pose proof (extract_counters_nonempty _ _ Hs) as Hne.
  destruct (first_line content) as [|ch r] eqn:E; [congruence|].
  rewrite Hs. reflexivity.
Qed.

(** The percentage computed from a numerator [x] and a denominator [t]. *)
Lemma percentage_bounds (x t : Z) :
  0 <= x <= t -> 1 <= t ->
  let u := ddiv (dmul 100%Q (of_u64 x)) (of_u64 t) in
  (0 <= u)%Q /\ (u <= 100 + 2 ^ (-46))%Q /\ (100 * t <= 2 ^ 53 -> (u <= 100)%Q).
Proof.
  intros Hx Ht u.
  assert (HX0 : (0 <= of_u64 x)%Q) by (apply rnd_nonneg, (inject_Z_le 0 x); lia).
  assert (HXT : (of_u64 x <= of_u64 t)%Q) by (apply of_u64_mono; lia).
  assert (HT1 : (1 <= of_u64 t)%Q) by (apply of_u64_ge_1; lia).
  assert (HP0 : (0 <= dmul 100 (of_u64 x))%Q) by (apply rnd_nonneg; lra).
  assert (HQ0 : (0 <= dmul 100 (of_u64 x) / of_u64 t)%Q).
  { apply Qle_shift_div_l; lra. }
  split; [apply rnd_nonneg, HQ0|]. split.
  - assert (HP : (dmul 100 (of_u64 x) <= 100 * of_u64 t * (1 + 2 ^ (-53)))%Q).
    { apply Qle_trans with (rnd (100 * of_u64 t)).
      - apply rnd_mono; lra.
      - apply rnd_error. lra. }
    assert (HQ : (dmul 100 (of_u64 x) / of_u64 t <= 100 * (1 + 2 ^ (-53)))%Q).
    { apply Qle_shift_div_r; [lra|]. lra. }
    apply Qle_trans with (rnd (100 * (1 + 2 ^ (-53)))).
    + apply rnd_mono; assumption.
    + vm_compute. discriminate.
  - intros Hs. unfold u.
    rewrite (of_u64_exact x), (of_u64_exact t) by lia.
    unfold dmul. rewrite (rnd_comp (100 * inject_Z x) (inject_Z (100 * x)))
      by (rewrite inject_Z_mult; reflexivity).
    rewrite rnd_Z_exact by lia.
    unfold ddiv. apply Qle_trans with (rnd 100); [|vm_compute; discriminate].
    apply rnd_mono.
    + apply Qle_shift_div_l; [apply (inject_Z_lt 0 t); lia|].
      rewrite Qmult_0_l. apply (inject_Z_le 0 (100 * x)). lia.
    + apply Qle_shift_div_r; [apply (inject_Z_lt 0 t); lia|].
      change 100%Q with (inject_Z 100). rewrite <- inject_Z_mult.
      apply inject_Z_le. lia.
Qed.

End CPUFacts.

Module CPUClaims.
Import CPUCollector CPUFacts Samples.

(** C1 (amended).  The difference of the two stored totals is computed in
    unsigned 64-bit arithmetic, so it is never negative; whenever it is 0
    (no elapsed ticks, or a sample read again), a refresh of the CPU
    collector leaves the usage percentage at its last value, which is 0
    when the refresh starts from the initial state.  The first sample is
    compared with a previous generation of zeros: its difference is its
    total, and with a non-zero total the percentage is that of the busy
    ticks since boot. *)
Theorem C1_usage_kept_when_total_unchanged :
  (forall k lg c c' lg',
     update k lg c = Normal (c', lg') ->
     total_diff c' <= 0 ->
     usage_percent_ c' = usage_percent_ c /\
     (c = init -> usage_percent_ c' = 0%Q)) /\
  (forall k lg content s,
     file k CPU_PATH = Some content ->
     extract_counters (first_line content) = Normal s ->
     exists c',
       update k lg init = Normal (c', lg) /\
       total_diff c' = total_ticks s /\
       (0 < total_ticks s ->
        usage_percent_ c'
        = ddiv (dmul 100%Q (of_u64 (wrap 64 (total_ticks s - idle_ticks s))))
               (of_u64 (total_ticks s)))).
Proof.
  split.
  - intros k lg c c' lg' Hu Hd.
    assert (E : usage_percent_ c' = usage_percent_ c).
    { rewrite cpu_update_eq in Hu.
      destruct (do_parse (fst (do_collect k lg c))) as [c2| |] eqn:P; try discriminate.
      simpl in Hu. inversion Hu; subst.
      rewrite do_calculate_diff in Hd.
      rewrite (do_calculate_kept _ Hd), (cpu_do_parse_usage _ _ P).
      apply cpu_do_collect_usage. }
    split; [exact E|]. intros ->. exact E.
  - intros k lg content s Hf Hs.
    rewrite (update_readable k lg init content s Hf Hs).
    eexists. split; [reflexivity|].
    assert (W : forall x, wrap 64 (wrap 64 x - 0) = wrap 64 x).
    { intros x. unfold wrap. rewrite Z.sub_0_r. apply Z.mod_mod. lia. }
    assert (T : total_diff (mk (first_line content) (curr_idle_ init) (curr_total_ init)
                              (idle_ticks s) (total_ticks s) (usage_percent_ init))
                = total_ticks s) by apply W.
    split; [rewrite do_calculate_diff; exact T|].
    intros Hp. unfold do_calculate. rewrite T.
    destruct (total_ticks s >? 0) eqn:G;
      [|rewrite Z.gtb_ltb in G; apply Z.ltb_ge in G; lia].
    cbn [usage_percent_]. unfold idle_diff. cbn [curr_idle_ prev_idle_ init].
    unfold idle_ticks at 1. rewrite W. reflexivity.
Qed.

Lemma C1_witness :
  update cpu_half_idle logger0 (cpu_after cpu_half_idle init)
  = Normal (cpu_after cpu_half_idle (cpu_after cpu_half_idle init), logger0) /\
  total_diff (cpu_after cpu_half_idle (cpu_after cpu_half_idle init)) <= 0 /\
  usage_percent_ (cpu_after cpu_half_idle (cpu_after cpu_half_idle init))
  = usage_percent_ (cpu_after cpu_half_idle init).
Proof.
  assert (U : update cpu_half_idle logger0 (cpu_after cpu_half_idle init)
              = Normal (cpu_after cpu_half_idle (cpu_after cpu_half_idle init), logger0))
    by (vm_compute; reflexivity).
  assert (D : total_diff (cpu_after cpu_half_idle (cpu_after cpu_half_idle init)) <= 0)
    by (vm_compute; discriminate).
  split; [exact U|]. split; [exact D|].
  exact (proj1 (proj1 C1_usage_kept_when_total_unchanged _ _ _ _ _ U D)).
Defined.

(** C1 as stated fails twice.  The first sample of a busy machine is
    compared with the zero-initialised previous generation and gives 50,
    not 0; and after a counter reset (the total falls from 60 to 2) the
    unsigned difference is positive, so the percentage is computed anew
    (100) instead of being left at its last value (75). *)
Lemma C1_counterexample :
  (update cpu_half_idle logger0 init = Normal (cpu_after cpu_half_idle init, logger0) /\
   usage_percent_ (cpu_after cpu_half_idle init) = 50%Q /\
   usage_percent_ (cpu_after cpu_half_idle init) <> 0%Q) /\
  (update cpu_reset logger0 (cpu_after cpu_later (cpu_after cpu_half_idle init))
   = Normal (cpu_after cpu_reset (cpu_after cpu_later (cpu_after cpu_half_idle init)),
             logger0) /\
   curr_total_ (cpu_after cpu_later (cpu_after cpu_half_idle init)) = 60 /\
   curr_total_ (cpu_after cpu_reset (cpu_after cpu_later (cpu_after cpu_half_idle init))) = 2 /\
   usage_percent_ (cpu_after cpu_later (cpu_after cpu_half_idle init)) = 75%Q /\
   usage_percent_ (cpu_after cpu_reset (cpu_after cpu_later (cpu_after cpu_half_idle init)))
   = 100%Q).
Proof. vm_compute. repeat split; discriminate. Qed.


Lemma wrap_small x : 0 <= x < 2 ^ 64 -> wrap 64 x = x.
Proof. intros H. unfold wrap. apply Z.mod_small. exact H. Qed.

(** C2 (amended).  For two consecutive CPU samples whose eight counters
    are non-decreasing, whose counter sum fits in 64 bits and whose
    total-ticks strictly increased, both refreshes return and the usage
    percentage lies in [0, 100 + 2^-46]; it lies in [0, 100] when
    100 * (increase of total-ticks) is at most 2^53. *)
Theorem C2_usage_between_0_and_100 :
  forall k1 k2 lg c f1 f2 s1 s2,
    file k1 CPU_PATH = Some f1 ->
    file k2 CPU_PATH = Some f2 ->
    extract_counters (first_line f1) = Normal s1 ->
    extract_counters (first_line f2) = Normal s2 ->
    Spec.monotone s1 s2 ->
    Spec.counter_sum s2 < 2 ^ 64 ->
    total_ticks s1 < total_ticks s2 ->
    exists c1 c2,
      update k1 lg c = Normal (c1, lg) /\
      update k2 lg c1 = Normal (c2, lg) /\
      (0 <= usage_percent_ c2)%Q /\
      (usage_percent_ c2 <= 100 + 2 ^ (-46))%Q /\
      (100 * (total_ticks s2 - total_ticks s1) <= 2 ^ 53 ->
       (usage_percent_ c2 <= 100)%Q).
Proof.
  intros k1 k2 lg c f1 f2 s1 s2 F1 F2 E1 E2 Hm Hs Ht.
  set (c1 := do_calculate (mk (first_line f1) (curr_idle_ c) (curr_total_ c)
                              (idle_ticks s1) (total_ticks s1) (usage_percent_ c))).
  exists c1.
  exists (do_calculate (mk (first_line f2) (curr_idle_ c1) (curr_total_ c1)
                           (idle_ticks s2) (total_ticks s2) (usage_percent_ c1))).
  split; [apply (update_readable k1 lg c f1 s1 F1 E1)|].
  split; [apply (update_readable k2 lg c1 f2 s2 F2 E2)|].
  pose proof (counters_range _ _ E1) as R1.
  pose proof (counters_range _ _ E2) as R2.
  unfold Spec.monotone in Hm. unfold Spec.counter_sum in Hs.
  assert (I1 : curr_idle_ c1 = idle_ticks s1).
  { unfold c1, do_calculate. destruct (total_diff _ >? 0); reflexivity. }
  assert (T1 : curr_total_ c1 = total_ticks s1).
  { unfold c1, do_calculate. destruct (total_diff _ >? 0); reflexivity. }
  unfold do_calculate, total_diff, idle_diff. simpl.
  rewrite I1, T1. clearbody c1. clear I1 T1.
  assert (WT1 : total_ticks s1 = Spec.counter_sum s1)
    by (unfold total_ticks, Spec.counter_sum; apply wrap_small; lia).
  assert (WT2 : total_ticks s2 = Spec.counter_sum s2)
    by (unfold total_ticks, Spec.counter_sum; apply wrap_small; lia).
  assert (WI1 : idle_ticks s1 = idle s1 + iowait s1)
    by (unfold idle_ticks; apply wrap_small; lia).
  assert (WI2 : idle_ticks s2 = idle s2 + iowait s2)
    by (unfold idle_ticks; apply wrap_small; lia).
  rewrite WT1, WT2 in *. rewrite WI1, WI2.
  set (D := Spec.counter_sum s2 - Spec.counter_sum s1) in *.
  set (Di := idle s2 + iowait s2 - (idle s1 + iowait s1)) in *.
  assert (HD : 1 <= D < 2 ^ 64) by (unfold D, Spec.counter_sum in *; lia).
  assert (HDi : 0 <= Di <= D) by (unfold D, Di, Spec.counter_sum in *; lia).
  rewrite (wrap_small D) by lia. rewrite (wrap_small Di) by lia.
  rewrite (wrap_small (D - Di)) by lia.
  destruct (D >? 0) eqn:G; [|rewrite Z.gtb_ltb in G; apply Z.ltb_ge in G; lia].
  simpl.
  destruct (percentage_bounds (D - Di) D) as [B0 [B1 B2]]; [lia | lia |].
  split; [exact B0|]. split; [exact B1|]. exact B2.
Qed.

Lemma C2_witness :
  file cpu_half_idle CPU_PATH = Some (lit cpu_half_idle_text) /\
  file cpu_later CPU_PATH = Some (lit cpu_later_text) /\
  extract_counters (first_line (lit cpu_half_idle_text)) = Normal (mkSample 10 0 0 10 0 0 0 0) /\
  extract_counters (first_line (lit cpu_later_text)) = Normal (mkSample 40 0 0 20 0 0 0 0) /\
  Spec.monotone (mkSample 10 0 0 10 0 0 0 0) (mkSample 40 0 0 20 0 0 0 0) /\
  Spec.counter_sum (mkSample 40 0 0 20 0 0 0 0) < 2 ^ 64 /\
  total_ticks (mkSample 10 0 0 10 0 0 0 0) < total_ticks (mkSample 40 0 0 20 0 0 0 0) /\
  exists c1 c2,
    update cpu_half_idle logger0 init = Normal (c1, logger0) /\
    update cpu_later logger0 c1 = Normal (c2, logger0) /\
    (0 <= usage_percent_ c2)%Q /\
    (usage_percent_ c2 <= 100 + 2 ^ (-46))%Q /\
    (100 * (total_ticks (mkSample 40 0 0 20 0 0 0 0)
            - total_ticks (mkSample 10 0 0 10 0 0 0 0)) <= 2 ^ 53 ->
     (usage_percent_ c2 <= 100)%Q).
Proof.
  assert (F1 : file cpu_half_idle CPU_PATH = Some (lit cpu_half_idle_text))
    by (vm_compute; reflexivity).
  assert (F2 : file cpu_later CPU_PATH = Some (lit cpu_later_text))
    by (vm_compute; reflexivity).
  assert (E1 : extract_counters (first_line (lit cpu_half_idle_text))
               = Normal (mkSample 10 0 0 10 0 0 0 0)) by (vm_compute; reflexivity).
  assert (E2 : extract_counters (first_line (lit cpu_later_text))
               = Normal (mkSample 40 0 0 20 0 0 0 0)) by (vm_compute; reflexivity).
  assert (M : Spec.monotone (mkSample 10 0 0 10 0 0 0 0) (mkSample 40 0 0 20 0 0 0 0))
    by (unfold Spec.monotone; simpl; lia).
  assert (S : Spec.counter_sum (mkSample 40 0 0 20 0 0 0 0) < 2 ^ 64)
    by (vm_compute; reflexivity).
  assert (T : total_ticks (mkSample 10 0 0 10 0 0 0 0)
              < total_ticks (mkSample 40 0 0 20 0 0 0 0)) by (vm_compute; reflexivity).
  repeat (split; [assumption|]).
  exact (C2_usage_between_0_and_100 _ _ logger0 init _ _ _ _ F1 F2 E1 E2 M S T).
Defined.

(** C2 as stated fails at both ends of the 64-bit range.  With
    5764607523034237 busy ticks and no idle tick between two samples, the
    product 100 * 5764607523034237 is not a binary64 number, and the
    quotient rounds to 100 + 2^-46.  With counters whose sum passes 2^64
    the stored total wraps to 1 while the idle ticks do not, and the
    percentage is 100 * 2^63. *)
Lemma C2_counterexample :
  (extract_counters (first_line (lit cpu_zero_text)) = Normal (mkSample 0 0 0 0 0 0 0 0) /\
   extract_counters (first_line (lit cpu_huge_text))
   = Normal (mkSample 5764607523034237 0 0 0 0 0 0 0) /\
   total_ticks (mkSample 0 0 0 0 0 0 0 0)
   < total_ticks (mkSample 5764607523034237 0 0 0 0 0 0 0) /\
   update cpu_huge logger0 (cpu_after cpu_zero init)
   = Normal (cpu_after cpu_huge (cpu_after cpu_zero init), logger0) /\
   usage_percent_ (cpu_after cpu_huge (cpu_after cpu_zero init))
   = (7036874417766401 # 70368744177664)%Q /\
   ~ (usage_percent_ (cpu_after cpu_huge (cpu_after cpu_zero init)) <= 100)%Q) /\
  (extract_counters (first_line (lit cpu_wrapping_text))
   = Normal (mkSample 9223372036854775808 0 0 9223372036854775809 0 0 0 0) /\
   total_ticks (mkSample 0 0 0 0 0 0 0 0)
   < total_ticks (mkSample 9223372036854775808 0 0 9223372036854775809 0 0 0 0) /\
   update cpu_wrapping logger0 (cpu_after cpu_zero init)
   = Normal (cpu_after cpu_wrapping (cpu_after cpu_zero init), logger0) /\
   usage_percent_ (cpu_after cpu_wrapping (cpu_after cpu_zero init))
   = 922337203685477580800%Q /\
   ~ (usage_percent_ (cpu_after cpu_wrapping (cpu_after cpu_zero init)) <= 100)%Q).
Proof.
  vm_compute. repeat split; try discriminate; intros H; apply H; reflexivity.
Qed.

End CPUClaims.

(** ** The memory collector *)

Module MemoryFacts.
Import MemoryCollector.

Lemma memory_update_eq k lg c :
  update k lg c =
  (c2 <- do_parse (fst (do_collect k lg c)) ;;
   Normal (do_calculate c2, snd (do_collect k lg c))).
Proof.
  unfold update, Collector.update. simpl.
  destruct (do_collect k lg c) as [c1 lg1]. simpl.
  destruct (do_parse c1); reflexivity.
Qed.

Lemma memory_do_collect_usage k lg c :
  usage_percent_ (fst (do_collect k lg c)) = usage_percent_ c.
Proof. unfold do_collect. destruct (file k MEMORY_PATH); reflexivity. Qed.

(** A line changes at most one of the five parsed fields. *)
Lemma parse_line_usage c line c' :
  parse_line c line = Normal c' -> usage_percent_ c' = usage_percent_ c.
Proof.
  unfold parse_line.
  destruct (extract_string (open line)) as [key s0].
  destruct (extract_u64 s0) as [value s1].
  destruct (extract_string s1) as [unit s2].
  repeat match goal with
         | |- context [if ?b then _ else _] => destruct b
         end;
    destruct value; simpl; intros H; inversion H; reflexivity.
Qed.

Lemma parse_lines_usage lines : forall c c',
  parse_lines c lines = Normal c' -> usage_percent_ c' = usage_percent_ c.
Proof.
  induction lines as [|line rest IH]; simpl; intros c c' H.
  - inversion H; reflexivity.
  - destruct (parse_line c line) as [c1| |] eqn:P; try discriminate.
    simpl in H. rewrite (IH _ _ H). apply (parse_line_usage _ _ _ P).
Qed.

Lemma memory_do_parse_usage c c' :
  do_parse c = Normal c' -> usage_percent_ c' = usage_percent_ c.
Proof. apply parse_lines_usage. Qed.

End MemoryFacts.

Module MemoryClaims.
Import MemoryCollector MemoryFacts Samples.

(** C7 (amended).  After a refresh of the memory collector that returns,
    the used kibibytes are total - available in unsigned 64-bit
    arithmetic (exactly total - available when available <= total), and
    not total - free; when total > 0 the usage percentage is the binary64
    value of 100 * used / total, which is the correctly rounded quotient
    when 100 * used and total are at most 2^53; when total is 0 the
    percentage keeps its previous value, which is 0 in the initial
    state. *)
Theorem C7_memory_used_and_percentage :
  forall k lg c c' lg',
    update k lg c = Normal (c', lg') ->
    used_kb_ c' = wrap 64 (total_kb_ c' - available_kb_ c') /\
    (0 <= available_kb_ c' <= total_kb_ c' -> total_kb_ c' < 2 ^ 64 ->
     used_kb_ c' = total_kb_ c' - available_kb_ c') /\
    (0 < total_kb_ c' ->
     usage_percent_ c' = ddiv (dmul 100%Q (of_u64 (used_kb_ c'))) (of_u64 (total_kb_ c'))) /\
    (0 < total_kb_ c' <= 2 ^ 53 -> 0 <= 100 * used_kb_ c' <= 2 ^ 53 ->
     usage_percent_ c'
     = rnd (inject_Z (100 * used_kb_ c') / inject_Z (total_kb_ c'))) /\
    (total_kb_ c' <= 0 ->
     usage_percent_ c' = usage_percent_ c /\
     (c = init -> usage_percent_ c' = 0%Q)).
Proof.
  intros k lg c c' lg' Hu.
  rewrite memory_update_eq in Hu.
  destruct (do_parse (fst (do_collect k lg c))) as [c2| |] eqn:P; try discriminate.
  simpl in Hu. inversion Hu; subst. clear Hu.
  pose proof (memory_do_parse_usage _ _ P) as U. rewrite memory_do_collect_usage in U.
  unfold do_calculate.
  cbn [used_kb_ total_kb_ available_kb_ usage_percent_].
  split; [reflexivity|]. split.
  { intros H1 H2. unfold wrap. apply Z.mod_small. lia. }
  split.
  { intros H. destruct (total_kb_ c2 >? 0) eqn:G; [reflexivity|].
    rewrite Z.gtb_ltb in G. apply Z.ltb_ge in G. lia. }
  split.
  { intros H1 H2. destruct (total_kb_ c2 >? 0) eqn:G;
      [|rewrite Z.gtb_ltb in G; apply Z.ltb_ge in G; lia].
    set (u := wrap 64 (total_kb_ c2 - available_kb_ c2)) in *.
    rewrite (of_u64_exact u), (of_u64_exact (total_kb_ c2)) by lia.
    unfold ddiv, dmul.
    rewrite (rnd_comp (100 * inject_Z u) (inject_Z (100 * u)))
      by (rewrite inject_Z_mult; reflexivity).
    rewrite rnd_Z_exact by lia. reflexivity. }
  intros H. destruct (total_kb_ c2 >? 0) eqn:G.
  { rewrite Z.gtb_ltb in G. apply Z.ltb_lt in G. lia. }
  split; [exact U|]. intros ->. exact U.
Qed.

Lemma C7_witness :
  update mem_half logger0 init = Normal (mem_after mem_half init, logger0) /\
  total_kb_ (mem_after mem_half init) = 100 /\
  available_kb_ (mem_after mem_half init) = 50 /\
  free_kb_ (mem_after mem_half init) = 10 /\
  used_kb_ (mem_after mem_half init) = 50 /\
  usage_percent_ (mem_after mem_half init) = 50%Q /\
  used_kb_ (mem_after mem_half init)
  = wrap 64 (total_kb_ (mem_after mem_half init) - available_kb_ (mem_after mem_half init)).
Proof.
  assert (U : update mem_half logger0 init = Normal (mem_after mem_half init, logger0))
    by (vm_compute; reflexivity).
  split; [exact U|].
  repeat (split; [vm_compute; reflexivity|]).
  exact (proj1 (C7_memory_used_and_percentage _ _ _ _ _ U)).
Defined.

(** C7 as stated fails when the total falls to 0 after a refresh that saw
    a total: the percentage stays at 50.  And with more available than
    total kibibytes the subtraction wraps. *)
Lemma C7_counterexample :
  (update mem_zero logger0 (mem_after mem_half init)
   = Normal (mem_after mem_zero (mem_after mem_half init), logger0) /\
   total_kb_ (mem_after mem_zero (mem_after mem_half init)) = 0 /\
   usage_percent_ (mem_after mem_zero (mem_after mem_half init)) = 50%Q /\
   usage_percent_ (mem_after mem_zero (mem_after mem_half init)) <> 0%Q) /\
  (update mem_more_available logger0 init
   = Normal (mem_after mem_more_available init, logger0) /\
   total_kb_ (mem_after mem_more_available init) = 50 /\
   available_kb_ (mem_after mem_more_available init) = 100 /\
   used_kb_ (mem_after mem_more_available init) = 2 ^ 64 - 50 /\
   used_kb_ (mem_after mem_more_available init)
   <> total_kb_ (mem_after mem_more_available init)
      - available_kb_ (mem_after mem_more_available init)).
Proof. vm_compute. repeat split; discriminate. Qed.

End MemoryClaims.

(** ** The disk collector *)

Module DiskFacts.
Import DiskCollector.

Lemma size_le_2 (name : str) :
  (size name >? 2) = false ->
  name = [] \/ (exists a, name = [a]) \/ (exists a b, name = [a; b]).
Proof.
  intros H. rewrite Z.gtb_ltb in H. apply Z.ltb_ge in H. unfold size in H.
  destruct name as [|a [|b [|c r]]]; eauto.
  simpl length in H. lia.
Qed.

(** A name of at most two characters that holds a disk prefix is the
    prefix itself, and is no partition. *)
Lemma short_name_no_partition (name : str) :
  (size name >? 2) = false ->
  contains (lit "sd") name || contains (lit "vd") name || contains (lit "nvme") name
  = true ->
  Spec.is_partition name = false.
Proof.
  intros Hs Hc.
  destruct (size_le_2 name Hs) as [-> | [[a ->] | [a [b ->]]]].
  - discriminate Hc.
  - revert Hc. unfold contains. cbn -[Ascii.eqb].
    destruct (Ascii.eqb "s" a), (Ascii.eqb "v" a), (Ascii.eqb "n" a); discriminate.
  - revert Hc. unfold Spec.is_partition, Spec.ends_in_digit, contains. cbn -[Ascii.eqb isdigit].
    destruct (Ascii.eqb_spec "d" b) as [<- | N].
    + destruct (Ascii.eqb "s" a), (Ascii.eqb "v" a), (Ascii.eqb "n" a),
               (Ascii.eqb "p" a); cbn; intros; try discriminate; reflexivity.
    + destruct (Ascii.eqb "s" a), (Ascii.eqb "v" a), (Ascii.eqb "n" a),
               (Ascii.eqb "s" b), (Ascii.eqb "v" b), (Ascii.eqb "n" b);
        cbn; intros; discriminate.
Qed.

(** The guard of [push_back] is the rule of the specification. *)
Lemma keeps_spec (name : str) : keeps name = Spec.disk_kept name.
Proof.
  unfold keeps, Spec.disk_kept.
  destruct (negb (contains (lit "loop") name)); [|reflexivity].
  destruct (contains (lit "sd") name || contains (lit "vd") name
            || contains (lit "nvme") name) eqn:B; [|reflexivity].
  cbn [andb].
  destruct (size name >? 2) eqn:Hs.
  - unfold Spec.is_partition, Spec.ends_in_digit.
    assert (Hne : name <> []) by (intros ->; discriminate Hs).
    destruct name as [|a r]; [congruence|].
    destruct (contains (lit "nvme") (a :: r)), (contains (lit "p") (a :: r)),
             (isdigit (back (a :: r))); reflexivity.
  - rewrite (short_name_no_partition name Hs B).
    destruct (contains (lit "nvme") name && negb (contains (lit "p") name)); reflexivity.
Qed.

Lemma parse_line_cases (line : str) :
  match parse_line line with
  | Normal (Some d) => name d = line_name line /\ keeps (line_name line) = true
  | Normal None => keeps (line_name line) = false
  | Undefined => keeps (line_name line) = true
  | Throws _ => False
  end.
Proof.
  unfold parse_line, line_name.
  destruct (extract_i32 (open line)) as [major s0].
  destruct (extract_i32 s0) as [minor s1].
  destruct (extract_string s1) as [nm s2].
  destruct (extract_u64 s2) as [v1 s3]. destruct (extract_u64 s3) as [v2 s4].
  destruct (extract_u64 s4) as [v3 s5]. destruct (extract_u64 s5) as [v4 s6].
  destruct (extract_u64 s6) as [v5 s7]. destruct (extract_u64 s7) as [v6 s8].
  destruct (extract_u64 s8) as [v7 s9]. destruct (extract_u64 s9) as [v8 s10].
  destruct (keeps match nm with Some n => n | None => [] end); [|reflexivity].
  destruct v1; cbn; [|reflexivity].
  destruct v5; cbn; [|reflexivity].
  destruct v3; cbn; [|reflexivity].
  destruct v7; cbn; [|reflexivity].
  split; reflexivity.
Qed.

Lemma parse_lines_names lines : forall acc ds,
  parse_lines acc lines = Normal ds ->
  map name ds = map name acc ++ filter keeps (map line_name lines).
Proof.
  induction lines as [|line rest IH]; intros acc ds; cbn [parse_lines map filter].
  - intros H; inversion H; subst. now rewrite app_nil_r.
  - pose proof (parse_line_cases line) as C.
    destruct (parse_line line) as [[d|] | |]; cbn [bind]; try discriminate.
    + destruct C as [Cn Ck]. rewrite Ck. intros H. rewrite (IH _ _ H).
      rewrite map_app. cbn [map]. rewrite Cn, <- app_assoc. reflexivity.
    + rewrite C. apply IH.
Qed.

End DiskFacts.

Module DiskClaims.
Import DiskCollector DiskFacts.

(** C4.  The disk collector keeps a line exactly when its device name
    does not contain "loop", contains "sd", "vd" or "nvme", and is not a
    partition (an NVMe name with a "p", another name ending in a digit).
    A kept line gives a record of that name, or is undefined when one of
    its four counters is missing; the records of a refresh that returns
    are those of the kept lines, in order.  "loop3", "sda1" and
    "nvme0n1p1" are dropped, "sda" and "nvme0n1" kept. *)
Theorem C4_disk_filter :
  (forall name, keeps name = Spec.disk_kept name) /\
  (forall line,
     match parse_line line with
     | Normal (Some d) =>
         name d = line_name line /\ Spec.disk_kept (line_name line) = true
     | Normal None => Spec.disk_kept (line_name line) = false
     | Undefined => Spec.disk_kept (line_name line) = true
     | Throws _ => False
     end) /\
  (forall c,
     match do_parse c with
     | Normal c' =>
         map name (disks_ c')
         = filter Spec.disk_kept (map line_name (getlines (raw_data_ c)))
     | Undefined => True
     | Throws _ => False
     end) /\
  map Spec.disk_kept
      [lit "loop3"; lit "sda"; lit "sda1"; lit "nvme0n1"; lit "nvme0n1p1"]
  = [false; true; false; true; false] /\
  do_parse (mk (lit Samples.disk_text) [])
  = Normal (mk (lit Samples.disk_text)
               [mkStats (lit "sda") 100 200 3000 4000;
                mkStats (lit "nvme0n1") 5 6 70 80]).
Proof.
  split; [exact keeps_spec|]. split.
  { intros line. pose proof (parse_line_cases line) as C.
    rewrite keeps_spec in C. exact C. }
  split.
  { intros c. unfold do_parse.
    destruct (parse_lines [] (getlines (raw_data_ c))) as [ds| |] eqn:P; cbn [bind].
    - cbn [disks_]. rewrite (parse_lines_names _ _ _ P). cbn [map app].
      apply filter_ext. exact keeps_spec.
    - (* no library call of the loop throws *)
      exfalso. revert P. generalize (@nil DiskStats).
      induction (getlines (raw_data_ c)) as [|line rest IH]; intros acc;
        cbn [parse_lines]; [discriminate|].
      pose proof (parse_line_cases line) as C.
      destruct (parse_line line) as [[d|] | |]; cbn [bind];
        try discriminate; try contradiction; apply IH.
    - exact I. }
  split; vm_compute; reflexivity.
Qed.

End DiskClaims.

(** ** Facts on the string members *)

Module ListFacts.

Lemma drop_while_ext (p q : ascii -> bool) :
  (forall c, p c = q c) -> forall s, drop_while p s = drop_while q s.
Proof.
  intros E. induction s as [|c s IH]; cbn [drop_while]; [reflexivity|].
  rewrite <- E. destruct (p c); [exact IH | reflexivity].
Qed.

End ListFacts.

Module StringFacts.

Lemma size_nonneg s : 0 <= size s.
Proof. unfold size. lia. Qed.

Lemma size_cons c s : size (c :: s) = size s + 1.
Proof. unfold size. cbn [length]. lia. Qed.

Lemma take_cons n c s : 0 < n -> take n (c :: s) = c :: take (n - 1) s.
Proof.
  intros H. cbn [take]. destruct (n <=? 0) eqn:E; [|reflexivity].
  apply Z.leb_le in E. lia.
Qed.

Lemma take_0 s : take 0 s = [].
Proof. destruct s; reflexivity. Qed.

Lemma skipn_succ (k : Z) (c : ascii) (s : str) :
  0 <= k -> skipn (Z.to_nat (Z.succ k)) (c :: s) = skipn (Z.to_nat k) s.
Proof. intros H. rewrite Z2Nat.inj_succ by exact H. reflexivity. Qed.

(** [find] of a character: the position is inside the string. *)
Lemma find_char_range c s p : find_char c s = Some p -> 0 <= p < size s.
Proof.
  revert p. induction s as [|a s IH]; cbn [find_char]; intros p H; [discriminate|].
  rewrite size_cons. destruct (Ascii.eqb a c).
  - inversion H; subst. pose proof (size_nonneg s). lia.
  - destruct (find_char c s) as [k|]; [|discriminate].
    cbn in H. inversion H; subst. specialize (IH k eq_refl). lia.
Qed.

Lemma find_char_none c s :
  find_char c s = None <-> existsb (fun a => Ascii.eqb a c) s = false.
Proof.
  induction s as [|a s IH]; cbn [find_char existsb]; [tauto|].
  destruct (Ascii.eqb a c); cbn [orb].
  - split; discriminate.
  - rewrite <- IH. destruct (find_char c s); cbn; split; congruence.
Qed.

(** [substr] from a position that [find] returned, or after it, does not
    throw. *)
Lemma substr_ok s pos : 0 <= pos <= size s -> substr s pos = Normal (skipn (Z.to_nat pos) s).
Proof.
  intros H. unfold substr. destruct (pos >? size s) eqn:E; [|reflexivity].
  rewrite Z.gtb_ltb in E. apply Z.ltb_lt in E. lia.
Qed.

Lemma substr_n_ok s pos n :
  0 <= pos <= size s -> substr_n s pos n = Normal (take n (skipn (Z.to_nat pos) s)).
Proof.
  intros H. unfold substr_n. destruct (pos >? size s) eqn:E; [|reflexivity].
  rewrite Z.gtb_ltb in E. apply Z.ltb_lt in E. lia.
Qed.

(** Erasing up to the first character outside a set drops the leading
    characters of the set. *)
Lemma erase_leading set s :
  erase_front s (find_first_not_of set s)
  = drop_while (fun a => existsb (Ascii.eqb a) set) s.
Proof.
  assert (G : forall s,
             match find_first_not_of set s with
             | Some k => 0 <= k /\
                 skipn (Z.to_nat k) s = drop_while (fun a => existsb (Ascii.eqb a) set) s
             | None => drop_while (fun a => existsb (Ascii.eqb a) set) s = []
             end).
  { clear s. induction s as [|a s IH]; cbn [find_first_not_of drop_while];
      [reflexivity|].
    destruct (existsb (Ascii.eqb a) set).
    - destruct (find_first_not_of set s) as [k|]; cbn [option_map].
      + destruct IH as [K IH]. split; [lia|]. rewrite skipn_succ by exact K. exact IH.
      + exact IH.
    - split; [lia | reflexivity]. }
  specialize (G s). unfold erase_front.
  destruct (find_first_not_of set s) as [k|]; [apply G | symmetry; exact G].
Qed.

End StringFacts.

(** ** The network collector *)

Module NetworkFacts.
Import NetworkCollector StringFacts.

(** [find(':')] and the split of the specification. *)
Lemma find_colon_split line :
  match find_char ":" line with
  | Some p =>
      Spec.split_at_colon line
      = Some (take p line, skipn (Z.to_nat (p + 1)) line)
  | None => Spec.split_at_colon line = None
  end.
Proof.
  induction line as [|c r IH]; cbn [find_char Spec.split_at_colon]; [reflexivity|].
  destruct (Ascii.eqb c ":").
  - rewrite take_0. reflexivity.
  - pose proof (find_char_range ":" r) as R.
    destruct (find_char ":" r) as [k|]; cbn [option_map].
    + specialize (R k eq_refl). rewrite IH.
      rewrite take_cons by lia.
      replace (Z.succ k - 1) with k by lia.
      replace (Z.succ k + 1) with (Z.succ (k + 1)) by lia.
      rewrite skipn_succ by lia. reflexivity.
    + rewrite IH. reflexivity.
Qed.

Lemma blank_set c : existsb (Ascii.eqb c) [" "%char; "009"%char] = Spec.is_blank c.
Proof. unfold Spec.is_blank. cbn [existsb]. now rewrite orb_false_r. Qed.

(** The body of the loop on a line with a colon. *)
Lemma parse_interface_spec line p :
  find_char ":" line = Some p ->
  Spec.interface_record line = Some (match parse_interface line p with
                                     | Normal r => r
                                     | _ => mkStats [] 0 0 0 0
                                     end) /\
  is_normal (parse_interface line p) = true.
Proof.
  intros F. pose proof (find_char_range _ _ _ F) as R.
  pose proof (find_colon_split line) as S. rewrite F in S.
  unfold Spec.interface_record. rewrite S.
  unfold parse_interface.
  rewrite substr_n_ok by (pose proof (size_nonneg line); lia).
  cbn [bind]. rewrite substr_ok by lia. cbn [bind].
  change (skipn (Z.to_nat 0) line) with line.
  rewrite erase_leading.
  rewrite (ListFacts.drop_while_ext _ Spec.is_blank blank_set (take p line)).
  unfold Spec.u64_fields.
  destruct (extract_u64 (open (skipn (Z.to_nat (p + 1)) line))) as [v0 s0].
  destruct (extract_u64 s0) as [v1 s1]. destruct (extract_u64 s1) as [v2 s2].
  destruct (extract_u64 s2) as [v3 s3]. destruct (extract_u64 s3) as [v4 s4].
  destruct (extract_u64 s4) as [v5 s5]. destruct (extract_u64 s5) as [v6 s6].
  destruct (extract_u64 s6) as [v7 s7]. destruct (extract_u64 s7) as [v8 s8].
  destruct (extract_u64 s8) as [v9 s9].
  split; reflexivity.
Qed.

Lemma record_iff_colon line :
  match Spec.interface_record line with
  | Some _ => Spec.has_colon line = true
  | None => Spec.has_colon line = false
  end.
Proof.
  unfold Spec.interface_record.
  pose proof (find_colon_split line) as S.
  pose proof (find_char_none ":" line) as N. fold (Spec.has_colon line) in N.
  destruct (find_char ":" line) as [p|].
  - rewrite S. destruct (Spec.has_colon line); [reflexivity|].
    destruct N as [_ N]. discriminate (N eq_refl).
  - rewrite S. apply N. reflexivity.
Qed.

(** The loop past the two header lines. *)
Lemma parse_lines_spec lines : forall n acc,
  2 <= n -> parse_lines n acc lines = Normal (acc ++ Spec.interface_records lines).
Proof.
  induction lines as [|line rest IH]; intros n acc Hn;
    cbn [parse_lines Spec.interface_records flat_map].
  - now rewrite app_nil_r.
  - destruct (n + 1 <=? 2) eqn:E; [apply Z.leb_le in E; lia|].
    pose proof (find_colon_split line) as S.
    destruct (find_char ":" line) as [p|] eqn:F.
    + destruct (parse_interface_spec line p F) as [R N].
      destruct (parse_interface line p) as [r| |]; try discriminate N.
      rewrite R. cbn [bind]. rewrite IH by lia.
      fold (Spec.interface_records rest). cbn [app]. now rewrite <- app_assoc.
    + unfold Spec.interface_record at 1. rewrite S. cbn [app].
      apply IH. lia.
Qed.

Lemma do_parse_spec c :
  do_parse c
  = Normal (mk (raw_data_ c) (Spec.interface_records (skipn 2 (getlines (raw_data_ c))))).
Proof.
  unfold do_parse.
  destruct (getlines (raw_data_ c)) as [|l1 [|l2 rest]]; try reflexivity.
  cbn [parse_lines]. change (0 + 1 <=? 2) with true. change (0 + 1 + 1 <=? 2) with true.
  cbn iota. rewrite parse_lines_spec by lia. reflexivity.
Qed.

Lemma records_count lines :
  length (Spec.interface_records lines) = length (filter Spec.has_colon lines).
Proof.
  induction lines as [|line rest IH]; cbn [Spec.interface_records flat_map filter];
    [reflexivity|].
  pose proof (record_iff_colon line) as C.
  destruct (Spec.interface_record line); rewrite C; rewrite length_app;
    fold (Spec.interface_records rest); rewrite IH; reflexivity.
Qed.

End NetworkFacts.

Module NetworkClaims.
Import NetworkCollector NetworkFacts StringFacts.

(** C8.  The network collector skips the first two lines; every later
    line is split at its first colon into the interface name, trimmed of
    leading blanks and tabs, and the statistics, read as ten unsigned
    integers of which the first, second, ninth and tenth are kept (a line
    without a colon adds nothing).  After a two-line header the line
    "  eth0: 1000 10 0 0 0 0 0 0 2000 20 0 0 0 0 0 0" gives rx_bytes 1000,
    rx_packets 10, tx_bytes 2000, tx_packets 20. *)
Theorem C8_network_parse :
  (forall c,
     do_parse c
     = Normal (mk (raw_data_ c)
                  (Spec.interface_records (skipn 2 (getlines (raw_data_ c)))))) /\
  (exists r,
     do_parse (mk (lit Samples.net_text) []) = Normal (mk (lit Samples.net_text) [r]) /\
     name r = lit "eth0" /\ rx_bytes r = 1000 /\ rx_packets r = 10 /\
     tx_bytes r = 2000 /\ tx_packets r = 20).
Proof.
  split; [exact do_parse_spec|].
  eexists. split; [vm_compute; reflexivity|]. repeat split.
Qed.

(** C10.  In the parse of the network collector a line without a colon
    is passed over, whatever its position, and adds no record: the parse
    returns, and the number of records is the number of lines after the
    header that hold a colon. *)
Theorem C10_lines_without_colon_skipped :
  (forall n acc line rest,
     Spec.has_colon line = true \/
     parse_lines n acc (line :: rest) = parse_lines (n + 1) acc rest) /\
  (forall c,
     exists c',
       do_parse c = Normal c' /\
       length (interfaces_ c')
       = length (filter Spec.has_colon (skipn 2 (getlines (raw_data_ c))))) /\
  (exists c',
     do_parse (mk (lit Samples.net_with_junk_text) []) = Normal c' /\
     map name (interfaces_ c') = [lit "lo"; lit "eth0"]).
Proof.
  split.
  { intros n acc line rest.
    destruct (Spec.has_colon line) eqn:H; [left; reflexivity | right].
    cbn [parse_lines].
    assert (F : find_char ":" line = None) by (apply find_char_none; exact H).
    rewrite F. destruct (n + 1 <=? 2); reflexivity. }
  split.
  { intros c. eexists. split; [apply do_parse_spec|].
    cbn [interfaces_]. apply records_count. }
  eexists. split; vm_compute; reflexivity.
Qed.

End NetworkClaims.

(** ** An implementation of the contract of [std::sort] *)

Module SortFacts.

Lemma insert_sorted_perm {A} (comp : A -> A -> bool) x l :
  Permutation (x :: l) (insert_sorted comp x l).
Proof.
  induction l as [|y l IH]; cbn [insert_sorted]; [apply Permutation_refl|].
  destruct (comp x y); [apply Permutation_refl|].
  eapply perm_trans; [apply perm_swap|]. apply perm_skip, IH.
Qed.

Lemma insertion_sort_perm {A} (comp : A -> A -> bool) l :
  Permutation l (insertion_sort comp l).
Proof.
  induction l as [|x l IH]; cbn [insertion_sort fold_right]; [constructor|].
  eapply perm_trans; [apply perm_skip, IH|]. apply insert_sorted_perm.
Qed.

Lemma insert_sorted_sorted {A} (comp : A -> A -> bool) x l :
  strict_weak_order comp ->
  StronglySorted (fun a b => comp b a = false) l ->
  StronglySorted (fun a b => comp b a = false) (insert_sorted comp x l).
Proof.
  intros [Irr [Tr NTr]] Hs.
  induction Hs as [|y l Hs IH Hy]; cbn [insert_sorted].
  - constructor; constructor.
  - destruct (comp x y) eqn:E.
    + assert (Hyx : comp y x = false).
      { destruct (comp y x) eqn:F; [|reflexivity].
        pose proof (Tr _ _ _ E F) as C. rewrite Irr in C. discriminate. }
      constructor; [constructor; assumption|].
      constructor; [exact Hyx|].
      apply Forall_forall. intros z Hz.
      rewrite Forall_forall in Hy. apply (NTr z y x); [apply Hy, Hz | exact Hyx].
    + constructor; [exact IH|].
      apply (Permutation_Forall (insert_sorted_perm comp x l)).
      constructor; assumption.
Qed.

Lemma insertion_sort_sorted {A} (comp : A -> A -> bool) l :
  strict_weak_order comp ->
  StronglySorted (fun a b => comp b a = false) (insertion_sort comp l).
Proof.
  intros H. induction l as [|x l IH]; cbn [insertion_sort fold_right]; [constructor|].
  apply insert_sorted_sorted; assumption.
Qed.

#[export] Instance insertion_StdSort : StdSort := {|
  std_sort := @insertion_sort;
  std_sort_perm := @insertion_sort_perm;
  std_sort_sorted := @insertion_sort_sorted
|}.

(** Two descending lists of integers with the same elements are equal. *)
Lemma descending_unique (a b : list Z) :
  Permutation a b ->
  StronglySorted Z.ge a -> StronglySorted Z.ge b -> a = b.
Proof.
  revert b. induction a as [|x a IH]; intros b P Sa Sb.
  - apply Permutation_nil in P. now subst.
  - destruct b as [|y b]; [apply Permutation_sym, Permutation_nil in P; discriminate|].
    inversion Sa as [|? ? Sa' Fa]; subst. inversion Sb as [|? ? Sb' Fb]; subst.
    assert (x = y).
    { assert (Ix : In x (y :: b)) by (apply (Permutation_in _ P); left; reflexivity).
      assert (Iy : In y (x :: a))
        by (apply (Permutation_in _ (Permutation_sym P)); left; reflexivity).
      rewrite Forall_forall in Fa, Fb.
      destruct Ix as [-> | Ix]; [reflexivity|].
      destruct Iy as [-> | Iy]; [reflexivity|].
      specialize (Fa _ Iy). specialize (Fb _ Ix). lia. }
    subst y. f_equal. apply IH; try assumption.
    apply (Permutation_cons_inv P).
Qed.

Lemma firstn_sorted {A} (R : A -> A -> Prop) n l :
  StronglySorted R l -> StronglySorted R (firstn n l).
Proof.
  revert l. induction n as [|n IH]; intros l Hs; [constructor|].
  destruct Hs as [|x l Hs Hx]; cbn [firstn]; [constructor|].
  constructor; [apply IH, Hs|].
  rewrite Forall_forall in *. intros z Hz. apply Hx.
  rewrite <- (firstn_skipn n l). apply in_or_app. left. exact Hz.
Qed.


End SortFacts.


(** ** The process collector *)

Module ProcessFacts.
Import ProcessCollector StringFacts.

Lemma size_app a b : size (a ++ b) = size a + size b.
Proof. unfold size. rewrite length_app. lia. Qed.

Lemma find_char_app c pre rest :
  existsb (fun a => Ascii.eqb a c) pre = false ->
  find_char c (pre ++ c :: rest) = Some (size pre).
Proof.
  induction pre as [|a pre IH]; cbn [existsb app find_char]; intros H.
  - now rewrite Ascii.eqb_refl.
  - apply orb_false_iff in H. destruct H as [Ha Hp].
    rewrite Ha, (IH Hp). cbn [option_map]. rewrite size_cons. reflexivity.
Qed.



Lemma skipn_size_app (a b : str) : skipn (Z.to_nat (size a)) (a ++ b) = b.
Proof.
  unfold size. rewrite Nat2Z.id. rewrite skipn_app, skipn_all, Nat.sub_diag. reflexivity.
Qed.

Lemma take_size_app (a b : str) : take (size a) (a ++ b) = a.
Proof.
  induction a as [|c a IH]; cbn [app].
  - apply take_0.
  - rewrite take_cons by (rewrite size_cons; pose proof (size_nonneg a); lia).
    rewrite size_cons. replace (size a + 1 - 1) with (size a) by lia. now rewrite IH.
Qed.




Lemma by_rss_desc_swo : strict_weak_order by_rss_desc.
Proof.
  unfold by_rss_desc. split; [|split].
  - intros a. rewrite Z.gtb_ltb. apply Z.ltb_irrefl.
  - intros a b c. rewrite !Z.gtb_ltb, !Z.ltb_lt. lia.
  - intros a b c. rewrite !Z.gtb_ltb, !Z.ltb_ge. lia.
Qed.

Lemma std_sort_descending `{StdSort} l :
  Spec.rss_descending (std_sort by_rss_desc l).
Proof.
  unfold Spec.rss_descending.
  pose proof (std_sort_sorted _ by_rss_desc l by_rss_desc_swo) as Hs.
  induction Hs as [|x l' Hs IH Hx]; constructor; [exact IH|].
  eapply Forall_impl; [|exact Hx].
  intros b Hb. unfold by_rss_desc in Hb. cbv beta in Hb.
  rewrite Z.gtb_ltb in Hb. apply Z.ltb_ge in Hb. lia.
Qed.

Lemma process_update_eq `{StdSort} k lg c :
  update k lg c =
  match proc_root k with
  | None =>
      Normal (mk [] (processes_ c) (total_processes_ c) (running_processes_ c),
              LOG_ERROR (cannot_open PROC_PATH) lg)
  | Some entries =>
      r <- scan k ([], 0, 0) entries ;;
      Normal (mk [] (std_sort by_rss_desc (fst (fst r))) (snd (fst r)) (snd r), lg)
  end.
Proof.
  unfold update, Collector.update, vtable, do_parse, do_collect. cbn.
  destruct (proc_root k) as [entries|]; [|reflexivity].
  destruct (scan k ([], 0, 0) entries) as [[[ps t] r]| |]; reflexivity.
Qed.

Lemma map_rss_descending l :
  Spec.rss_descending l -> StronglySorted Z.ge (map rss l).
Proof.
  induction 1 as [|x l Hs IH Hx]; cbn [map]; constructor; [exact IH|].
  apply Forall_map. exact Hx.
Qed.

(** The resident sizes after the sort are the sizes in descending
    order. *)
Lemma sorted_rss_values `{StdSort} l (vs : list Z) :
  Permutation (map rss l) vs -> StronglySorted Z.ge vs ->
  map rss (std_sort by_rss_desc l) = vs.
Proof.
  intros P Hs. apply SortFacts.descending_unique.
  - eapply perm_trans; [|exact P].
    apply Permutation_sym, Permutation_map, std_sort_perm.
  - apply map_rss_descending, std_sort_descending.
  - exact Hs.
Qed.

End ProcessFacts.

Module ProcessClaims.
Import ProcessCollector ProcessFacts StringFacts Samples.



(** C6.  After a refresh of the process collector that read the process
    root, the list is in descending order of resident set size (after one
    that could not, it is the list of before); what is shown is the first
    five entries of the list, so at most five, in descending order.  Four
    processes of sizes 5, 50, 1, 100 are shown as 100, 50, 5, 1; of seven
    processes of sizes 1 to 7, the five of sizes 7 to 3 are shown. *)
Theorem C6_sorted_and_top_five :
  forall (Srt : StdSort),
    (forall k lg c c' lg',
       update k lg c = Normal (c', lg') ->
       (proc_root k = None -> Spec.rss_descending (processes_ c)) ->
       Spec.rss_descending (processes_ c') /\
       snd (print_result c') = firstn 5 (processes_ c') /\
       (length (snd (print_result c')) <= 5)%nat /\
       Spec.rss_descending (snd (print_result c'))) /\
    (exists c',
       update four_processes logger0 init = Normal (c', logger0) /\
       map rss (snd (print_result c')) = [100; 50; 5; 1]) /\
    (exists c',
       update seven_processes logger0 init = Normal (c', logger0) /\
       length (processes_ c') = 7%nat /\
       map rss (snd (print_result c')) = [7; 6; 5; 4; 3]).
Proof.
  intros Srt. split.
  { intros k lg c c' lg' Hu Hprev.
    assert (Hs : Spec.rss_descending (processes_ c')).
    { rewrite process_update_eq in Hu. destruct (proc_root k) as [entries|].
      - destruct (scan k ([], 0, 0) entries) as [r| |]; cbn [bind] in Hu;
          try discriminate.
        inversion Hu; subst. cbn [processes_]. apply std_sort_descending.
      - inversion Hu; subst. cbn [processes_]. apply Hprev. reflexivity. }
    split; [exact Hs|]. unfold print_result, top5. cbn [snd].
    split; [reflexivity|]. split; [apply firstn_le_length|].
    apply SortFacts.firstn_sorted, Hs. }
  split.
  - eexists. split.
    + rewrite process_update_eq. cbn [proc_root four_processes].
      replace (scan four_processes ([], 0, 0) four_entries)
        with (Normal (four_scanned, 4, 2)) by (vm_compute; reflexivity).
      cbn [bind fst snd]. reflexivity.
    + unfold print_result, top5. cbn [snd processes_].
      rewrite <- firstn_map.
      rewrite (sorted_rss_values four_scanned [100; 50; 5; 1]); [reflexivity| |].
      * apply (SortFacts.insertion_sort_perm Z.gtb [5; 50; 1; 100]).
      * repeat constructor; lia.
  - eexists. split; [|split].
    + rewrite process_update_eq. cbn [proc_root seven_processes].
      replace (scan seven_processes ([], 0, 0) seven_entries)
        with (Normal (seven_scanned, 7, 1)) by (vm_compute; reflexivity).
      cbn [bind fst snd]. reflexivity.
    + cbn [processes_].
      rewrite <- (Permutation_length (std_sort_perm _ by_rss_desc seven_scanned)).
      reflexivity.
    + unfold print_result, top5. cbn [snd processes_].
      rewrite <- firstn_map.
      rewrite (sorted_rss_values seven_scanned [7; 6; 5; 4; 3; 2; 1]); [reflexivity| |].
      * apply (SortFacts.insertion_sort_perm Z.gtb [3; 1; 7; 2; 6; 4; 5]).
      * repeat constructor; lia.
Qed.

Lemma C6_witness :
  @update SortFacts.insertion_StdSort four_processes logger0 init
  = Normal (four_parsed, logger0) /\
  (proc_root four_processes = None -> Spec.rss_descending (processes_ init)) /\
  Spec.rss_descending (processes_ four_parsed) /\
  snd (print_result four_parsed) = firstn 5 (processes_ four_parsed) /\
  (length (snd (print_result four_parsed)) <= 5)%nat /\
  Spec.rss_descending (snd (print_result four_parsed)).
Proof.
  assert (U : @update SortFacts.insertion_StdSort four_processes logger0 init
              = Normal (four_parsed, logger0)) by (vm_compute; reflexivity).
  assert (N : proc_root four_processes = None -> Spec.rss_descending (processes_ init))
    by (intros E; discriminate E).
  split; [exact U|]. split; [exact N|].
  exact (proj1 (C6_sorted_and_top_five SortFacts.insertion_StdSort)
               four_processes logger0 init four_parsed logger0 U N).
Defined.

End ProcessClaims.

(** ** Exceptions across the collector boundary *)

Module ErrorFacts.
Import StringFacts.

Lemma raises_bind_normal {A B} (m : outcome A) (f : A -> B) :
  raises (x <- m ;; Normal (f x)) = raises m.
Proof. destruct m; reflexivity. Qed.

Lemma raises_update {T R} (v : Collector.vtable T R) k lg c :
  raises (Collector.update v k lg c)
  = raises (Collector.do_parse v k (snd (Collector.do_collect v k lg c))
                               (fst (Collector.do_collect v k lg c))).
Proof.
  unfold Collector.update. destruct (Collector.do_collect v k lg c) as [c1 lg1].
  cbn [fst snd]. apply raises_bind_normal.
Qed.


(** *** The four collectors that call no throwing function *)





Lemma network_never_raises k lg c : raises (NetworkCollector.update k lg c) = false.
Proof.
  unfold NetworkCollector.update. rewrite raises_update. cbn.
  rewrite raises_bind_normal, NetworkFacts.do_parse_spec. reflexivity.
Qed.

(** *** The two collectors that do *)



(** On a directory name made of digits, [std::stoi] throws exactly when
    the number is beyond [int]. *)
Lemma drop_while_head (p : ascii -> bool) c s :
  p c = false -> drop_while p (c :: s) = c :: s.
Proof. intros H. cbn [drop_while]. now rewrite H. Qed.

Lemma take_while_forall (p : ascii -> bool) s :
  forallb p s = true -> take_while p s = s.
Proof.
  induction s as [|c s IH]; cbn [forallb take_while]; [reflexivity|].
  intros H. apply andb_true_iff in H. destruct H as [Hc Hs].
  now rewrite Hc, (IH Hs).
Qed.

Lemma digit_is_no_space c : isdigit c = true -> isspace c = false.
Proof.
  unfold isdigit, isspace. intros H. apply andb_true_iff in H. destruct H as [H1 H2].
  apply N.leb_le in H1, H2.
  destruct (N.eqb_spec (N_of_ascii c) 32) as [E | E]; [lia|]. cbn [orb].
  destruct (N.leb_spec 9 (N_of_ascii c)) as [L | L]; [|reflexivity]. cbn [andb].
  apply N.leb_gt. lia.
Qed.

Lemma digit_is_no_sign c s : isdigit c = true -> strip_sign (c :: s) = (false, c :: s).
Proof.
  intros H. unfold strip_sign.
  destruct (Ascii.eqb_spec c "-") as [-> | N1]; [discriminate H|].
  destruct (Ascii.eqb_spec c "+") as [-> | N2]; [discriminate H|].
  destruct c as [[] [] [] [] [] [] [] []]; try reflexivity; congruence.
Qed.

Lemma stoi_pid name :
  ProcessCollector.is_pid name = true ->
  stoi name = if digits_val name >? INT_MAX then Throws out_of_range
              else Normal (digits_val name).
Proof.
  unfold ProcessCollector.is_pid. destruct name as [|c s]; [discriminate|].
  cbn [negb andb]. intros H.
  assert (Hc : isdigit c = true) by (cbn [forallb] in H; now apply andb_true_iff in H).
  unfold stoi.
  rewrite (drop_while_head isspace c s (digit_is_no_space c Hc)).
  rewrite (digit_is_no_sign c s Hc), (take_while_forall isdigit (c :: s) H).
  pose proof (StreamFacts.digits_val_nonneg (c :: s)) as P.
  rewrite (take_while_forall isdigit (c :: s) H) in P.
  destruct (digits_val (c :: s) <? INT_MIN) eqn:L.
  - apply Z.ltb_lt in L. unfold INT_MIN in L. lia.
  - reflexivity.
Qed.



Lemma process_unreadable_root `{StdSort} k lg c :
  proc_root k = None ->
  ProcessCollector.update k lg c
  = Normal (ProcessCollector.mk [] (ProcessCollector.processes_ c)
              (ProcessCollector.total_processes_ c)
              (ProcessCollector.running_processes_ c),
            LOG_ERROR (cannot_open PROC_PATH) lg).
Proof. intros E. rewrite ProcessFacts.process_update_eq, E. reflexivity. Qed.

(** *** The loop of a tick *)


End ErrorFacts.

(** ** Reads of locals that were never written *)

Module WrittenFacts.
Import StringFacts ErrorFacts Written.




(** *** A refused extraction refuses the following ones *)








(** *** The CPU collector *)



(** *** The memory collector *)




(** *** The disk collector *)




(** *** The network and the system collectors *)






(** *** The process collector *)







(** *** Where a tick stops *)


End WrittenFacts.

Module ErrorClaims.
Import ErrorFacts WrittenFacts Written Samples Malformed.




End ErrorClaims.

(** ** Refreshing from an unreachable source *)

Module RefreshFacts.
Import Main Refresh.

Lemma errors_LOG_ERROR msg lg :
  Logger.errors (LOG_ERROR msg lg) = Logger.errors lg ++ [msg].
Proof.
  unfold LOG_ERROR, Logger.log, Logger.errors.
  destruct lg as [lvl out err]. cbn [Logger.current_level_ Logger.cout Logger.cerr].
  destruct lvl; cbn; rewrite filter_app, map_app; reflexivity.
Qed.

(** *** CPU *)

Lemma cpu_calculate_idem c :
  CPUCollector.do_calculate (CPUCollector.do_calculate c) = CPUCollector.do_calculate c.
Proof.
  unfold CPUCollector.do_calculate at 2.
  destruct (CPUCollector.total_diff c >? 0) eqn:E.
  - unfold CPUCollector.do_calculate, CPUCollector.total_diff, CPUCollector.idle_diff
      in *. cbn. rewrite E. reflexivity.
  - unfold CPUCollector.do_calculate. rewrite E. reflexivity.
Qed.

Lemma cpu_settled_after k lg c c' lg' :
  CPUCollector.update k lg c = Normal (c', lg') -> cpu_settled c'.
Proof.
  rewrite CPUFacts.cpu_update_eq.
  generalize (fst (CPUCollector.do_collect k lg c)). intros c1.
  unfold CPUCollector.do_parse.
  destruct (CPUCollector.raw_data_ c1) as [|ch raw] eqn:R; cbn [bind].
  - intros H. inversion H; subst. unfold cpu_settled.
    assert (Rc : CPUCollector.raw_data_ (CPUCollector.do_calculate c1) = []).
    { unfold CPUCollector.do_calculate.
      destruct (CPUCollector.total_diff c1 >? 0); exact R. }
    rewrite Rc. now rewrite cpu_calculate_idem.
  - destruct (CPUCollector.extract_counters (ch :: raw)) as [s| |] eqn:E;
      cbn [bind]; try discriminate.
    intros H. inversion H; subst. unfold cpu_settled, CPUCollector.do_calculate.
    destruct (CPUCollector.total_diff _ >? 0); cbn; exists s; auto.
Qed.

Lemma cpu_unreachable k lg c :
  cpu_settled c -> file k CPU_PATH = None ->
  exists c',
    CPUCollector.update k lg c = Normal (c', LOG_ERROR (cannot_open CPU_PATH) lg) /\
    CPUCollector.get_usage c' = CPUCollector.get_usage c.
Proof.
  intros Hs Hf. rewrite CPUFacts.cpu_update_eq. unfold CPUCollector.do_collect.
  rewrite Hf. cbn [fst snd]. unfold cpu_settled in Hs.
  unfold CPUCollector.do_parse.
  destruct (CPUCollector.raw_data_ c) as [|ch raw] eqn:R; cbn [bind].
  - eexists. split; [reflexivity|]. exact Hs.
  - destruct Hs as [s [E [I T]]]. rewrite E. cbn [bind].
    eexists. split; [reflexivity|].
    unfold CPUCollector.get_usage, CPUCollector.do_calculate, CPUCollector.total_diff.
    cbn. rewrite T, Z.sub_diag. reflexivity.
Qed.

(** *** Memory *)

Lemma same_effect_line c d line c' :
  MemoryCollector.parse_line c line = Normal c' ->
  exists d', MemoryCollector.parse_line d line = Normal d' /\ same_effect c c' d d'.
Proof.
  unfold MemoryCollector.parse_line.
  destruct (extract_string (open line)) as [key s0].
  destruct (extract_u64 s0) as [value s1].
  destruct (extract_string s1) as [unit s2].
  repeat match goal with
         | |- context [if ?b then _ else _] => destruct b
         end;
    destruct value; cbn [read bind]; intros H; inversion H; subst;
    eexists; (split; [reflexivity|]); unfold same_effect; cbn; intuition.
Qed.

Lemma same_effect_trans c c1 c' d d1 d' :
  same_effect c c1 d d1 -> same_effect c1 c' d1 d' -> same_effect c c' d d'.
Proof.
  unfold same_effect. intros [P1 F1] [P2 F2].
  split; [intuition congruence|]. intuition congruence.
Qed.

Lemma same_effect_refl c d : same_effect c c d d.
Proof. unfold same_effect. intuition. Qed.

Lemma same_effect_lines lines : forall c d c',
  MemoryCollector.parse_lines c lines = Normal c' ->
  exists d', MemoryCollector.parse_lines d lines = Normal d' /\ same_effect c c' d d'.
Proof.
  induction lines as [|line rest IH]; intros c d c'; cbn [MemoryCollector.parse_lines].
  - intros H. inversion H; subst. exists d. split; [reflexivity | apply same_effect_refl].
  - destruct (MemoryCollector.parse_line c line) as [c1| |] eqn:E; cbn [bind];
      try discriminate.
    intros H. destruct (same_effect_line c d line c1 E) as [d1 [E1 S1]].
    destruct (IH c1 d1 c' H) as [d' [E' S']].
    exists d'. rewrite E1. cbn [bind]. split; [exact E'|].
    eapply same_effect_trans; eassumption.
Qed.

Lemma memory_settled_after k lg c c' lg' :
  MemoryCollector.update k lg c = Normal (c', lg') -> memory_settled c'.
Proof.
  rewrite MemoryFacts.memory_update_eq.
  generalize (fst (MemoryCollector.do_collect k lg c)). intros c1.
  unfold MemoryCollector.do_parse.
  destruct (MemoryCollector.parse_lines c1 (getlines (MemoryCollector.raw_data_ c1)))
    as [c2| |] eqn:P; cbn [bind]; try discriminate.
  intros H. inversion H; subst. clear H.
  destruct (same_effect_lines _ c1 (MemoryCollector.do_calculate c2) c2 P)
    as [d' [E S]].
  unfold memory_settled, MemoryCollector.do_parse.
  assert (Raw : MemoryCollector.raw_data_ (MemoryCollector.do_calculate c2)
                = MemoryCollector.raw_data_ c1).
  { destruct S as [[R _] _]. cbn. exact R. }
  rewrite Raw. exists d'. split; [exact E|].
  destruct S as [[R1 [R2 [U1 [U2 [P1 P2]]]]] [T [F [A [B C]]]]].
  cbn in R2, U2, P2, T, F, A, B, C.
  assert (Tq : MemoryCollector.total_kb_ d' = MemoryCollector.total_kb_ c2) by intuition congruence.
  assert (Fq : MemoryCollector.free_kb_ d' = MemoryCollector.free_kb_ c2) by intuition congruence.
  assert (Aq : MemoryCollector.available_kb_ d' = MemoryCollector.available_kb_ c2)
    by intuition congruence.
  assert (Bq : MemoryCollector.buffers_kb_ d' = MemoryCollector.buffers_kb_ c2)
    by intuition congruence.
  assert (Cq : MemoryCollector.cached_kb_ d' = MemoryCollector.cached_kb_ c2)
    by intuition congruence.
  unfold MemoryCollector.do_calculate.
  rewrite Tq, Fq, Aq, Bq, Cq, R2, P2. cbn.
  destruct (MemoryCollector.total_kb_ c2 >? 0); reflexivity.
Qed.

Lemma memory_unreachable k lg c :
  memory_settled c -> file k MEMORY_PATH = None ->
  MemoryCollector.update k lg c = Normal (c, LOG_ERROR (cannot_open MEMORY_PATH) lg).
Proof.
  intros [c2 [P C]] Hf. rewrite MemoryFacts.memory_update_eq.
  unfold MemoryCollector.do_collect. rewrite Hf. cbn [fst snd].
  rewrite P. cbn [bind]. now rewrite C.
Qed.

(** *** Disk and network: the record is a function of the raw text *)

Lemma disk_update_eq k lg c :
  DiskCollector.update k lg c =
  (c2 <- DiskCollector.do_parse (fst (DiskCollector.do_collect k lg c)) ;;
   Normal (c2, snd (DiskCollector.do_collect k lg c))).
Proof.
  unfold DiskCollector.update, Collector.update. cbn.
  destruct (DiskCollector.do_collect k lg c) as [c1 lg1]. cbn.
  destruct (DiskCollector.do_parse c1); reflexivity.
Qed.

Lemma disk_parse_idem c c' :
  DiskCollector.do_parse c = Normal c' -> DiskCollector.do_parse c' = Normal c'.
Proof.
  unfold DiskCollector.do_parse.
  destruct (DiskCollector.parse_lines [] (getlines (DiskCollector.raw_data_ c)))
    as [ds| |] eqn:P; cbn [bind]; try discriminate.
  intros H. inversion H; subst. cbn [DiskCollector.raw_data_]. rewrite P. reflexivity.
Qed.

Lemma disk_settled_after k lg c c' lg' :
  DiskCollector.update k lg c = Normal (c', lg') ->
  DiskCollector.do_parse c' = Normal c'.
Proof.
  rewrite disk_update_eq.
  destruct (DiskCollector.do_parse (fst (DiskCollector.do_collect k lg c)))
    as [c2| |] eqn:P; cbn [bind]; try discriminate.
  intros H. inversion H; subst. apply (disk_parse_idem _ _ P).
Qed.

Lemma disk_unreachable k lg c :
  DiskCollector.do_parse c = Normal c -> file k DISK_PATH = None ->
  DiskCollector.update k lg c = Normal (c, LOG_ERROR (cannot_open DISK_PATH) lg).
Proof.
  intros P Hf. rewrite disk_update_eq. unfold DiskCollector.do_collect.
  rewrite Hf. cbn [fst snd]. rewrite P. reflexivity.
Qed.

Lemma network_update_eq k lg c :
  NetworkCollector.update k lg c =
  (c2 <- NetworkCollector.do_parse (fst (NetworkCollector.do_collect k lg c)) ;;
   Normal (c2, snd (NetworkCollector.do_collect k lg c))).
Proof.
  unfold NetworkCollector.update, Collector.update. cbn.
  destruct (NetworkCollector.do_collect k lg c) as [c1 lg1]. cbn.
  destruct (NetworkCollector.do_parse c1); reflexivity.
Qed.

Lemma network_settled_after k lg c c' lg' :
  NetworkCollector.update k lg c = Normal (c', lg') ->
  NetworkCollector.do_parse c' = Normal c'.
Proof.
  rewrite network_update_eq, NetworkFacts.do_parse_spec. cbn [bind].
  intros H. inversion H; subst. rewrite NetworkFacts.do_parse_spec. reflexivity.
Qed.

Lemma network_unreachable k lg c :
  NetworkCollector.do_parse c = Normal c -> file k NETWORK_PATH = None ->
  NetworkCollector.update k lg c = Normal (c, LOG_ERROR (cannot_open NETWORK_PATH) lg).
Proof.
  intros P Hf. rewrite network_update_eq. unfold NetworkCollector.do_collect.
  rewrite Hf. cbn [fst snd]. rewrite P. reflexivity.
Qed.

(** *** System *)

Lemma system_update_eq k lg c :
  SystemCollector.update k lg c =
  (c2 <- SystemCollector.do_parse (fst (SystemCollector.do_collect k lg c)) ;;
   Normal (c2, lg)).
Proof.
  unfold SystemCollector.update, Collector.update. cbn.
  destruct (SystemCollector.do_parse _); reflexivity.
Qed.

Lemma or_keep_idem {A} (v : option A) (old : A) :
  SystemCollector.or_keep v (SystemCollector.or_keep v old) = SystemCollector.or_keep v old.
Proof. destruct v; reflexivity. Qed.

Lemma system_parse_idem c c' :
  SystemCollector.do_parse c = Normal c' -> SystemCollector.do_parse c' = Normal c'.
Proof.
  destruct c as [raw up l1 l5 l15 rt tt].
  unfold SystemCollector.do_parse. cbn [SystemCollector.raw_data_
    SystemCollector.uptime_seconds_ SystemCollector.load_1min_
    SystemCollector.load_5min_ SystemCollector.load_15min_
    SystemCollector.running_tasks_ SystemCollector.total_tasks_].
  destruct (extract_double (open raw)) as [v1 s1] eqn:E1.
  destruct (extract_double s1) as [v5 s5] eqn:E5.
  destruct (extract_double s5) as [v15 s15] eqn:E15.
  destruct (extract_string s15) as [running s] eqn:Er.
  destruct (find_char "/" (SystemCollector.or_keep running [])) as [p|] eqn:F.
  - destruct (substr_n _ 0 p) as [a| |] eqn:Sa; cbn [bind]; try discriminate.
    destruct (stoi a) as [ra| |] eqn:Ia; cbn [bind]; try discriminate.
    destruct (substr _ (p + 1)) as [b| |] eqn:Sb; cbn [bind]; try discriminate.
    destruct (stoi b) as [rb| |] eqn:Ib; cbn [bind]; try discriminate.
    intros H. inversion H; subst. cbn [SystemCollector.raw_data_
      SystemCollector.uptime_seconds_ SystemCollector.load_1min_
      SystemCollector.load_5min_ SystemCollector.load_15min_
      SystemCollector.running_tasks_ SystemCollector.total_tasks_].
    rewrite E1, E5, E15, Er, F, Sa. cbn [bind]. rewrite Ia. cbn [bind].
    rewrite Sb. cbn [bind]. rewrite Ib. cbn [bind].
    now rewrite !or_keep_idem.
  - intros H. inversion H; subst. cbn [SystemCollector.raw_data_
      SystemCollector.uptime_seconds_ SystemCollector.load_1min_
      SystemCollector.load_5min_ SystemCollector.load_15min_
      SystemCollector.running_tasks_ SystemCollector.total_tasks_].
    rewrite E1, E5, E15, Er, F. now rewrite !or_keep_idem.
Qed.

Lemma system_settled_after k lg c c' lg' :
  SystemCollector.update k lg c = Normal (c', lg') ->
  SystemCollector.do_parse c' = Normal c'.
Proof.
  rewrite system_update_eq.
  destruct (SystemCollector.do_parse (fst (SystemCollector.do_collect k lg c)))
    as [c2| |] eqn:P; cbn [bind]; try discriminate.
  intros H. inversion H; subst. apply (system_parse_idem _ _ P).
Qed.

(** The system collector returns and leaves its state, and the log, as
    they were. *)
Lemma system_unreachable k lg c :
  SystemCollector.do_parse c = Normal c ->
  file k UPTIME_PATH = None -> file k LOADAVG_PATH = None ->
  SystemCollector.update k lg c = Normal (c, lg).
Proof.
  intros P Hu Hl. rewrite system_update_eq. unfold SystemCollector.do_collect.
  rewrite Hu, Hl. cbn [fst]. destruct c. cbn. cbn in P. rewrite P. reflexivity.
Qed.

(** *** The six collectors together *)

Lemma settled_init c : In c create_all -> settled c.
Proof.
  unfold create_all. cbn [In].
  intros [<- | [<- | [<- | [<- | [<- | [<- | []]]]]]]; cbn [settled];
    try reflexivity.
  exists MemoryCollector.init. split; reflexivity.
Qed.

Lemma settled_after_update `{Srt : StdSort} k lg c c' lg' :
  update k lg c = Normal (c', lg') -> settled c'.
Proof.
  destruct c as [c | c | c | c | c | c]; cbn [update]; unfold lift; intros H.
  - destruct (SystemCollector.update k lg c) as [[c2 l2]| |] eqn:E; cbn [bind] in H;
      try discriminate. inversion H; subst. cbn. eapply system_settled_after, E.
  - destruct (CPUCollector.update k lg c) as [[c2 l2]| |] eqn:E; cbn [bind] in H;
      try discriminate. inversion H; subst. cbn. eapply cpu_settled_after, E.
  - destruct (MemoryCollector.update k lg c) as [[c2 l2]| |] eqn:E; cbn [bind] in H;
      try discriminate. inversion H; subst. cbn. eapply memory_settled_after, E.
  - destruct (DiskCollector.update k lg c) as [[c2 l2]| |] eqn:E; cbn [bind] in H;
      try discriminate. inversion H; subst. cbn. eapply disk_settled_after, E.
  - destruct (NetworkCollector.update k lg c) as [[c2 l2]| |] eqn:E; cbn [bind] in H;
      try discriminate. inversion H; subst. cbn. eapply network_settled_after, E.
  - rewrite ProcessFacts.process_update_eq in H.
    destruct (proc_root k) as [entries|].
    + destruct (ProcessCollector.scan k ([], 0, 0) entries) as [r| |];
        cbn [bind] in H; try discriminate. inversion H; subst. reflexivity.
    + cbn [bind] in H. inversion H; subst. reflexivity.
Qed.

Lemma reachable_settled `{Srt : StdSort} c : reachable c -> settled c.
Proof.
  induction 1 as [c I | k lg c c' lg' R IH U].
  - apply settled_init, I.
  - eapply settled_after_update, U.
Qed.

(** A refresh from an unreachable source, in a settled state. *)
Lemma unreachable_refresh `{Srt : StdSort} k lg c :
  settled c -> source_unreachable k c ->
  exists c',
    update k lg c
    = Normal (c', match c with
                  | CSystem _ => lg
                  | _ => LOG_ERROR (cannot_open (source_path c)) lg
                  end) /\
    print_result c' = print_result c.
Proof.
  destruct c as [c | c | c | c | c | c]; cbn [settled source_unreachable update source_path];
    unfold lift; intros Hs Hu.
  - destruct Hu as [Hu Hl]. rewrite (system_unreachable k lg c Hs Hu Hl).
    eexists. split; reflexivity.
  - destruct (cpu_unreachable k lg c Hs Hu) as [c' [E U]]. rewrite E.
    eexists. split; [reflexivity|]. cbn. now rewrite U.
  - rewrite (memory_unreachable k lg c Hs Hu). eexists. split; reflexivity.
  - rewrite (disk_unreachable k lg c Hs Hu). eexists. split; reflexivity.
  - rewrite (network_unreachable k lg c Hs Hu). eexists. split; reflexivity.
  - rewrite (ErrorFacts.process_unreadable_root k lg c Hu).
    eexists. split; reflexivity.
Qed.

Lemma update_same_kind `{Srt : StdSort} k lg c c' lg' :
  update k lg c = Normal (c', lg') -> same_kind c c'.
Proof.
  destruct c as [c | c | c | c | c | c]; cbn [update]; unfold lift;
    match goal with
    | |- context [bind ?m _] => destruct m as [[c2 l2]| |]
    end; cbn [bind]; intros E; inversion E; subst; exact I.
Qed.

Lemma same_kind_unreachable k c c' :
  same_kind c c' -> source_unreachable k c -> source_unreachable k c'.
Proof. destruct c, c'; cbn; intros K; try contradiction; auto. Qed.

Lemma same_kind_notices c c' : same_kind c c' -> failure_notices c' = failure_notices c.
Proof. destruct c, c'; cbn; intros K; try contradiction; reflexivity. Qed.

Lemma errors_after_failure lg c :
  Logger.errors match c with
                | CSystem _ => lg
                | _ => LOG_ERROR (cannot_open (source_path c)) lg
                end
  = Logger.errors lg ++ failure_notices c.
Proof.
  destruct c; cbn [failure_notices]; try apply errors_LOG_ERROR.
  now rewrite app_nil_r.
Qed.

End RefreshFacts.

Module RefreshClaims.
Import Main Refresh RefreshFacts Samples.

(** C3.  For a collector in a state left by construction or by a refresh,
    a refresh whose sources cannot be opened returns (it raises nothing),
    leaves what the collector shows as it was, and does so again when
    repeated; the CPU, memory, disk, network and process collectors log
    one error each time, whatever the level of the logger.  The system
    collector logs nothing: [do_collect] never touches the logger, and
    with both sources unreachable the collector as constructed is
    refreshed with no error logged, where the CPU collector logs
    "cannot open /proc/stat". *)
Theorem C3_refresh_from_unreachable_source :
  (forall (Srt : StdSort) k lg c,
     reachable c -> source_unreachable k c ->
     exists c1 lg1 c2 lg2,
       update k lg c = Normal (c1, lg1) /\
       update k lg1 c1 = Normal (c2, lg2) /\
       print_result c1 = print_result c /\
       print_result c2 = print_result c /\
       Logger.errors lg1 = Logger.errors lg ++ failure_notices c /\
       Logger.errors lg2 = Logger.errors lg1 ++ failure_notices c /\
       (failure_notices c = [] <-> same_kind c (CSystem SystemCollector.init))) /\
  (forall k lg c, snd (SystemCollector.do_collect k lg c) = lg) /\
  (forall (Srt : StdSort),
     update unreachable logger0 (CSystem SystemCollector.init)
     = Normal (CSystem SystemCollector.init, logger0) /\
     Logger.errors logger0 = [] /\
     exists lg1,
       update unreachable logger0 (CCPU CPUCollector.init)
       = Normal (CCPU CPUCollector.init, lg1) /\
       Logger.errors lg1 = [lit "cannot open /proc/stat"]).
Proof.
  split.
  { intros Srt k lg c Hr Hu.
    destruct (unreachable_refresh k lg c (reachable_settled c Hr) Hu) as [c1 [E1 P1]].
    pose proof (update_same_kind _ _ _ _ _ E1) as K1.
    assert (R1 : reachable c1) by (eapply reach_update; eassumption).
    set (lg1 := match c with
                | CSystem _ => lg
                | _ => LOG_ERROR (cannot_open (source_path c)) lg
                end) in *.
    destruct (unreachable_refresh k lg1 c1 (reachable_settled c1 R1)
                (same_kind_unreachable k c c1 K1 Hu)) as [c2 [E2 P2]].
    exists c1, lg1, c2. eexists.
    split; [exact E1|]. split; [exact E2|]. split; [exact P1|].
    split; [congruence|]. split; [apply errors_after_failure|].
    split; [rewrite errors_after_failure, (same_kind_notices c c1 K1); reflexivity|].
    destruct c; cbn; split; intros X; try discriminate X; try contradiction; auto. }
  split; [reflexivity|].
  intros Srt. split; [vm_compute; reflexivity|]. split; [reflexivity|].
  eexists. split; vm_compute; reflexivity.
Qed.

Lemma C3_witness :
  @reachable SortFacts.insertion_StdSort (CCPU (cpu_after cpu_half_idle CPUCollector.init)) /\
  source_unreachable unreachable (CCPU (cpu_after cpu_half_idle CPUCollector.init)) /\
  exists c1 lg1 c2 lg2,
    @update SortFacts.insertion_StdSort unreachable logger0
      (CCPU (cpu_after cpu_half_idle CPUCollector.init)) = Normal (c1, lg1) /\
    @update SortFacts.insertion_StdSort unreachable lg1 c1 = Normal (c2, lg2) /\
    print_result c1 = print_result (CCPU (cpu_after cpu_half_idle CPUCollector.init)) /\
    print_result c2 = print_result (CCPU (cpu_after cpu_half_idle CPUCollector.init)) /\
    Logger.errors lg1
    = Logger.errors logger0
      ++ failure_notices (CCPU (cpu_after cpu_half_idle CPUCollector.init)) /\
    Logger.errors lg2
    = Logger.errors lg1
      ++ failure_notices (CCPU (cpu_after cpu_half_idle CPUCollector.init)) /\
    (failure_notices (CCPU (cpu_after cpu_half_idle CPUCollector.init)) = [] <->
     same_kind (CCPU (cpu_after cpu_half_idle CPUCollector.init))
               (CSystem SystemCollector.init)).
Proof.
  assert (R : @reachable SortFacts.insertion_StdSort
                (CCPU (cpu_after cpu_half_idle CPUCollector.init))).
  { apply (@reach_update SortFacts.insertion_StdSort cpu_half_idle logger0
             (CCPU CPUCollector.init) _ logger0).
    - apply reach_init. right. left. reflexivity.
    - vm_compute. reflexivity. }
  assert (U : source_unreachable unreachable
                (CCPU (cpu_after cpu_half_idle CPUCollector.init))) by reflexivity.
  split; [exact R|]. split; [exact U|].
  exact (proj1 C3_refresh_from_unreachable_source SortFacts.insertion_StdSort
           unreachable logger0 _ R U).
Defined.

End RefreshClaims.

(** ** The event loop *)

Module LoopFacts.
Import Main Refresh RefreshFacts Invariants.

Lemma tick_loop_unfold `{Srt : StdSort} k cs : forall lg,
  tick_loop k lg cs =
  (r <- update_all k lg cs ;; Normal (fst r, snd r, map print_result (fst r))).
Proof.
  induction cs as [|c rest IH]; intros lg; cbn [tick_loop update_all].
  - reflexivity.
  - destruct (update k lg c) as [[c1 lg1]| |]; cbn [bind fst snd]; try reflexivity.
    rewrite IH. destruct (update_all k lg1 rest) as [[cs' lg']| |]; reflexivity.
Qed.

Lemma update_all_kinds `{Srt : StdSort} k cs : forall lg cs' lg',
  update_all k lg cs = Normal (cs', lg') -> Forall2 same_kind cs cs'.
Proof.
  induction cs as [|c rest IH]; intros lg cs' lg'; cbn [update_all].
  - intros E. injection E as <- _. constructor.
  - destruct (update k lg c) as [[c1 lg1]| |] eqn:U; cbn [bind fst snd]; try discriminate.
    destruct (update_all k lg1 rest) as [[cs1 lg2]| |] eqn:A; cbn [bind fst snd];
      try discriminate.
    intros E. injection E as <- _. constructor.
    + eapply update_same_kind; eassumption.
    + eapply IH; eassumption.
Qed.

Lemma same_kind_trans c1 c2 c3 : same_kind c1 c2 -> same_kind c2 c3 -> same_kind c1 c3.
Proof. destruct c1, c2, c3; cbn; tauto. Qed.

Lemma kinds_trans l1 : forall l2 l3,
  Forall2 same_kind l1 l2 -> Forall2 same_kind l2 l3 -> Forall2 same_kind l1 l3.
Proof.
  induction l1 as [|a l1 IH]; intros l2 l3 H12 H23; inversion H12; subst;
    inversion H23; subst; constructor.
  - eapply same_kind_trans; eassumption.
  - eapply IH; eassumption.
Qed.

Lemma tick_kinds `{Srt : StdSort} k p p' :
  tick k p = Normal p' ->
  Forall2 same_kind (collectors p) (collectors p') /\
  screen p' = map print_result (collectors p').
Proof.
  unfold tick. rewrite tick_loop_unfold.
  destruct (update_all k (logger p) (collectors p)) as [[cs lg]| |] eqn:A;
    cbn [bind fst snd]; try discriminate.
  intros E. injection E as <-. cbn [collectors screen]. split; [|reflexivity].
  eapply update_all_kinds; eassumption.
Qed.

Lemma ticks_kinds `{Srt : StdSort} ks : forall p p',
  ticks ks p = Normal p' ->
  Forall2 same_kind (collectors p) (collectors p') /\
  (ks <> [] -> screen p' = map print_result (collectors p')).
Proof.
  induction ks as [|k rest IH]; intros p p'; cbn [ticks].
  - intros E. injection E as <-. split; [|congruence].
    induction (collectors p) as [|c l IHl]; constructor; [destruct c; exact I|exact IHl].
  - destruct (tick k p) as [p1| |] eqn:T; cbn [bind]; try discriminate.
    intros E. destruct (tick_kinds _ _ _ T) as [K1 S1].
    destruct (IH _ _ E) as [K2 S2]. split.
    + eapply kinds_trans; eassumption.
    + intros _. destruct rest as [|k2 rest]; [|apply S2; discriminate].
      cbn [ticks] in E. injection E as <-. exact S1.
Qed.

Lemma kinds_after_startup `{Srt : StdSort} k0 ks p0 p :
  startup k0 = Normal p0 ->
  ticks ks p0 = Normal p ->
  exists s c m d n pr,
    collectors p = [CSystem s; CCPU c; CMemory m; CDisk d; CNetwork n; CProcess pr].
Proof.
  intros S T. unfold startup in S.
  destruct (update_all k0 _ create_all) as [[cs lg]| |] eqn:A; cbn [bind fst snd] in S;
    try discriminate.
  injection S as <-.
  apply update_all_kinds in A.
  destruct (ticks_kinds _ _ _ T) as [K _]. cbn [collectors] in K.
  pose proof (kinds_trans _ _ _ A K) as K'. clear A K.
  unfold create_all in K'.
  repeat match goal with
         | H : Forall2 _ (_ :: _) _ |- _ => inversion H; clear H; subst
         | H : Forall2 _ [] _ |- _ => inversion H; clear H; subst
         end.
  repeat match goal with
         | H : same_kind _ ?c |- _ => destruct c; cbn in H; try contradiction; clear H
         end.
  do 6 eexists. reflexivity.
Qed.


(** X2: after start-up and any number of timer events the program holds
    six collectors, in the order of the registrations (system, CPU,
    memory, disk, network, process); once an event has been served the
    screen holds their six reports in that order. *)
Theorem registration_order_kept :
  forall (Srt : StdSort) k0 ks p0 p,
    startup k0 = Normal p0 ->
    ticks ks p0 = Normal p ->
    exists s c m d n pr,
      collectors p = [CSystem s; CCPU c; CMemory m; CDisk d; CNetwork n; CProcess pr] /\
      (ks <> [] ->
       screen p = [RSystem (SystemCollector.print_result s);
                   RCPU (CPUCollector.get_usage c);
                   RMemory (MemoryCollector.print_result m);
                   RDisk (DiskCollector.print_result d);
                   RNetwork (NetworkCollector.print_result n);
                   RProcess (ProcessCollector.print_result pr)]).
Proof.
  intros Srt k0 ks p0 p S T.
  destruct (kinds_after_startup k0 ks p0 p S T) as (s & c & m & d & n & pr & Cs).
  exists s, c, m, d, n, pr. split; [exact Cs|].
  intros N. destruct (ticks_kinds _ _ _ T) as [_ Sc].
  rewrite (Sc N), Cs. reflexivity.
Qed.

Lemma registration_order_kept_witness :
  @startup SortFacts.insertion_StdSort Samples.unreachable = Normal Runs.started_blind /\
  @ticks SortFacts.insertion_StdSort [Samples.unreachable] Runs.started_blind
  = Normal Runs.ticked_blind /\
  exists s c m d n pr,
    collectors Runs.ticked_blind
    = [CSystem s; CCPU c; CMemory m; CDisk d; CNetwork n; CProcess pr] /\
    ([Samples.unreachable] <> [] ->
     screen Runs.ticked_blind
     = [RSystem (SystemCollector.print_result s);
        RCPU (CPUCollector.get_usage c);
        RMemory (MemoryCollector.print_result m);
        RDisk (DiskCollector.print_result d);
        RNetwork (NetworkCollector.print_result n);
        RProcess (ProcessCollector.print_result pr)]).
Proof.
  assert (S : @startup SortFacts.insertion_StdSort Samples.unreachable
              = Normal Runs.started_blind) by (vm_compute; reflexivity).
  assert (T : @ticks SortFacts.insertion_StdSort [Samples.unreachable] Runs.started_blind
              = Normal Runs.ticked_blind) by (vm_compute; reflexivity).
  split; [exact S|]. split; [exact T|].
  exact (registration_order_kept SortFacts.insertion_StdSort Samples.unreachable
           [Samples.unreachable] _ _ S T).
Defined.

Lemma update_logger `{Srt : StdSort} k lg c c' lg' :
  update k lg c = Normal (c', lg') ->
  lg' = lg \/
  exists path, In path [CPU_PATH; MEMORY_PATH; DISK_PATH; NETWORK_PATH; PROC_PATH] /\
               lg' = LOG_ERROR (cannot_open path) lg.
Proof.
  destruct c as [c|c|c|c|c|c]; cbn [update]; unfold lift.
  - rewrite system_update_eq.
    destruct (SystemCollector.do_parse _); cbn [bind fst snd]; try discriminate.
    intros E. injection E as _ <-. left. reflexivity.
  - rewrite CPUFacts.cpu_update_eq. unfold CPUCollector.do_collect.
    destruct (file k CPU_PATH); cbn [fst snd];
      destruct (CPUCollector.do_parse _); cbn [bind fst snd]; try discriminate;
      intros E; injection E as _ <-; [left; reflexivity|].
    right. exists CPU_PATH. split; [cbn; tauto|reflexivity].
  - rewrite MemoryFacts.memory_update_eq. unfold MemoryCollector.do_collect.
    destruct (file k MEMORY_PATH); cbn [fst snd];
      destruct (MemoryCollector.do_parse _); cbn [bind fst snd]; try discriminate;
      intros E; injection E as _ <-; [left; reflexivity|].
    right. exists MEMORY_PATH. split; [cbn; tauto|reflexivity].
  - rewrite disk_update_eq. unfold DiskCollector.do_collect.
    destruct (file k DISK_PATH); cbn [fst snd];
      destruct (DiskCollector.do_parse _); cbn [bind fst snd]; try discriminate;
      intros E; injection E as _ <-; [left; reflexivity|].
    right. exists DISK_PATH. split; [cbn; tauto|reflexivity].
  - rewrite network_update_eq. unfold NetworkCollector.do_collect.
    destruct (file k NETWORK_PATH); cbn [fst snd];
      destruct (NetworkCollector.do_parse _); cbn [bind fst snd]; try discriminate;
      intros E; injection E as _ <-; [left; reflexivity|].
    right. exists NETWORK_PATH. split; [cbn; tauto|reflexivity].
  - rewrite ProcessFacts.process_update_eq.
    destruct (proc_root k).
    + destruct (ProcessCollector.scan _ _ _); cbn [bind fst snd]; try discriminate.
      intros E. injection E as _ <-. left. reflexivity.
    + intros E. injection E as _ <-.
      right. exists PROC_PATH. split; [cbn; tauto|reflexivity].
Qed.

Lemma only_failed_opens_update `{Srt : StdSort} k lg c c' lg' :
  update k lg c = Normal (c', lg') -> only_failed_opens lg -> only_failed_opens lg'.
Proof.
  intros U (L & O & E). destruct (update_logger _ _ _ _ _ U) as [->|(path & P & ->)].
  - repeat split; assumption.
  - unfold LOG_ERROR, Logger.log. rewrite L. cbn [Logger.rank Z.ltb Z.geb Z.compare].
    cbn [Logger.current_level_ Logger.cout Logger.cerr].
    repeat split; try assumption.
    apply Forall_app. split; [assumption|]. constructor; [|constructor].
    cbn [fst snd]. split; [reflexivity|]. apply in_map. exact P.
Qed.

Lemma only_failed_opens_update_all `{Srt : StdSort} k cs : forall lg cs' lg',
  update_all k lg cs = Normal (cs', lg') -> only_failed_opens lg -> only_failed_opens lg'.
Proof.
  induction cs as [|c rest IH]; intros lg cs' lg'; cbn [update_all].
  - intros E. injection E as _ <-. auto.
  - destruct (update k lg c) as [[c1 lg1]| |] eqn:U; cbn [bind fst snd]; try discriminate.
    destruct (update_all k lg1 rest) as [[cs1 lg2]| |] eqn:A; cbn [bind fst snd];
      try discriminate.
    intros E Q. injection E as _ <-.
    eapply IH; [eassumption|]. eapply only_failed_opens_update; eassumption.
Qed.

Lemma only_failed_opens_ticks `{Srt : StdSort} ks : forall p p',
  ticks ks p = Normal p' -> only_failed_opens (logger p) -> only_failed_opens (logger p').
Proof.
  induction ks as [|k rest IH]; intros p p'; cbn [ticks].
  - intros E. injection E as <-. auto.
  - destruct (tick k p) as [p1| |] eqn:T; cbn [bind]; try discriminate.
    intros E Q. eapply IH; [eassumption|].
    unfold tick in T. rewrite tick_loop_unfold in T.
    destruct (update_all k (logger p) (collectors p)) as [[cs lg]| |] eqn:A;
      cbn [bind fst snd] in T; try discriminate.
    injection T as <-. cbn [logger].
    eapply only_failed_opens_update_all; eassumption.
Qed.

(** X3: from start-up on and through any number of timer events, the
    logger keeps the level [WARNING] that [main] sets, writes nothing to
    the standard output (the start-up [INFO] line included), and writes
    to the standard error only [ERROR] lines that report a failed open
    of one of the five paths the collectors log. *)
Theorem logger_only_reports_failed_opens :
  forall (Srt : StdSort) k0 ks p0 p,
    startup k0 = Normal p0 ->
    ticks ks p0 = Normal p ->
    Logger.current_level_ (logger p) = Logger.WARNING /\
    Logger.cout (logger p) = [] /\
    Forall (fun e => fst e = Logger.ERROR /\
                     In (snd e) (map cannot_open
                                   [CPU_PATH; MEMORY_PATH; DISK_PATH; NETWORK_PATH;
                                    PROC_PATH]))
           (Logger.cerr (logger p)).
Proof.
  intros Srt k0 ks p0 p S T.
  apply (only_failed_opens_ticks ks p0 p T).
  unfold startup in S.
  destruct (update_all k0 _ create_all) as [[cs lg]| |] eqn:A; cbn [bind fst snd] in S;
    try discriminate.
  injection S as <-. cbn [logger].
  assert (Q : only_failed_opens lg).
  { eapply only_failed_opens_update_all; [eassumption|].
    repeat split; constructor. }
  destruct Q as (L & O & E). unfold LOG_INFO, Logger.log. rewrite L.
  cbn [Logger.rank Z.ltb Z.geb Z.compare]. repeat split; assumption.
Qed.

Lemma logger_only_reports_failed_opens_witness :
  @startup SortFacts.insertion_StdSort Samples.unreachable = Normal Runs.started_blind /\
  @ticks SortFacts.insertion_StdSort [Samples.unreachable] Runs.started_blind
  = Normal Runs.ticked_blind /\
  Logger.current_level_ (logger Runs.ticked_blind) = Logger.WARNING /\
  Logger.cout (logger Runs.ticked_blind) = [] /\
  Forall (fun e => fst e = Logger.ERROR /\
                   In (snd e) (map cannot_open
                                 [CPU_PATH; MEMORY_PATH; DISK_PATH; NETWORK_PATH;
                                  PROC_PATH]))
         (Logger.cerr (logger Runs.ticked_blind)).
Proof.
  assert (S : @startup SortFacts.insertion_StdSort Samples.unreachable
              = Normal Runs.started_blind) by (vm_compute; reflexivity).
  assert (T : @ticks SortFacts.insertion_StdSort [Samples.unreachable] Runs.started_blind
              = Normal Runs.ticked_blind) by (vm_compute; reflexivity).
  split; [exact S|]. split; [exact T|].
  exact (logger_only_reports_failed_opens SortFacts.insertion_StdSort Samples.unreachable
           [Samples.unreachable] _ _ S T).
Defined.

End LoopFacts.

(** ** A second refresh from the same sources *)

Module RepeatFacts.
Import Main Refresh RefreshFacts.

Lemma cpu_raw_after k lg c c' lg' content :
  CPUCollector.update k lg c = Normal (c', lg') ->
  file k CPU_PATH = Some content ->
  CPUCollector.raw_data_ c' = first_line content.
Proof.
  rewrite CPUFacts.cpu_update_eq. unfold CPUCollector.do_collect. intros U F.
  rewrite F in U. cbn [fst snd] in U. unfold CPUCollector.do_parse in U.
  cbn [CPUCollector.set_raw CPUCollector.raw_data_] in U.
  destruct (first_line content) as [|ch raw] eqn:R; cbn [bind] in U.
  - injection U as <- _. unfold CPUCollector.do_calculate.
    destruct (_ >? 0); reflexivity.
  - destruct (CPUCollector.extract_counters (ch :: raw)); cbn [bind] in U;
      try discriminate.
    injection U as <- _. unfold CPUCollector.do_calculate.
    destruct (_ >? 0); reflexivity.
Qed.

Lemma cpu_repeat k lg c c1 lg1 :
  CPUCollector.update k lg c = Normal (c1, lg1) ->
  exists c2 lg2,
    CPUCollector.update k lg1 c1 = Normal (c2, lg2) /\
    CPUCollector.get_usage c2 = CPUCollector.get_usage c1.
Proof.
  intros U. pose proof (cpu_settled_after _ _ _ _ _ U) as Hs.
  destruct (file k CPU_PATH) as [content|] eqn:F.
  - pose proof (cpu_raw_after _ _ _ _ _ _ U F) as R.
    rewrite CPUFacts.cpu_update_eq. unfold CPUCollector.do_collect. rewrite F.
    cbn [fst snd]. unfold cpu_settled in Hs. unfold CPUCollector.do_parse.
    cbn [CPUCollector.set_raw CPUCollector.raw_data_].
    rewrite <- R. destruct (CPUCollector.raw_data_ c1) as [|ch raw] eqn:R1; cbn [bind].
    + do 2 eexists. split; [reflexivity|].
      unfold CPUCollector.get_usage. rewrite <- Hs.
      unfold CPUCollector.do_calculate, CPUCollector.total_diff, CPUCollector.idle_diff.
      cbn. destruct (_ >? 0); reflexivity.
    + destruct Hs as [s [E [I T]]]. rewrite E. cbn [bind].
      do 2 eexists. split; [reflexivity|].
      unfold CPUCollector.get_usage, CPUCollector.do_calculate, CPUCollector.total_diff.
      cbn. rewrite T, Z.sub_diag. reflexivity.
  - destruct (cpu_unreachable k lg1 c1 Hs F) as [c2 [U2 G]]. eauto.
Qed.

Lemma memory_parse_raw lines : forall c c',
  MemoryCollector.parse_lines c lines = Normal c' ->
  MemoryCollector.raw_data_ c' = MemoryCollector.raw_data_ c.
Proof.
  intros c c' P. destruct (same_effect_lines _ c c c' P) as [d' [_ S]].
  destruct S as [[R _] _]. exact R.
Qed.

Lemma memory_repeat k lg c c1 lg1 :
  MemoryCollector.update k lg c = Normal (c1, lg1) ->
  exists lg2, MemoryCollector.update k lg1 c1 = Normal (c1, lg2).
Proof.
  intros U. pose proof (memory_settled_after _ _ _ _ _ U) as Hs.
  destruct (file k MEMORY_PATH) as [content|] eqn:F.
  - assert (R : MemoryCollector.raw_data_ c1 = content).
    { revert U. rewrite MemoryFacts.memory_update_eq. unfold MemoryCollector.do_collect.
      rewrite F. cbn [fst snd]. unfold MemoryCollector.do_parse.
      destruct (MemoryCollector.parse_lines _ _) as [c2| |] eqn:P; cbn [bind];
        try discriminate.
      intros E. injection E as <- _. apply memory_parse_raw in P.
      cbn in P |- *. exact P. }
    destruct Hs as [c2 [P C]]. exists lg1.
    rewrite MemoryFacts.memory_update_eq. unfold MemoryCollector.do_collect. rewrite F.
    cbn [fst snd]. rewrite <- R.
    replace (MemoryCollector.mk _ _ _ _ _ _ _ _) with c1 by (destruct c1; reflexivity).
    rewrite P. cbn [bind]. now rewrite C.
  - eexists. apply memory_unreachable; assumption.
Qed.

Lemma disk_repeat k lg c c1 lg1 :
  DiskCollector.update k lg c = Normal (c1, lg1) ->
  exists lg2, DiskCollector.update k lg1 c1 = Normal (c1, lg2).
Proof.
  intros U. pose proof (disk_settled_after _ _ _ _ _ U) as Hs.
  destruct (file k DISK_PATH) as [content|] eqn:F.
  - assert (R : DiskCollector.raw_data_ c1 = content).
    { revert U. rewrite disk_update_eq. unfold DiskCollector.do_collect.
      rewrite F. cbn [fst snd]. unfold DiskCollector.do_parse.
      destruct (DiskCollector.parse_lines _ _); cbn [bind]; try discriminate.
      intros E. injection E as <- _. reflexivity. }
    exists lg1. rewrite disk_update_eq. unfold DiskCollector.do_collect. rewrite F.
    cbn [fst snd]. rewrite <- R.
    replace (DiskCollector.mk _ _) with c1 by (destruct c1; reflexivity).
    rewrite Hs. reflexivity.
  - eexists. apply disk_unreachable; assumption.
Qed.

Lemma network_repeat k lg c c1 lg1 :
  NetworkCollector.update k lg c = Normal (c1, lg1) ->
  exists lg2, NetworkCollector.update k lg1 c1 = Normal (c1, lg2).
Proof.
  intros U. pose proof (network_settled_after _ _ _ _ _ U) as Hs.
  destruct (file k NETWORK_PATH) as [content|] eqn:F.
  - assert (R : NetworkCollector.raw_data_ c1 = content).
    { revert U. rewrite network_update_eq. unfold NetworkCollector.do_collect.
      rewrite F. cbn [fst snd]. unfold NetworkCollector.do_parse.
      destruct (NetworkCollector.parse_lines _ _ _); cbn [bind]; try discriminate.
      intros E. injection E as <- _. reflexivity. }
    exists lg1. rewrite network_update_eq. unfold NetworkCollector.do_collect. rewrite F.
    cbn [fst snd]. rewrite <- R.
    replace (NetworkCollector.mk _ _) with c1 by (destruct c1; reflexivity).
    rewrite Hs. reflexivity.
  - eexists. apply network_unreachable; assumption.
Qed.

Lemma system_parse_keeps c c' :
  SystemCollector.do_parse c = Normal c' ->
  SystemCollector.raw_data_ c' = SystemCollector.raw_data_ c /\
  SystemCollector.uptime_seconds_ c' = SystemCollector.uptime_seconds_ c.
Proof.
  unfold SystemCollector.do_parse.
  destruct (extract_double (open (SystemCollector.raw_data_ c))) as [l1 s1].
  destruct (extract_double s1) as [l5 s5].
  destruct (extract_double s5) as [l15 s15].
  destruct (extract_string s15) as [running s4].
  destruct (find_char "/" _) as [p|].
  - destruct (substr_n _ _ _); cbn [bind]; try discriminate.
    destruct (stoi _); cbn [bind]; try discriminate.
    destruct (substr _ _); cbn [bind]; try discriminate.
    destruct (stoi _); cbn [bind]; try discriminate.
    intros E. injection E as <-. split; reflexivity.
  - intros E. injection E as <-. split; reflexivity.
Qed.

Lemma system_repeat k lg c c1 lg1 :
  SystemCollector.update k lg c = Normal (c1, lg1) ->
  SystemCollector.update k lg1 c1 = Normal (c1, lg1).
Proof.
  intros U. pose proof (system_settled_after _ _ _ _ _ U) as Hs.
  revert U. rewrite !system_update_eq.
  destruct (SystemCollector.do_parse (fst (SystemCollector.do_collect k lg c)))
    as [c2| |] eqn:P; cbn [bind]; try discriminate.
  intros E. injection E as <- <-.
  destruct (system_parse_keeps _ _ P) as [R T].
  assert (D : fst (SystemCollector.do_collect k lg c2) = c2).
  { unfold SystemCollector.do_collect in *. cbn [fst] in *.
    cbn [SystemCollector.raw_data_ SystemCollector.uptime_seconds_] in R, T.
    destruct c2 as [raw up a b d e f].
    cbn [SystemCollector.raw_data_ SystemCollector.uptime_seconds_
         SystemCollector.load_1min_ SystemCollector.load_5min_
         SystemCollector.load_15min_ SystemCollector.running_tasks_
         SystemCollector.total_tasks_] in *.
    f_equal.
    - destruct (file k LOADAVG_PATH); congruence.
    - destruct (file k UPTIME_PATH); [|reflexivity].
      rewrite T. apply or_keep_idem. }
  rewrite D, Hs. reflexivity.
Qed.

Lemma process_repeat `{Srt : StdSort} k lg c c1 lg1 :
  ProcessCollector.update k lg c = Normal (c1, lg1) ->
  exists lg2, ProcessCollector.update k lg1 c1 = Normal (c1, lg2).
Proof.
  rewrite !ProcessFacts.process_update_eq. destruct (proc_root k) as [entries|].
  - destruct (ProcessCollector.scan k _ entries) as [r| |]; cbn [bind]; try discriminate.
    intros E. injection E as <- <-. eexists. reflexivity.
  - intros E. injection E as <- <-. eexists. reflexivity.
Qed.

(** X4: a refresh that returned can be repeated on the same state of
    the sources: the second one returns too and shows the same report.
    For every collector but the CPU one, whose previous sample moves on,
    the whole record is the same. *)
Theorem refresh_twice_shows_the_same :
  forall (Srt : StdSort) k lg c c1 lg1,
    update k lg c = Normal (c1, lg1) ->
    exists c2 lg2,
      update k lg1 c1 = Normal (c2, lg2) /\
      print_result c2 = print_result c1 /\
      match c1 with CCPU _ => True | _ => c2 = c1 end.
Proof.
  intros Srt k lg c c1 lg1.
  destruct c as [c|c|c|c|c|c]; cbn [update]; unfold lift.
  - destruct (SystemCollector.update k lg c) as [[d l]| |] eqn:U; cbn [bind fst snd];
      try discriminate.
    intros E. injection E as <- <-. apply system_repeat in U.
    cbn [update]. unfold lift. rewrite U. cbn [bind fst snd]. eauto.
  - destruct (CPUCollector.update k lg c) as [[d l]| |] eqn:U; cbn [bind fst snd];
      try discriminate.
    intros E. injection E as <- <-. destruct (cpu_repeat _ _ _ _ _ U) as (c2 & lg2 & U2 & G).
    cbn [update]. unfold lift. rewrite U2. cbn [bind fst snd].
    do 2 eexists. split; [reflexivity|]. split; [|exact I].
    cbn [print_result]. now rewrite G.
  - destruct (MemoryCollector.update k lg c) as [[d l]| |] eqn:U; cbn [bind fst snd];
      try discriminate.
    intros E. injection E as <- <-. destruct (memory_repeat _ _ _ _ _ U) as (lg2 & U2).
    cbn [update]. unfold lift. rewrite U2. cbn [bind fst snd]. eauto.
  - destruct (DiskCollector.update k lg c) as [[d l]| |] eqn:U; cbn [bind fst snd];
      try discriminate.
    intros E. injection E as <- <-. destruct (disk_repeat _ _ _ _ _ U) as (lg2 & U2).
    cbn [update]. unfold lift. rewrite U2. cbn [bind fst snd]. eauto.
  - destruct (NetworkCollector.update k lg c) as [[d l]| |] eqn:U; cbn [bind fst snd];
      try discriminate.
    intros E. injection E as <- <-. destruct (network_repeat _ _ _ _ _ U) as (lg2 & U2).
    cbn [update]. unfold lift. rewrite U2. cbn [bind fst snd]. eauto.
  - destruct (ProcessCollector.update k lg c) as [[d l]| |] eqn:U; cbn [bind fst snd];
      try discriminate.
    intros E. injection E as <- <-. destruct (process_repeat _ _ _ _ _ U) as (lg2 & U2).
    cbn [update]. unfold lift. rewrite U2. cbn [bind fst snd]. eauto.
Qed.

Lemma refresh_twice_shows_the_same_witness :
  @update SortFacts.insertion_StdSort Samples.good_sources Samples.logger0
    (CMemory MemoryCollector.init)
  = Normal (CMemory (Samples.mem_after Samples.good_sources MemoryCollector.init),
            Samples.logger0) /\
  exists c2 lg2,
    @update SortFacts.insertion_StdSort Samples.good_sources Samples.logger0
      (CMemory (Samples.mem_after Samples.good_sources MemoryCollector.init))
    = Normal (c2, lg2) /\
    print_result c2
    = print_result (CMemory (Samples.mem_after Samples.good_sources MemoryCollector.init)) /\
    c2 = CMemory (Samples.mem_after Samples.good_sources MemoryCollector.init).
Proof.
  assert (U : @update SortFacts.insertion_StdSort Samples.good_sources Samples.logger0
                (CMemory MemoryCollector.init)
              = Normal (CMemory (Samples.mem_after Samples.good_sources
                                   MemoryCollector.init),
                        Samples.logger0)) by (vm_compute; reflexivity).
  split; [exact U|].
  exact (refresh_twice_shows_the_same SortFacts.insertion_StdSort _ _ _ _ _ U).
Defined.

End RepeatFacts.

(** ** The CPU collector over several refreshes *)

Module CPUSeries.
Import CPUCollector CPUFacts Binary64Facts.

Lemma calculate_fields c :
  prev_idle_ (do_calculate c) = prev_idle_ c /\
  prev_total_ (do_calculate c) = prev_total_ c /\
  curr_idle_ (do_calculate c) = curr_idle_ c /\
  curr_total_ (do_calculate c) = curr_total_ c /\
  raw_data_ (do_calculate c) = raw_data_ c.
Proof. unfold do_calculate. destruct (total_diff c >? 0); repeat split. Qed.

Lemma wrap_idem x : wrap 64 (wrap 64 x) = wrap 64 x.
Proof. unfold wrap. apply Z.mod_mod. lia. Qed.

Lemma ticks_range s : 0 <= idle_ticks s < 2 ^ 64 /\ 0 <= total_ticks s < 2 ^ 64.
Proof. unfold idle_ticks, total_ticks, wrap. split; apply Z.mod_pos_bound; lia. Qed.

(** X5: a refresh moves the current sample to the previous one and reads
    a new one.  A refresh whose source cannot be opened parses the line
    it kept again, which makes both samples equal; the next refresh that
    can read the source therefore measures from the last sample read,
    across the gap. *)
Theorem cpu_measures_across_a_failed_refresh :
  forall k1 k2 k3 lg c content1 s1 content3 s3,
    file k1 CPU_PATH = Some content1 ->
    extract_counters (first_line content1) = Normal s1 ->
    file k2 CPU_PATH = None ->
    file k3 CPU_PATH = Some content3 ->
    extract_counters (first_line content3) = Normal s3 ->
    exists c1 c2 c3 lg2,
      update k1 lg c = Normal (c1, lg) /\
      update k2 lg c1 = Normal (c2, lg2) /\
      update k3 lg2 c2 = Normal (c3, lg2) /\
      (prev_total_ c1 = curr_total_ c /\ prev_idle_ c1 = curr_idle_ c /\
       curr_total_ c1 = total_ticks s1 /\ curr_idle_ c1 = idle_ticks s1) /\
      (prev_total_ c2 = total_ticks s1 /\ curr_total_ c2 = total_ticks s1 /\
       usage_percent_ c2 = usage_percent_ c1) /\
      (prev_total_ c3 = total_ticks s1 /\ prev_idle_ c3 = idle_ticks s1 /\
       curr_total_ c3 = total_ticks s3 /\ curr_idle_ c3 = idle_ticks s3).
Proof.
  intros k1 k2 k3 lg c content1 s1 content3 s3 F1 E1 F2 F3 E3.
  pose proof (update_readable k1 lg c _ _ F1 E1) as U1.
  set (c1 := do_calculate _) in U1.
  destruct (calculate_fields
              (mk (first_line content1) (curr_idle_ c) (curr_total_ c)
                  (idle_ticks s1) (total_ticks s1) (usage_percent_ c)))
    as (A1 & A2 & A3 & A4 & A5).
  fold c1 in A1, A2, A3, A4, A5. cbn in A1, A2, A3, A4, A5.
  pose proof (extract_counters_nonempty _ _ E1) as N1.
  assert (U2 : exists c2,
             update k2 lg c1 = Normal (c2, LOG_ERROR (cannot_open CPU_PATH) lg) /\
             prev_total_ c2 = total_ticks s1 /\ prev_idle_ c2 = idle_ticks s1 /\
             curr_total_ c2 = total_ticks s1 /\ curr_idle_ c2 = idle_ticks s1 /\
             usage_percent_ c2 = usage_percent_ c1).
  { rewrite cpu_update_eq. unfold do_collect. rewrite F2. cbn [fst snd].
    unfold do_parse. rewrite A5.
    destruct (first_line content1) as [|ch r] eqn:R; [congruence|].
    rewrite E1. cbn [bind]. eexists. split; [reflexivity|].
    set (d := mk _ _ _ _ _ _).
    destruct (calculate_fields d) as (B1 & B2 & B3 & B4 & _).
    assert (K : usage_percent_ (do_calculate d) = usage_percent_ d).
    { apply do_calculate_kept. unfold total_diff, d.
      cbn [curr_total_ prev_total_]. rewrite A4, Z.sub_diag. vm_compute. discriminate. }
    rewrite B1, B2, B3, B4, K. unfold d.
    cbn [prev_idle_ prev_total_ curr_idle_ curr_total_ usage_percent_].
    repeat split; congruence. }
  destruct U2 as (c2 & U2 & P2 & I2 & T2 & J2 & G2).
  pose proof (update_readable k3 (LOG_ERROR (cannot_open CPU_PATH) lg) c2 _ _ F3 E3)
    as U3.
  set (c3 := do_calculate _) in U3.
  destruct (calculate_fields
              (mk (first_line content3) (curr_idle_ c2) (curr_total_ c2)
                  (idle_ticks s3) (total_ticks s3) (usage_percent_ c2)))
    as (C1 & C2 & C3 & C4 & _).
  fold c3 in C1, C2, C3, C4. cbn in C1, C2, C3, C4.
  exists c1, c2, c3, (LOG_ERROR (cannot_open CPU_PATH) lg).
  repeat split; try assumption; congruence.
Qed.

Lemma cpu_measures_across_a_failed_refresh_witness :
  file Samples.cpu_half_idle CPU_PATH = Some (lit Samples.cpu_half_idle_text) /\
  extract_counters (first_line (lit Samples.cpu_half_idle_text))
  = Normal (mkSample 10 0 0 10 0 0 0 0) /\
  file Samples.unreachable CPU_PATH = None /\
  file Samples.cpu_later CPU_PATH = Some (lit Samples.cpu_later_text) /\
  extract_counters (first_line (lit Samples.cpu_later_text))
  = Normal (mkSample 40 0 0 20 0 0 0 0) /\
  exists c1 c2 c3 lg2,
    update Samples.cpu_half_idle Samples.logger0 init = Normal (c1, Samples.logger0) /\
    update Samples.unreachable Samples.logger0 c1 = Normal (c2, lg2) /\
    update Samples.cpu_later lg2 c2 = Normal (c3, lg2) /\
    (prev_total_ c1 = curr_total_ init /\ prev_idle_ c1 = curr_idle_ init /\
     curr_total_ c1 = total_ticks (mkSample 10 0 0 10 0 0 0 0) /\
     curr_idle_ c1 = idle_ticks (mkSample 10 0 0 10 0 0 0 0)) /\
    (prev_total_ c2 = total_ticks (mkSample 10 0 0 10 0 0 0 0) /\
     curr_total_ c2 = total_ticks (mkSample 10 0 0 10 0 0 0 0) /\
     usage_percent_ c2 = usage_percent_ c1) /\
    (prev_total_ c3 = total_ticks (mkSample 10 0 0 10 0 0 0 0) /\
     prev_idle_ c3 = idle_ticks (mkSample 10 0 0 10 0 0 0 0) /\
     curr_total_ c3 = total_ticks (mkSample 40 0 0 20 0 0 0 0) /\
     curr_idle_ c3 = idle_ticks (mkSample 40 0 0 20 0 0 0 0)).
Proof.
  assert (F1 : file Samples.cpu_half_idle CPU_PATH = Some (lit Samples.cpu_half_idle_text))
    by reflexivity.
  assert (E1 : extract_counters (first_line (lit Samples.cpu_half_idle_text))
               = Normal (mkSample 10 0 0 10 0 0 0 0)) by (vm_compute; reflexivity).
  assert (F2 : file Samples.unreachable CPU_PATH = None) by reflexivity.
  assert (F3 : file Samples.cpu_later CPU_PATH = Some (lit Samples.cpu_later_text))
    by reflexivity.
  assert (E3 : extract_counters (first_line (lit Samples.cpu_later_text))
               = Normal (mkSample 40 0 0 20 0 0 0 0)) by (vm_compute; reflexivity).
  repeat (split; [assumption|]).
  exact (cpu_measures_across_a_failed_refresh _ _ _ Samples.logger0 init _ _ _ _
           F1 E1 F2 F3 E3).
Defined.

(** X6: between two readable samples whose total grew, an interval in
    which only idle time passed shows exactly 0, and one in which no
    idle time passed shows exactly 100 (the product by 100 being exact
    up to 2^53). *)
Theorem cpu_all_idle_and_all_busy :
  forall k1 k2 lg c content1 s1 content2 s2,
    file k1 CPU_PATH = Some content1 ->
    extract_counters (first_line content1) = Normal s1 ->
    file k2 CPU_PATH = Some content2 ->
    extract_counters (first_line content2) = Normal s2 ->
    total_ticks s1 < total_ticks s2 ->
    exists c1 c2,
      update k1 lg c = Normal (c1, lg) /\
      update k2 lg c1 = Normal (c2, lg) /\
      (idle_ticks s2 - idle_ticks s1 = total_ticks s2 - total_ticks s1 ->
       usage_percent_ c2 = 0%Q) /\
      (idle_ticks s2 = idle_ticks s1 ->
       100 * (total_ticks s2 - total_ticks s1) <= 2 ^ 53 ->
       usage_percent_ c2 = 100%Q).
Proof.
  intros k1 k2 lg c content1 s1 content2 s2 F1 E1 F2 E2 Lt.
  pose proof (update_readable k1 lg c _ _ F1 E1) as U1.
  set (c1 := do_calculate _) in U1.
  destruct (calculate_fields
              (mk (first_line content1) (curr_idle_ c) (curr_total_ c)
                  (idle_ticks s1) (total_ticks s1) (usage_percent_ c)))
    as (_ & _ & A3 & A4 & _).
  fold c1 in A3, A4. cbn in A3, A4.
  pose proof (update_readable k2 lg c1 _ _ F2 E2) as U2.
  rewrite A3, A4 in U2.
  exists c1. eexists. split; [exact U1|]. split; [exact U2|].
  destruct (ticks_range s1) as [I1 T1]. destruct (ticks_range s2) as [I2 T2].
  set (t := total_ticks s2 - total_ticks s1) in *.
  assert (Td : wrap 64 t = t) by (unfold wrap; apply Z.mod_small; lia).
  unfold do_calculate, total_diff, idle_diff.
  cbn [prev_idle_ prev_total_ curr_idle_ curr_total_ usage_percent_ raw_data_].
  fold t. rewrite Td.
  destruct (t >? 0) eqn:P; [|lia].
  cbn [prev_idle_ prev_total_ curr_idle_ curr_total_ usage_percent_ raw_data_]. split.
  - intros Ei. rewrite Ei. fold t. rewrite Td, Z.sub_diag.
    unfold ddiv, dmul, of_u64.
    rewrite (rnd_zero_case (inject_Z (wrap 64 0))) by reflexivity.
    rewrite (rnd_zero_case (100 * 0)) by reflexivity.
    apply rnd_zero_case. unfold Qdiv. apply Qmult_0_l.
  - intros Ei Hs. rewrite Ei, Z.sub_diag.
    replace (wrap 64 0) with 0 by reflexivity. rewrite Z.sub_0_r, Td.
    rewrite (of_u64_exact t) by lia.
    unfold dmul. rewrite (rnd_comp (100 * inject_Z t) (inject_Z (100 * t)))
      by (rewrite inject_Z_mult; reflexivity).
    rewrite rnd_Z_exact by lia.
    unfold ddiv.
    rewrite (rnd_comp (inject_Z (100 * t) / inject_Z t) (inject_Z 100)).
    + apply rnd_Z_exact. lia.
    + rewrite inject_Z_mult. field. intros Z0.
      assert (inject_Z 0 < inject_Z t)%Q by (rewrite <- Zlt_Qlt; lia).
      change (inject_Z 0) with 0%Q in H. lra.
Qed.

Lemma cpu_all_idle_and_all_busy_witness :
  file Samples.cpu_zero CPU_PATH = Some (lit Samples.cpu_zero_text) /\
  extract_counters (first_line (lit Samples.cpu_zero_text))
  = Normal (mkSample 0 0 0 0 0 0 0 0) /\
  file Runs.cpu_busy CPU_PATH = Some (lit Runs.cpu_busy_text) /\
  extract_counters (first_line (lit Runs.cpu_busy_text))
  = Normal (mkSample 7 0 0 0 0 0 0 0) /\
  total_ticks (mkSample 0 0 0 0 0 0 0 0)
  < total_ticks (mkSample 7 0 0 0 0 0 0 0) /\
  exists c1 c2,
    update Samples.cpu_zero Samples.logger0 init = Normal (c1, Samples.logger0) /\
    update Runs.cpu_busy Samples.logger0 c1 = Normal (c2, Samples.logger0) /\
    (idle_ticks (mkSample 7 0 0 0 0 0 0 0)
     - idle_ticks (mkSample 0 0 0 0 0 0 0 0)
     = total_ticks (mkSample 7 0 0 0 0 0 0 0)
       - total_ticks (mkSample 0 0 0 0 0 0 0 0) ->
     usage_percent_ c2 = 0%Q) /\
    (idle_ticks (mkSample 7 0 0 0 0 0 0 0)
     = idle_ticks (mkSample 0 0 0 0 0 0 0 0) ->
     100 * (total_ticks (mkSample 7 0 0 0 0 0 0 0)
            - total_ticks (mkSample 0 0 0 0 0 0 0 0)) <= 2 ^ 53 ->
     usage_percent_ c2 = 100%Q).
Proof.
  assert (F1 : file Samples.cpu_zero CPU_PATH = Some (lit Samples.cpu_zero_text))
    by reflexivity.
  assert (E1 : extract_counters (first_line (lit Samples.cpu_zero_text))
               = Normal (mkSample 0 0 0 0 0 0 0 0)) by (vm_compute; reflexivity).
  assert (F2 : file Runs.cpu_busy CPU_PATH = Some (lit Runs.cpu_busy_text))
    by reflexivity.
  assert (E2 : extract_counters (first_line (lit Runs.cpu_busy_text))
               = Normal (mkSample 7 0 0 0 0 0 0 0))
    by (vm_compute; reflexivity).
  assert (Lt : total_ticks (mkSample 0 0 0 0 0 0 0 0)
               < total_ticks (mkSample 7 0 0 0 0 0 0 0))
    by (vm_compute; reflexivity).
  repeat (split; [assumption|]).
  exact (cpu_all_idle_and_all_busy _ _ Samples.logger0 init _ _ _ _ F1 E1 F2 E2 Lt).
Defined.

End CPUSeries.

(** ** The memory collector and the keys of its text *)

Module MemoryKeys.
Import MemoryCollector MemoryFacts Binary64Facts Tokens Invariants.

Lemma str_eqb_eq a : forall b, str_eqb a b = true <-> a = b.
Proof.
  induction a as [|x a IH]; intros [|y b]; cbn [str_eqb]; split; intros H;
    try reflexivity; try discriminate.
  - apply andb_true_iff in H. destruct H as [H1 H2].
    apply Ascii.eqb_eq in H1. apply IH in H2. congruence.
  - injection H as -> ->. rewrite Ascii.eqb_refl. cbn. apply IH. reflexivity.
Qed.

Lemma str_eqb_neq a b : a <> b -> str_eqb a b = false.
Proof.
  intros N. destruct (str_eqb a b) eqn:E; [|reflexivity].
  apply str_eqb_eq in E. contradiction.
Qed.

Lemma parse_line_fields c line c' :
  parse_line c line = Normal c' ->
  (str_eqb (line_key line) (lit "MemTotal:") = false -> total_kb_ c' = total_kb_ c) /\
  (str_eqb (line_key line) (lit "MemFree:") = false -> free_kb_ c' = free_kb_ c) /\
  (str_eqb (line_key line) (lit "MemAvailable:") = false ->
   available_kb_ c' = available_kb_ c) /\
  (str_eqb (line_key line) (lit "Buffers:") = false -> buffers_kb_ c' = buffers_kb_ c) /\
  (str_eqb (line_key line) (lit "Cached:") = false -> cached_kb_ c' = cached_kb_ c) /\
  (memory_in_range c -> memory_in_range c').
Proof.
  unfold parse_line, line_key, memory_in_range.
  destruct (extract_string (open line)) as [key s0]. cbn [fst].
  destruct (extract_u64 s0) as [value s1] eqn:V.
  destruct (extract_string s1) as [unit s2].
  set (key' := match key with Some k => k | None => [] end).
  assert (Rg : forall v, value = Some v -> 0 <= v < 2 ^ 64).
  { intros v ->. eapply StreamFacts.extract_u64_range. exact V. }
  destruct (str_eqb key' (lit "MemTotal:")) eqn:K1;
    [|destruct (str_eqb key' (lit "MemFree:")) eqn:K2;
      [|destruct (str_eqb key' (lit "MemAvailable:")) eqn:K3;
        [|destruct (str_eqb key' (lit "Buffers:")) eqn:K4;
          [|destruct (str_eqb key' (lit "Cached:")) eqn:K5]]]];
    try (destruct value as [v|]; cbn [read bind]; try discriminate;
         specialize (Rg v eq_refl));
    intros E; injection E as <-;
    cbn [total_kb_ free_kb_ available_kb_ buffers_kb_ cached_kb_];
    repeat split; try reflexivity; try congruence; intros; try tauto; try lia.
Qed.

Lemma parse_lines_fields lines : forall c c',
  parse_lines c lines = Normal c' ->
  (~ In (lit "MemTotal:") (map line_key lines) -> total_kb_ c' = total_kb_ c) /\
  (~ In (lit "MemFree:") (map line_key lines) -> free_kb_ c' = free_kb_ c) /\
  (~ In (lit "MemAvailable:") (map line_key lines) ->
   available_kb_ c' = available_kb_ c) /\
  (~ In (lit "Buffers:") (map line_key lines) -> buffers_kb_ c' = buffers_kb_ c) /\
  (~ In (lit "Cached:") (map line_key lines) -> cached_kb_ c' = cached_kb_ c) /\
  (memory_in_range c -> memory_in_range c').
Proof.
  induction lines as [|line rest IH]; intros c c'; cbn [parse_lines map].
  - intros E. injection E as <-.
    repeat match goal with |- _ /\ _ => split end; auto.
  - destruct (parse_line c line) as [c1| |] eqn:P; cbn [bind]; try discriminate.
    intros E. destruct (parse_line_fields _ _ _ P) as (A1 & A2 & A3 & A4 & A5 & A6).
    destruct (IH _ _ E) as (B1 & B2 & B3 & B4 & B5 & B6).
    repeat match goal with |- _ /\ _ => split end; try (intros N; cbn [In] in N;
      match goal with
      | |- ?f c' = ?f c =>
          transitivity (f c1);
          [ first [apply B1 | apply B2 | apply B3 | apply B4 | apply B5]; tauto
          | first [apply A1 | apply A2 | apply A3 | apply A4 | apply A5];
            apply str_eqb_neq; intros Q; apply N; left; exact Q ]
      end).
    intros R. apply B6, A6, R.
Qed.

(** X7: a key that no line of the memory text carries leaves its field
    at the value of the previous refresh; this holds for each of the
    five keys the collector reads. *)
Theorem memory_missing_key_keeps_field :
  forall k lg c c' lg' content,
    file k MEMORY_PATH = Some content ->
    update k lg c = Normal (c', lg') ->
    (~ In (lit "MemTotal:") (keys content) -> total_kb_ c' = total_kb_ c) /\
    (~ In (lit "MemFree:") (keys content) -> free_kb_ c' = free_kb_ c) /\
    (~ In (lit "MemAvailable:") (keys content) -> available_kb_ c' = available_kb_ c) /\
    (~ In (lit "Buffers:") (keys content) -> buffers_kb_ c' = buffers_kb_ c) /\
    (~ In (lit "Cached:") (keys content) -> cached_kb_ c' = cached_kb_ c).
Proof.
  intros k lg c c' lg' content F. rewrite memory_update_eq. unfold do_collect.
  rewrite F. cbn [fst snd]. unfold do_parse. cbn [raw_data_].
  destruct (parse_lines _ _) as [c2| |] eqn:P; cbn [bind]; try discriminate.
  intros E. injection E as <- _.
  destruct (parse_lines_fields _ _ _ P) as (B1 & B2 & B3 & B4 & B5 & _).
  unfold keys, do_calculate.
  cbn [total_kb_ free_kb_ available_kb_ buffers_kb_ cached_kb_] in *.
  repeat split; assumption.
Qed.

Lemma memory_missing_key_keeps_field_witness :
  file Runs.mem_old_kernel MEMORY_PATH = Some (lit Runs.mem_old_kernel_text) /\
  update Runs.mem_old_kernel Samples.logger0 init
  = Normal (Samples.mem_after Runs.mem_old_kernel init, Samples.logger0) /\
  (~ In (lit "MemAvailable:") (keys (lit Runs.mem_old_kernel_text)) ->
   available_kb_ (Samples.mem_after Runs.mem_old_kernel init) = available_kb_ init).
Proof.
  assert (F : file Runs.mem_old_kernel MEMORY_PATH
              = Some (lit Runs.mem_old_kernel_text)) by reflexivity.
  assert (U : update Runs.mem_old_kernel Samples.logger0 init
              = Normal (Samples.mem_after Runs.mem_old_kernel init, Samples.logger0))
    by (vm_compute; reflexivity).
  split; [exact F|]. split; [exact U|].
  exact (proj1 (proj2 (proj2 (memory_missing_key_keeps_field _ _ _ _ _ _ F U)))).
Defined.

(** X8: on a memory text without a [MemAvailable] line, the first
    refresh counts all memory as used: the used amount is the total, and
    the percentage is exactly 100 for a total of at most 2^53/100
    kilobytes. *)
Theorem memory_without_available_is_all_used :
  forall k lg c' lg' content,
    file k MEMORY_PATH = Some content ->
    update k lg init = Normal (c', lg') ->
    ~ In (lit "MemAvailable:") (keys content) ->
    available_kb_ c' = 0 /\
    used_kb_ c' = total_kb_ c' /\
    (0 < total_kb_ c' -> 100 * total_kb_ c' <= 2 ^ 53 -> usage_percent_ c' = 100%Q).
Proof.
  intros k lg c' lg' content F. rewrite memory_update_eq. unfold do_collect.
  rewrite F. cbn [fst snd]. unfold do_parse. cbn [raw_data_].
  destruct (parse_lines _ _) as [c2| |] eqn:P; cbn [bind]; try discriminate.
  intros E N. injection E as <- _.
  destruct (parse_lines_fields _ _ _ P) as (_ & _ & B3 & _ & _ & B6).
  assert (R : memory_in_range c2) by (apply B6; unfold memory_in_range; cbn; lia).
  destruct R as (R1 & _).
  specialize (B3 N). cbn [available_kb_] in B3.
  unfold do_calculate.
  cbn [total_kb_ free_kb_ available_kb_ buffers_kb_ cached_kb_ used_kb_ usage_percent_].
  rewrite B3, Z.sub_0_r.
  assert (W : wrap 64 (total_kb_ c2) = total_kb_ c2)
    by (unfold wrap; apply Z.mod_small; exact R1).
  rewrite W. repeat split.
  intros Pos Small. destruct (total_kb_ c2 >? 0) eqn:G; [|lia].
  set (t := total_kb_ c2) in *.
  rewrite (of_u64_exact t) by lia.
  unfold dmul. rewrite (rnd_comp (100 * inject_Z t) (inject_Z (100 * t)))
    by (rewrite inject_Z_mult; reflexivity).
  rewrite rnd_Z_exact by lia.
  unfold ddiv.
  rewrite (rnd_comp (inject_Z (100 * t) / inject_Z t) (inject_Z 100)).
  - apply rnd_Z_exact. lia.
  - rewrite inject_Z_mult. field. intros Z0.
    assert (inject_Z 0 < inject_Z t)%Q by (rewrite <- Zlt_Qlt; lia).
    change (inject_Z 0) with 0%Q in H. lra.
Qed.

Lemma memory_without_available_is_all_used_witness :
  file Runs.mem_old_kernel MEMORY_PATH = Some (lit Runs.mem_old_kernel_text) /\
  update Runs.mem_old_kernel Samples.logger0 init
  = Normal (Samples.mem_after Runs.mem_old_kernel init, Samples.logger0) /\
  ~ In (lit "MemAvailable:") (keys (lit Runs.mem_old_kernel_text)) /\
  available_kb_ (Samples.mem_after Runs.mem_old_kernel init) = 0 /\
  used_kb_ (Samples.mem_after Runs.mem_old_kernel init)
  = total_kb_ (Samples.mem_after Runs.mem_old_kernel init) /\
  (0 < total_kb_ (Samples.mem_after Runs.mem_old_kernel init) ->
   100 * total_kb_ (Samples.mem_after Runs.mem_old_kernel init) <= 2 ^ 53 ->
   usage_percent_ (Samples.mem_after Runs.mem_old_kernel init) = 100%Q).
Proof.
  assert (F : file Runs.mem_old_kernel MEMORY_PATH
              = Some (lit Runs.mem_old_kernel_text)) by reflexivity.
  assert (U : update Runs.mem_old_kernel Samples.logger0 init
              = Normal (Samples.mem_after Runs.mem_old_kernel init, Samples.logger0))
    by (vm_compute; reflexivity).
  assert (N : ~ In (lit "MemAvailable:") (keys (lit Runs.mem_old_kernel_text))).
  { vm_compute. intros [H|[H|[H|[H|H]]]]; try discriminate H. exact H. }
  split; [exact F|]. split; [exact U|]. split; [exact N|].
  exact (memory_without_available_is_all_used _ _ _ _ _ F U N).
Defined.

End MemoryKeys.

(** ** The process list and the listing of the process root *)

Module ListingFacts.
Import ProcessCollector ProcessFacts Listing.





Lemma sorted_app_cross {A} (R : A -> A -> Prop) l1 : forall l2 a b,
  StronglySorted R (l1 ++ l2) -> In a l1 -> In b l2 -> R a b.
Proof.
  induction l1 as [|x l1 IH]; intros l2 a b S Ia Ib; [destruct Ia|].
  cbn [app] in S. inversion S as [|? ? S' F]; subst.
  destruct Ia as [->|Ia].
  - rewrite Forall_forall in F. apply F. apply in_or_app. right. exact Ib.
  - eapply IH; eassumption.
Qed.



(** X10: after a refresh that could list the process root, no process
    left out of the five shown has a larger resident set than one of
    the five. *)
Theorem top_five_are_the_largest :
  forall (Srt : StdSort) k lg c c' lg' entries,
    proc_root k = Some entries ->
    update k lg c = Normal (c', lg') ->
    forall shown hidden,
      In shown (top5 c') -> In hidden (skipn 5 (processes_ c')) ->
      rss hidden <= rss shown.
Proof.
  intros Srt k lg c c' lg' entries R. rewrite process_update_eq, R.
  destruct (scan k ([], 0, 0) entries) as [[[ps t] r]| |] eqn:S; cbn [bind fst snd];
    try discriminate.
  intros E shown hidden. injection E as <- _. unfold top5. cbn [processes_].
  intros I1 I2.
  pose proof (std_sort_descending ps) as D. unfold Spec.rss_descending in D.
  rewrite <- (firstn_skipn 5 (std_sort by_rss_desc ps)) in D.
  pose proof (sorted_app_cross _ _ _ _ _ D I1 I2) as G. cbn beta in G. lia.
Qed.

Lemma top_five_are_the_largest_witness :
  proc_root Samples.seven_processes = Some Samples.seven_entries /\
  @update SortFacts.insertion_StdSort Samples.seven_processes Samples.logger0 init
  = Normal (Runs.seven_parsed, Samples.logger0) /\
  forall shown hidden,
    In shown (top5 Runs.seven_parsed) ->
    In hidden (skipn 5 (processes_ Runs.seven_parsed)) ->
    rss hidden <= rss shown.
Proof.
  assert (R : proc_root Samples.seven_processes = Some Samples.seven_entries)
    by reflexivity.
  assert (U : @update SortFacts.insertion_StdSort Samples.seven_processes Samples.logger0
                init = Normal (Runs.seven_parsed, Samples.logger0))
    by (vm_compute; reflexivity).
  split; [exact R|]. split; [exact U|].
  exact (top_five_are_the_largest SortFacts.insertion_StdSort _ _ _ _ _ _ R U).
Defined.

End ListingFacts.

(** ** The system collector on texts without numbers *)

Module SystemEdges.
Import SystemCollector RefreshFacts.

Lemma blank_sentry s : forallb isspace (buf s) = true -> sentry s = None.
Proof.
  unfold sentry. destruct (failbit s); [reflexivity|]. intros H.
  assert (D : drop_while isspace (buf s) = []).
  { induction (buf s) as [|ch b IH]; [reflexivity|].
    cbn [forallb] in H. apply andb_true_iff in H. destruct H as [H1 H2].
    cbn [drop_while]. rewrite H1. apply IH, H2. }
  now rewrite D.
Qed.

Lemma failed_sentry s : failbit s = true -> sentry s = None.
Proof. unfold sentry. now intros ->. Qed.

Lemma refused_failed s : sentry s = None -> failbit (refused s) = true.
Proof. unfold refused. destruct (failbit s) eqn:F; [exact (fun _ => F)|reflexivity]. Qed.

Lemma extract_double_refused s :
  sentry s = None -> extract_double s = (None, refused s).
Proof. unfold extract_double. now intros ->. Qed.

Lemma extract_string_refused s :
  sentry s = None -> extract_string s = (None, refused s).
Proof. unfold extract_string. now intros ->. Qed.

(** A text whose first character after the white space cannot start a
    number: the extraction writes 0. *)
Lemma extract_double_no_number content ch rest :
  drop_while isspace content = ch :: rest ->
  isdigit ch = false -> ch <> "+"%char -> ch <> "-"%char -> ch <> "."%char ->
  fst (extract_double (open content)) = Some 0%Q.
Proof.
  intros D Nd Np Nm Ndot. unfold extract_double, sentry, open. cbn [failbit buf].
  rewrite D.
  apply Ascii.eqb_neq in Np, Nm, Ndot. rewrite Nm, Np.
  cbn [scan_float andb sc_dec sc_sci sc_have_mant negb].
  rewrite Nd, Ndot. cbn [andb orb].
  destruct (Ascii.eqb ch "e" || Ascii.eqb ch "E"); reflexivity.
Qed.

(** X11: when the uptime text opens but holds only white space, the
    uptime keeps its previous value; when its first character after the
    white space cannot start a number, the uptime becomes 0. *)
Theorem uptime_without_a_number :
  forall k lg c c' lg' content,
    file k UPTIME_PATH = Some content ->
    update k lg c = Normal (c', lg') ->
    (forallb isspace content = true -> uptime_seconds_ c' = uptime_seconds_ c) /\
    (forall ch rest,
       drop_while isspace content = ch :: rest ->
       isdigit ch = false -> ch <> "+"%char -> ch <> "-"%char -> ch <> "."%char ->
       uptime_seconds_ c' = 0%Q).
Proof.
  intros k lg c c' lg' content F. rewrite system_update_eq.
  destruct (do_parse (fst (do_collect k lg c))) as [c2| |] eqn:P; cbn [bind];
    try discriminate.
  intros E. injection E as <- _.
  destruct (RepeatFacts.system_parse_keeps _ _ P) as [_ U]. rewrite U.
  unfold do_collect. rewrite F. cbn [fst uptime_seconds_]. split.
  - intros B. rewrite extract_double_refused by (apply blank_sentry; exact B).
    reflexivity.
  - intros ch rest D Nd Np Nm Ndot.
    rewrite (extract_double_no_number _ _ _ D Nd Np Nm Ndot). reflexivity.
Qed.

Lemma uptime_without_a_number_witness :
  file Runs.odd_uptime UPTIME_PATH = Some (lit Runs.odd_uptime_text) /\
  update Runs.odd_uptime Samples.logger0
         (Runs.sys_after Samples.good_sources init)
  = Normal (Runs.sys_after Runs.odd_uptime
              (Runs.sys_after Samples.good_sources init), Samples.logger0) /\
  (drop_while isspace (lit Runs.odd_uptime_text) = "u"%char :: lit ("nknown" ++ Samples.nl) ->
   isdigit "u" = false -> "u"%char <> "+"%char -> "u"%char <> "-"%char ->
   "u"%char <> "."%char ->
   uptime_seconds_ (Runs.sys_after Runs.odd_uptime
                      (Runs.sys_after Samples.good_sources init)) = 0%Q).
Proof.
  assert (F : file Runs.odd_uptime UPTIME_PATH = Some (lit Runs.odd_uptime_text))
    by reflexivity.
  assert (U : update Runs.odd_uptime Samples.logger0
                (Runs.sys_after Samples.good_sources init)
              = Normal (Runs.sys_after Runs.odd_uptime
                          (Runs.sys_after Samples.good_sources init),
                        Samples.logger0)) by (vm_compute; reflexivity).
  split; [exact F|]. split; [exact U|].
  exact (proj2 (uptime_without_a_number _ _ _ _ _ _ F U) "u"%char
               (lit ("nknown" ++ Samples.nl))).
Defined.

(** X12: when the load text opens but holds only white space, the three
    load averages and the two task counts keep their previous values;
    when its fourth token has no slash, the two task counts keep their
    previous values. *)
Theorem load_line_without_values :
  forall k lg c c' lg' content,
    file k LOADAVG_PATH = Some content ->
    update k lg c = Normal (c', lg') ->
    (forallb isspace content = true ->
     load_1min_ c' = load_1min_ c /\ load_5min_ c' = load_5min_ c /\
     load_15min_ c' = load_15min_ c /\
     running_tasks_ c' = running_tasks_ c /\ total_tasks_ c' = total_tasks_ c) /\
    (find_char "/" (running_str content) = None ->
     running_tasks_ c' = running_tasks_ c /\ total_tasks_ c' = total_tasks_ c).
Proof.
  intros k lg c c' lg' content F. rewrite system_update_eq.
  unfold do_collect. rewrite F. cbn [fst]. unfold do_parse, running_str.
  cbn [raw_data_ uptime_seconds_ load_1min_ load_5min_ load_15min_ running_tasks_
       total_tasks_].
  intros U. split.
  - intros B. revert U.
    assert (S0 : sentry (open content) = None) by (apply blank_sentry; exact B).
    rewrite (extract_double_refused _ S0).
    assert (S1 : sentry (refused (open content)) = None)
      by (apply failed_sentry, refused_failed, S0).
    rewrite (extract_double_refused _ S1).
    assert (S2 : sentry (refused (refused (open content))) = None)
      by (apply failed_sentry, refused_failed, S1).
    rewrite (extract_double_refused _ S2).
    assert (S3 : sentry (refused (refused (refused (open content)))) = None)
      by (apply failed_sentry, refused_failed, S2).
    rewrite (extract_string_refused _ S3).
    cbn [or_keep find_char bind]. intros E. injection E as <- _.
    repeat split.
  - revert U.
    destruct (extract_double (open content)) as [l1 s1].
    destruct (extract_double s1) as [l5 s5].
    destruct (extract_double s5) as [l15 s15].
    destruct (extract_string s15) as [running s4].
    intros U N. rewrite N in U. cbn [bind] in U. injection U as <- _.
    split; reflexivity.
Qed.

Lemma load_line_without_values_witness :
  file Runs.blank_uptime LOADAVG_PATH
  = Some (lit Runs.no_slash_text) /\
  update Runs.blank_uptime Samples.logger0
         (Runs.sys_after Samples.good_sources init)
  = Normal (Runs.sys_after Runs.blank_uptime
              (Runs.sys_after Samples.good_sources init), Samples.logger0) /\
  (find_char "/" (running_str (lit Runs.no_slash_text)) = None ->
   running_tasks_ (Runs.sys_after Runs.blank_uptime
                     (Runs.sys_after Samples.good_sources init))
   = running_tasks_ (Runs.sys_after Samples.good_sources init) /\
   total_tasks_ (Runs.sys_after Runs.blank_uptime
                   (Runs.sys_after Samples.good_sources init))
   = total_tasks_ (Runs.sys_after Samples.good_sources init)).
Proof.
  assert (F : file Runs.blank_uptime LOADAVG_PATH
              = Some (lit Runs.no_slash_text)) by reflexivity.
  assert (U : update Runs.blank_uptime Samples.logger0
                (Runs.sys_after Samples.good_sources init)
              = Normal (Runs.sys_after Runs.blank_uptime
                          (Runs.sys_after Samples.good_sources init),
                        Samples.logger0)) by (vm_compute; reflexivity).
  split; [exact F|]. split; [exact U|].
  exact (proj2 (load_line_without_values _ _ _ _ _ _ F U)).
Defined.

End SystemEdges.

(** ** The logger at a fixed level *)

Module LoggerFacts.
Import Logger LoggerCalls.

Lemma call_log c lg : call c lg = log (fst c) (snd c) lg.
Proof. unfold call. destruct c as [[] msg]; reflexivity. Qed.

Lemma call_streams c lg :
  current_level_ (call c lg) = current_level_ lg /\
  cerr (call c lg)
  = cerr lg ++ (if (rank (current_level_ lg) <=? rank (fst c)) &&
                   (rank WARNING <=? rank (fst c)) then [c] else []) /\
  cout (call c lg)
  = cout lg ++ (if (rank (current_level_ lg) <=? rank (fst c)) &&
                   (rank (fst c) <? rank WARNING) then [c] else []).
Proof.
  rewrite call_log. unfold log. destruct c as [l msg]. cbn [fst snd].
  destruct lg as [cur o e]. cbn [current_level_ cout cerr].
  destruct l, cur; cbn; rewrite ?app_nil_r; repeat split.
Qed.

(** X13: at the level the logger is set to, a sequence of calls of its
    four members writes, in the order of the calls, exactly the messages
    at or above that level: those at [WARNING] and [ERROR] to the
    standard error, those at [DEBUG] and [INFO] to the standard output.
    Logging does not change the level. *)
Theorem logger_filters_and_routes :
  forall cs lg,
    current_level_ (calls cs lg) = current_level_ lg /\
    cerr (calls cs lg)
    = cerr lg ++ filter (fun c => (rank (current_level_ lg) <=? rank (fst c)) &&
                                  (rank WARNING <=? rank (fst c))) cs /\
    cout (calls cs lg)
    = cout lg ++ filter (fun c => (rank (current_level_ lg) <=? rank (fst c)) &&
                                  (rank (fst c) <? rank WARNING)) cs.
Proof.
  unfold calls. induction cs as [|c cs IH]; intros lg; cbn [fold_left filter].
  - rewrite !app_nil_r. repeat split.
  - destruct (IH (call c lg)) as (L & E & O).
    destruct (call_streams c lg) as (L1 & E1 & O1).
    rewrite L1 in L, E, O. rewrite L, E, O, E1, O1, <- !app_assoc.
    split; [reflexivity|].
    destruct ((rank (current_level_ lg) <=? rank (fst c)) &&
              (rank WARNING <=? rank (fst c)));
      destruct ((rank (current_level_ lg) <=? rank (fst c)) &&
                (rank (fst c) <? rank WARNING));
      split; reflexivity.
Qed.

End LoggerFacts.

(** ** Exact divisions and the formatting helpers *)

Module FormatFacts.
Import Format Binary64Facts.

(** A number of at most 53 significant bits is a binary64 number. *)
Lemma rnd_dyadic (m e : Z) :
  0 < m < 2 ^ 53 -> (rnd (inject_Z m * 2 ^ e) == inject_Z m * 2 ^ e)%Q.
Proof.
  intros [Hm Hs]. set (l := Z.log2 m).
  destruct (Z.log2_spec m Hm) as [L1 L2]. fold l in L1, L2.
  assert (Hl0 : 0 <= l) by apply Z.log2_nonneg.
  assert (Hl : l < 53) by (apply Z.log2_lt_pow2; lia).
  pose proof (pow2_pos e) as Pe.
  assert (Pm : (0 < inject_Z m)%Q) by (apply (inject_Z_lt 0 m); lia).
  assert (Pq : (0 < inject_Z m * 2 ^ e)%Q) by nra.
  assert (B : binade (inject_Z m * 2 ^ e) = l + e).
  { apply binade_unique.
    - rewrite pow2_add. apply Qmult_le_compat_r; [|lra].
      rewrite <- pow2_Z by lia. apply inject_Z_le, L1.
    - replace (l + e + 1) with ((l + 1) + e) by lia. rewrite pow2_add.
      apply Qmult_lt_compat_r; [lra|].
      rewrite <- pow2_Z by lia. apply inject_Z_lt.
      rewrite <- Z.add_1_r in L2. exact L2. }
  rewrite rnd_pos_case by exact Pq. rewrite rnd_pos_eq, B.
  set (k := 52 - l). replace (l + e - 52) with (e + - k) by (unfold k; lia).
  assert (Hk : 0 <= k) by (unfold k; lia). pose proof (pow2_pos k) as Pk.
  assert (U : (2 ^ (e + - k) == 2 ^ e / 2 ^ k)%Q).
  { rewrite pow2_add, Qpower_opp. field. lra. }
  assert (S : (inject_Z m * 2 ^ e / 2 ^ (e + - k) == inject_Z (m * 2 ^ k))%Q).
  { rewrite U, inject_Z_mult, pow2_Z by exact Hk. field. split; lra. }
  rewrite (rhe_comp _ _ S), rhe_Z, U, inject_Z_mult, pow2_Z by exact Hk.
  field. lra.
Qed.

Lemma rnd_dyadic_le (m e : Z) :
  0 <= m <= 2 ^ 53 -> (rnd (inject_Z m * 2 ^ e) == inject_Z m * 2 ^ e)%Q.
Proof.
  intros [H0 H1].
  destruct (Z.eq_dec m 0) as [-> | N].
  - rewrite rnd_zero_case by ring. ring.
  - destruct (Z.eq_dec m (2 ^ 53)) as [-> | N'].
    + assert (E : (inject_Z (2 ^ 53) * 2 ^ e == inject_Z 1 * 2 ^ (53 + e))%Q).
      { rewrite pow2_Z, pow2_add by lia. change (inject_Z 1) with 1%Q. ring. }
      rewrite (rnd_comp _ _ E), E. apply rnd_dyadic. lia.
    + apply rnd_dyadic. lia.
Qed.

(** The result of a rounding has at most 53 significant bits. *)
Lemma rnd_representable (q : Q) :
  (0 <= q)%Q -> exists m e, 0 <= m <= 2 ^ 53 /\ (rnd q == inject_Z m * 2 ^ e)%Q.
Proof.
  intros H. destruct (Qlt_le_dec 0 q) as [P | P].
  - rewrite rnd_pos_case by exact P.
    exists (round_half_even (q / 2 ^ (binade q - 52))), (binade q - 52).
    destruct (scaled_range q P) as [L U]. split.
    + split.
      * apply Z.le_trans with (2 ^ 52); [lia|]. apply rhe_ge_Z, L.
      * apply rhe_le_Z. lra.
    + apply rnd_pos_eq.
  - exists 0, 0. split; [lia|]. rewrite rnd_zero_case by lra. ring.
Qed.

(** A division by 1024 is exact. *)
Lemma ddiv_1024 (x : Q) (m e : Z) :
  0 <= m <= 2 ^ 53 -> (x == inject_Z m * 2 ^ e)%Q ->
  (ddiv x 1024 == inject_Z m * 2 ^ (e - 10))%Q.
Proof.
  intros Hm E. unfold ddiv.
  assert (S : (x / 1024 == inject_Z m * 2 ^ (e - 10))%Q).
  { rewrite E. unfold Z.sub. rewrite pow2_add. change (2 ^ (- (10)))%Q with (1 # 1024).
    field. }
  rewrite (rnd_comp _ _ S). apply rnd_dyadic_le, Hm.
Qed.

Lemma ddiv_1024_value (x : Q) (m e : Z) :
  0 <= m <= 2 ^ 53 -> (x == inject_Z m * 2 ^ e)%Q -> (ddiv x 1024 == x / 1024)%Q.
Proof.
  intros Hm E. rewrite (ddiv_1024 x m e Hm E), E.
  unfold Z.sub. rewrite pow2_add. change (2 ^ (- (10)))%Q with (1 # 1024). field.
Qed.

Lemma show_fixed_comp p x y : (x == y)%Q -> show_fixed p x = show_fixed p y.
Proof.
  intros E. unfold show_fixed.
  assert (A : (Qabs.Qabs x * inject_Z (10 ^ Z.of_nat p) == Qabs.Qabs y * inject_Z (10 ^ Z.of_nat p))%Q)
    by (rewrite E; reflexivity).
  rewrite (rhe_comp _ _ A).
  destruct (Qlt_le_dec x 0), (Qlt_le_dec y 0); try reflexivity; lra.
Qed.

Lemma ddiv_1024_twice (x : Q) (m e : Z) :
  0 <= m <= 2 ^ 53 -> (x == inject_Z m * 2 ^ e)%Q ->
  (ddiv (ddiv x 1024) 1024 == x / inject_Z (2 ^ 20))%Q.
Proof.
  intros Hm E. pose proof (ddiv_1024 x m e Hm E) as E1.
  rewrite (ddiv_1024_value _ m (e - 10) Hm E1), (ddiv_1024_value x m e Hm E).
  change (inject_Z (2 ^ 20)) with (1048576 # 1). field.
Qed.

Lemma ddiv_1024_thrice (x : Q) (m e : Z) :
  0 <= m <= 2 ^ 53 -> (x == inject_Z m * 2 ^ e)%Q ->
  (ddiv (ddiv (ddiv x 1024) 1024) 1024 == x / inject_Z (2 ^ 30))%Q.
Proof.
  intros Hm E. pose proof (ddiv_1024 x m e Hm E) as E1.
  pose proof (ddiv_1024 _ m (e - 10) Hm E1) as E2.
  rewrite (ddiv_1024_value _ m (e - 10 - 10) Hm E2), (ddiv_1024_value _ m (e - 10) Hm E1),
    (ddiv_1024_value x m e Hm E).
  change (inject_Z (2 ^ 30)) with (1073741824 # 1). field.
Qed.

Lemma small_is_dyadic (n : Z) :
  0 <= n <= 2 ^ 53 -> (of_u64 n == inject_Z n * 2 ^ 0)%Q.
Proof. intros H. rewrite of_u64_exact by exact H. change (2 ^ 0)%Q with 1%Q. ring. Qed.

(** The model prints what the C library prints on these operands. *)
Example format_agrees_with_printf :
  format_bytes 1023 = lit "1023 B" /\
  format_bytes 1536 = lit "1.50 KB" /\
  format_bytes 1073741823 = lit "1024.00 MB" /\
  format_kb 16384256 = lit "15.63 GB" /\
  show_fixed 1 (rnd (1 # 20)) = lit "0.1" /\
  show_fixed 2 (rnd (1 # 8)) = lit "0.12".
Proof. vm_compute. repeat split. Qed.

(** X14: [format_bytes] picks the unit by the size of the count and
    prints the quotient by the unit rounded once to two decimals: the
    divisions by 1024.0 are exact, so that the only rounding before the
    output is the conversion of a count above 2^53 to [double]. *)
Theorem format_bytes_prints_the_quotient :
  forall bytes,
    0 <= bytes < 2 ^ 64 ->
    format_bytes bytes
    = (if bytes >=? 2 ^ 30 then
         show_fixed 2 (of_u64 bytes / inject_Z (2 ^ 30))%Q ++ lit " GB"
       else if bytes >=? 2 ^ 20 then
         show_fixed 2 (inject_Z bytes / inject_Z (2 ^ 20))%Q ++ lit " MB"
       else if bytes >=? 2 ^ 10 then
         show_fixed 2 (inject_Z bytes / inject_Z (2 ^ 10))%Q ++ lit " KB"
       else show_unsigned bytes ++ lit " B") /\
    (bytes <= 2 ^ 53 -> of_u64 bytes = inject_Z bytes).
Proof.
  intros bytes [H0 H1]. split; [|intros; apply of_u64_exact; lia].
  unfold format_bytes.
  change (1024 * 1024 * 1024) with 1073741824. change (1024 * 1024) with 1048576.
  change (2 ^ 30) with 1073741824. change (2 ^ 20) with 1048576.
  change (2 ^ 10) with 1024.
  destruct (bytes >=? 1073741824) eqn:G.
  - f_equal. apply show_fixed_comp.
    destruct (rnd_representable (inject_Z bytes)) as (m & e & Hm & E);
      [apply (inject_Z_le 0 bytes); lia|].
    apply (ddiv_1024_thrice _ m e Hm E).
  - assert (S : 0 <= bytes <= 2 ^ 53) by lia.
    destruct (bytes >=? 1048576) eqn:M.
    + f_equal. apply show_fixed_comp.
      rewrite (ddiv_1024_twice _ bytes 0 S (small_is_dyadic _ S)).
      rewrite of_u64_exact by exact S. reflexivity.
    + destruct (bytes >=? 1024) eqn:K; [|reflexivity].
      f_equal. apply show_fixed_comp.
      rewrite (ddiv_1024_value _ bytes 0 S (small_is_dyadic _ S)).
      rewrite of_u64_exact by exact S. reflexivity.
Qed.

Lemma format_bytes_prints_the_quotient_witness :
  0 <= 1536 < 2 ^ 64 /\
  format_bytes 1536
  = (if 1536 >=? 2 ^ 30 then
       show_fixed 2 (of_u64 1536 / inject_Z (2 ^ 30))%Q ++ lit " GB"
     else if 1536 >=? 2 ^ 20 then
       show_fixed 2 (inject_Z 1536 / inject_Z (2 ^ 20))%Q ++ lit " MB"
     else if 1536 >=? 2 ^ 10 then
       show_fixed 2 (inject_Z 1536 / inject_Z (2 ^ 10))%Q ++ lit " KB"
     else show_unsigned 1536 ++ lit " B") /\
  (1536 <= 2 ^ 53 -> of_u64 1536 = inject_Z 1536).
Proof.
  assert (R : 0 <= 1536 < 2 ^ 64) by lia.
  split; [exact R|]. exact (format_bytes_prints_the_quotient 1536 R).
Defined.

(** X15: [format_kb] does the same from a count of kilobytes, which the
    two divisions by 1024.0 turn into gigabytes without error. *)
Theorem format_kb_prints_the_quotient :
  forall kb,
    0 <= kb < 2 ^ 64 ->
    format_kb kb
    = (if kb >=? 2 ^ 20 then
         show_fixed 2 (of_u64 kb / inject_Z (2 ^ 20))%Q ++ lit " GB"
       else if kb >=? 2 ^ 10 then
         show_fixed 2 (inject_Z kb / inject_Z (2 ^ 10))%Q ++ lit " MB"
       else show_unsigned kb ++ lit " KB") /\
    (kb <= 2 ^ 53 -> of_u64 kb = inject_Z kb).
Proof.
  intros kb [H0 H1]. split; [|intros; apply of_u64_exact; lia].
  unfold format_kb.
  change (1024 * 1024) with 1048576.
  change (2 ^ 20) with 1048576. change (2 ^ 10) with 1024.
  destruct (kb >=? 1048576) eqn:G.
  - f_equal. apply show_fixed_comp.
    destruct (rnd_representable (inject_Z kb)) as (m & e & Hm & E);
      [apply (inject_Z_le 0 kb); lia|].
    apply (ddiv_1024_twice _ m e Hm E).
  - assert (S : 0 <= kb <= 2 ^ 53) by lia.
    destruct (kb >=? 1024) eqn:K; [|reflexivity].
    f_equal. apply show_fixed_comp.
    rewrite (ddiv_1024_value _ kb 0 S (small_is_dyadic _ S)).
    rewrite of_u64_exact by exact S. reflexivity.
Qed.

Lemma format_kb_prints_the_quotient_witness :
  0 <= 16384256 < 2 ^ 64 /\
  format_kb 16384256
  = (if 16384256 >=? 2 ^ 20 then
       show_fixed 2 (of_u64 16384256 / inject_Z (2 ^ 20))%Q ++ lit " GB"
     else if 16384256 >=? 2 ^ 10 then
       show_fixed 2 (inject_Z 16384256 / inject_Z (2 ^ 10))%Q ++ lit " MB"
     else show_unsigned 16384256 ++ lit " KB") /\
  (16384256 <= 2 ^ 53 -> of_u64 16384256 = inject_Z 16384256).
Proof.
  assert (R : 0 <= 16384256 < 2 ^ 64) by lia.
  split; [exact R|]. exact (format_kb_prints_the_quotient 16384256 R).
Defined.

End FormatFacts.

(** ** The split of the uptime and the megabytes of a process *)

Module DisplayFacts.
Import Display Binary64Facts FormatFacts.

Lemma trunc_floor (x : Q) :
  (0 <= x)%Q -> Z.quot (Qnum x) (Zpos (Qden x)) = Qfloor x.
Proof.
  intros H. destruct x as [n d]. unfold Qle in H. cbn in H |- *.
  apply Z.quot_div_nonneg; lia.
Qed.

Lemma to_int_floor (x : Q) :
  (0 <= x)%Q -> Qfloor x <= INT_MAX -> to_int x = Normal (Qfloor x).
Proof.
  intros H M. unfold to_int. rewrite trunc_floor by exact H.
  assert (F : 0 <= Qfloor x).
  { change 0 with (Qfloor 0). apply Qfloor_resp_le, H. }
  destruct (Qfloor x <? INT_MIN) eqn:A; [change INT_MIN with (-2147483648) in A; lia|].
  destruct (Qfloor x >? INT_MAX) eqn:B; [lia|]. reflexivity.
Qed.

Lemma floor_bounds (x : Q) : (inject_Z (Qfloor x) <= x < inject_Z (Qfloor x + 1))%Q.
Proof. split; [apply Qfloor_le | apply Qlt_floor]. Qed.

(** The quotient by 86400.0, cut to an integer, is the number of whole
    days or one more. *)
Lemma days_bounds (u : Q) :
  (0 <= u)%Q -> Qfloor u < 2 ^ 52 ->
  Qfloor u / 86400 <= Qfloor (ddiv u 86400%Q) <= Qfloor u / 86400 + 1.
Proof.
  intros H M. set (t := Qfloor u). set (n := t / 86400).
  assert (T0 : 0 <= t) by (change 0 with (Qfloor 0); apply Qfloor_resp_le, H).
  pose proof (Z.div_mod t 86400 ltac:(lia)) as D. fold n in D.
  pose proof (Z.mod_pos_bound t 86400 ltac:(lia)) as R.
  destruct (floor_bounds u) as [L U]. fold t in L, U.
  assert (N0 : 0 <= n) by (apply Z.div_pos; lia).
  assert (Lx : (inject_Z n <= u / 86400)%Q).
  { apply Qle_shift_div_l; [reflexivity|].
    apply Qle_trans with (inject_Z t); [|exact L].
    change 86400%Q with (inject_Z 86400). rewrite <- inject_Z_mult.
    apply inject_Z_le. lia. }
  assert (Ux : (u / 86400 <= inject_Z (n + 1))%Q).
  { apply Qle_shift_div_r; [reflexivity|].
    apply Qle_trans with (inject_Z (t + 1)); [lra|].
    change 86400%Q with (inject_Z 86400). rewrite <- inject_Z_mult.
    apply inject_Z_le. lia. }
  assert (X0 : (0 <= u / 86400)%Q).
  { apply Qle_trans with (inject_Z n); [apply (inject_Z_le 0 n); lia|exact Lx]. }
  unfold ddiv. split.
  - rewrite <- (Qfloor_Z n). apply Qfloor_resp_le.
    rewrite <- (rnd_Z_exact n) by lia.
    apply rnd_mono; [apply (inject_Z_le 0 n); lia|exact Lx].
  - rewrite <- (Qfloor_Z (n + 1)). apply Qfloor_resp_le.
    rewrite <- (rnd_Z_exact (n + 1)) by lia.
    apply rnd_mono; assumption.
Qed.

End DisplayFacts.

Module DayFacts.
Import Display Binary64Facts FormatFacts DisplayFacts.

Lemma inject_Z_sub (a b : Z) : (inject_Z (a - b) == inject_Z a - inject_Z b)%Q.
Proof. unfold Z.sub. rewrite inject_Z_plus, inject_Z_opp. reflexivity. Qed.

Lemma rhe_below (z : Q) (k : Z) :
  (z < inject_Z k - (1 # 2))%Q -> round_half_even z <= k - 1.
Proof.
  intros H. destruct (floor_bounds z) as [L U].
  assert (F : Qfloor z <= k - 1).
  { assert (inject_Z (Qfloor z) < inject_Z k)%Q by lra.
    rewrite <- Zlt_Qlt in H0. lia. }
  unfold round_half_even.
  destruct (Qcompare_spec (z - inject_Z (Qfloor z)) (1 # 2)) as [E | E | E].
  - destruct (Z.eq_dec (Qfloor z) (k - 1)) as [Q | Q].
    + rewrite Q in E. rewrite inject_Z_sub in E. change (inject_Z 1) with 1%Q in E. lra.
    + destruct (Z.even (Qfloor z)); lia.
  - exact F.
  - destruct (Z.eq_dec (Qfloor z) (k - 1)) as [Q | Q].
    + rewrite Q in E. rewrite inject_Z_sub in E. change (inject_Z 1) with 1%Q in E. lra.
    + lia.
Qed.

Lemma pow2_lt_inv a b : (2 ^ a < 2 ^ b)%Q -> a < b.
Proof.
  intros H. destruct (Z_lt_le_dec a b) as [L | L]; [exact L|].
  pose proof (pow2_le b a L). lra.
Qed.

Lemma half_ulp : (2 ^ 52 * 2 ^ (-53) == 1 # 2)%Q.
Proof. reflexivity. Qed.

(** Below an integer by its relative half-spacing, a value rounds below
    the integer. *)
Lemma rnd_below (k : Z) (x : Q) :
  1 <= k < 2 ^ 53 -> (0 < x)%Q -> (x <= inject_Z k * (1 - 2 ^ (-53)))%Q ->
  (rnd x < inject_Z k)%Q.
Proof.
  intros [K1 K2] Px Hx.
  assert (Pk : (0 < inject_Z k)%Q) by (apply (inject_Z_lt 0 k); lia).
  assert (E53 : (0 < 2 ^ (-53))%Q) by apply pow2_pos.
  assert (Xk : (x < inject_Z k)%Q) by nra.
  destruct (binade_spec x Px) as [B1 B2]. set (bx := binade x) in *.
  assert (Bx : bx < 53).
  { apply pow2_lt_inv. apply Qle_lt_trans with x; [exact B1|].
    apply Qlt_trans with (inject_Z k); [exact Xk|].
    rewrite <- pow2_Z by lia. apply inject_Z_lt. exact K2. }
  set (j := 52 - bx). assert (Hj : 0 <= j) by (unfold j; lia).
  pose proof (pow2_pos j) as Pj. pose proof (pow2_pos bx) as Pb.
  assert (BP : (2 ^ bx * 2 ^ j == 2 ^ 52)%Q).
  { rewrite <- pow2_add. replace (bx + j) with 52 by (unfold j; lia). reflexivity. }
  assert (G : (2 ^ (bx - 52) == / 2 ^ j)%Q).
  { replace (bx - 52) with (- j) by (unfold j; lia). apply Qpower_opp. }
  assert (S : (x / 2 ^ (bx - 52) == x * 2 ^ j)%Q).
  { rewrite G. field. lra. }
  assert (KJ : (inject_Z (k * 2 ^ j) == inject_Z k * 2 ^ j)%Q).
  { rewrite inject_Z_mult, pow2_Z by exact Hj. reflexivity. }
  assert (R : round_half_even (x / 2 ^ (bx - 52)) <= k * 2 ^ j - 1).
  { apply rhe_below. rewrite S, KJ.
    assert (T : (2 ^ 52 < inject_Z k * 2 ^ j)%Q).
    { rewrite <- BP. apply Qmult_lt_compat_r; [exact Pj|]. lra. }
    pose proof half_ulp as HU.
    assert (T2 : (1 # 2 < inject_Z k * 2 ^ j * 2 ^ (-53))%Q).
    { rewrite <- HU. apply Qmult_lt_compat_r; [exact E53|exact T]. }
    assert (T3 : (x * 2 ^ j <= inject_Z k * (1 - 2 ^ (-53)) * 2 ^ j)%Q).
    { apply Qmult_le_compat_r; [exact Hx|lra]. }
    lra. }
  rewrite rnd_pos_case by exact Px. rewrite rnd_pos_eq. fold bx.
  apply Qle_lt_trans with (inject_Z (k * 2 ^ j - 1) * 2 ^ (bx - 52))%Q.
  - apply Qmult_le_compat_r; [apply inject_Z_le, R|].
    apply Qlt_le_weak, pow2_pos.
  - rewrite inject_Z_sub, KJ, G. change (inject_Z 1) with 1%Q.
    assert (Pi : (0 < / 2 ^ j)%Q) by (apply Qinv_lt_0_compat; exact Pj).
    setoid_replace ((inject_Z k * 2 ^ j - 1) * / 2 ^ j)%Q
      with (inject_Z k - / 2 ^ j)%Q by (field; lra).
    lra.
Qed.

(** A binary64 number below an integer is below it by the relative
    spacing. *)
Lemma gap_below (u : Q) (N : Z) :
  (0 < u)%Q -> (rnd u == u)%Q -> 0 < N <= 2 ^ 52 -> (u < inject_Z N)%Q ->
  (u <= inject_Z N * (1 - 2 ^ (-53)))%Q.
Proof.
  intros Pu Ru [N0 N1] UN.
  assert (E53 : (0 < 2 ^ (-53))%Q) by apply pow2_pos.
  destruct (binade_spec u Pu) as [B1 B2]. set (bu := binade u) in *.
  assert (Bu : bu < 52).
  { apply pow2_lt_inv. apply Qle_lt_trans with u; [exact B1|].
    apply Qlt_le_trans with (inject_Z N); [exact UN|].
    rewrite <- pow2_Z by lia. apply inject_Z_le. exact N1. }
  set (j := 52 - bu). assert (Hj : 0 <= j) by (unfold j; lia).
  pose proof (pow2_pos j) as Pj.
  assert (G : (2 ^ (bu - 52) == / 2 ^ j)%Q).
  { replace (bu - 52) with (- j) by (unfold j; lia). apply Qpower_opp. }
  assert (Pi : (0 < / 2 ^ j)%Q) by (apply Qinv_lt_0_compat; exact Pj).
  set (M := round_half_even (u / 2 ^ (bu - 52))).
  assert (UM : (u == inject_Z M * / 2 ^ j)%Q).
  { rewrite <- Ru at 1. rewrite rnd_pos_case by exact Pu. rewrite rnd_pos_eq.
    fold bu. fold M. rewrite G. reflexivity. }
  assert (P1 : (2 ^ (bu + 1) == inject_Z (2 ^ 53) * / 2 ^ j)%Q).
  { rewrite pow2_Z by lia.
    replace (bu + 1) with (53 + - j) by (unfold j; lia).
    rewrite pow2_add, Qpower_opp. reflexivity. }
  assert (below : forall K : Z, (u < inject_Z K * / 2 ^ j)%Q ->
                                (u <= inject_Z K * / 2 ^ j - / 2 ^ j)%Q).
  { intros K HK. rewrite UM in HK.
    assert (MK : (inject_Z M < inject_Z K)%Q).
    { apply Qmult_lt_r with (/ 2 ^ j)%Q; assumption. }
    rewrite <- Zlt_Qlt in MK.
    assert (MK' : (inject_Z (M + 1) <= inject_Z K)%Q) by (apply inject_Z_le; lia).
    rewrite inject_Z_plus in MK'. change (inject_Z 1) with 1%Q in MK'.
    rewrite UM. nra. }
  destruct (Qlt_le_dec (2 ^ (bu + 1)) (inject_Z N)) as [C | C].
  - assert (U1 : (u <= 2 ^ (bu + 1) - / 2 ^ j)%Q).
    { rewrite P1. apply below. rewrite <- P1. exact B2. }
    assert (GP : (/ 2 ^ j == 2 ^ (bu + 1) * 2 ^ (-53))%Q).
    { rewrite <- pow2_add, <- G. replace (bu + 1 + -53) with (bu - 52) by lia.
      reflexivity. }
    rewrite GP in U1. pose proof (pow2_pos (bu + 1)). nra.
  - assert (NJ : (inject_Z N == inject_Z (N * 2 ^ j) * / 2 ^ j)%Q).
    { rewrite inject_Z_mult, pow2_Z by exact Hj. field. lra. }
    assert (U1 : (u <= inject_Z N - / 2 ^ j)%Q).
    { rewrite NJ at 1. apply below. rewrite <- NJ. exact UN. }
    assert (GP : (/ 2 ^ j == 2 ^ (bu + 1) * 2 ^ (-53))%Q).
    { rewrite <- pow2_add, <- G. replace (bu + 1 + -53) with (bu - 52) by lia.
      reflexivity. }
    rewrite GP in U1. nra.
Qed.

Lemma rnd_idem (q : Q) : (0 <= q)%Q -> (rnd (rnd q) == rnd q)%Q.
Proof.
  intros H. destruct (rnd_representable q H) as (m & e & Hm & E).
  rewrite (rnd_comp _ _ E), E. apply rnd_dyadic_le, Hm.
Qed.

(** The quotient of a binary64 uptime by 86400.0, cut to an integer, is
    the number of whole days. *)
Lemma days_exact (u : Q) :
  (0 <= u)%Q -> (rnd u == u)%Q -> Qfloor u < 2 ^ 32 ->
  Qfloor (ddiv u 86400%Q) = Qfloor u / 86400.
Proof.
  intros H Ru M.
  assert (M52 : Qfloor u < 2 ^ 52).
  { change (2 ^ 32) with 4294967296 in M. change (2 ^ 52) with 4503599627370496. lia. }
  destruct (days_bounds u H M52) as [D1 D2].
  set (t := Qfloor u) in *. set (n := t / 86400) in *.
  assert (T0 : 0 <= t) by (change 0 with (Qfloor 0); apply Qfloor_resp_le, H).
  assert (N0 : 0 <= n) by (apply Z.div_pos; lia).
  destruct (Qlt_le_dec 0 u) as [Pu | Zu].
  - pose proof (Z.div_mod t 86400 ltac:(lia)) as D. fold n in D.
    pose proof (Z.mod_pos_bound t 86400 ltac:(lia)) as R.
    destruct (floor_bounds u) as [L U]. fold t in L, U.
    assert (UN : (u < inject_Z ((n + 1) * 86400))%Q).
    { apply Qlt_le_trans with (inject_Z (t + 1)); [exact U|]. apply inject_Z_le. lia. }
    assert (NB : 0 < (n + 1) * 86400 <= 2 ^ 52).
    { change (2 ^ 32) with 4294967296 in M. change (2 ^ 52) with 4503599627370496. lia. }
    pose proof (gap_below u _ Pu Ru NB UN) as Gp.
    assert (Px : (0 < u / 86400)%Q) by (apply Qlt_shift_div_l; [reflexivity|lra]).
    assert (E53 : (0 < 2 ^ (-53))%Q) by apply pow2_pos.
    assert (Hx : (u / 86400 <= inject_Z (n + 1) * (1 - 2 ^ (-53)))%Q).
    { apply Qle_shift_div_r; [reflexivity|].
      rewrite inject_Z_mult in Gp. change (inject_Z 86400) with 86400%Q in Gp. lra. }
    assert (KB : 1 <= n + 1 < 2 ^ 53).
    { change (2 ^ 32) with 4294967296 in M. change (2 ^ 53) with 9007199254740992. lia. }
    pose proof (rnd_below (n + 1) _ KB Px Hx) as Rb. fold (ddiv u 86400%Q) in Rb.
    destruct (floor_bounds (ddiv u 86400%Q)) as [FL _].
    assert (FB : (inject_Z (Qfloor (ddiv u 86400%Q)) < inject_Z (n + 1))%Q) by lra.
    rewrite <- Zlt_Qlt in FB. lia.
  - assert (U0 : (u == 0)%Q) by lra.
    assert (X0 : (u / 86400 == 0)%Q) by (rewrite U0; reflexivity).
    unfold ddiv. rewrite (rnd_zero_case _ X0).
    assert (t = 0).
    { unfold t. rewrite (Qfloor_comp _ _ U0). reflexivity. }
    unfold n. rewrite H0. reflexivity.
Qed.

End DayFacts.

Module DisplayProperties.
Import Display Binary64Facts FormatFacts DisplayFacts DayFacts.

(** X16: for a binary64 uptime below 2^31 seconds the split returns the
    whole days of the uptime, hours below 24, minutes and seconds below
    60, and the four add up to the whole seconds of the uptime.  From
    2^31 seconds on the conversion to [int] is undefined. *)
Theorem uptime_split_is_exact :
  (forall u,
     (0 <= u)%Q -> (rnd u == u)%Q -> Qfloor u <= INT_MAX ->
     exists h m s,
       uptime_fields u = Normal (Qfloor u / 86400, h, m, s) /\
       0 <= h < 24 /\ 0 <= m < 60 /\ 0 <= s < 60 /\
       86400 * (Qfloor u / 86400) + 3600 * h + 60 * m + s = Qfloor u) /\
  (forall u, (inject_Z (2 ^ 31) <= u)%Q -> uptime_fields u = Undefined).
Proof.
  split.
  - intros u H Ru M. change INT_MAX with 2147483647 in M.
    assert (T0 : 0 <= Qfloor u) by (change 0 with (Qfloor 0); apply Qfloor_resp_le, H).
    assert (M32 : Qfloor u < 2 ^ 32) by (change (2 ^ 32) with 4294967296; lia).
    pose proof (days_exact u H Ru M32) as D.
    assert (Dn : 0 <= Qfloor u / 86400 < 24856).
    { split; [apply Z.div_pos; lia|]. apply Z.div_lt_upper_bound; lia. }
    assert (X0 : (0 <= ddiv u 86400%Q)%Q).
    { apply rnd_nonneg. apply Qle_shift_div_l; [reflexivity|]. lra. }
    unfold uptime_fields.
    rewrite (to_int_floor (ddiv u 86400%Q) X0)
      by (rewrite D; change INT_MAX with 2147483647; lia).
    rewrite (to_int_floor u H) by (change INT_MAX with 2147483647; lia).
    cbn [bind]. rewrite D. set (t := Qfloor u) in *.
    do 3 eexists. split; [reflexivity|].
    rewrite !Z.rem_mod_nonneg, !Z.quot_div_nonneg by
      (try apply Z.mod_pos_bound; lia).
    pose proof (Z.mod_pos_bound t 86400 ltac:(lia)).
    pose proof (Z.mod_pos_bound t 3600 ltac:(lia)).
    pose proof (Z.mod_pos_bound t 60 ltac:(lia)).
    pose proof (Z.div_mod t 86400 ltac:(lia)).
    pose proof (Z.div_mod (t mod 86400) 3600 ltac:(lia)).
    pose proof (Z.div_mod (t mod 3600) 60 ltac:(lia)).
    pose proof (Z.mod_pos_bound (t mod 86400) 3600 ltac:(lia)).
    pose proof (Z.mod_pos_bound (t mod 3600) 60 ltac:(lia)).
    assert (A : (t mod 86400) mod 3600 = t mod 3600).
    { apply Z.mod_mod_divide. exists 24. reflexivity. }
    assert (B : (t mod 3600) mod 60 = t mod 60).
    { apply Z.mod_mod_divide. exists 60. reflexivity. }
    repeat split; try lia;
      try (apply Z.div_pos; lia); try (apply Z.div_lt_upper_bound; lia).
  - intros u H. unfold uptime_fields.
    assert (P : (0 <= u)%Q).
    { apply Qle_trans with (inject_Z (2 ^ 31)); [|exact H]. discriminate. }
    assert (F : 2 ^ 31 <= Qfloor u).
    { rewrite <- (Qfloor_Z (2 ^ 31)). apply Qfloor_resp_le, H. }
    assert (U : to_int u = Undefined).
    { unfold to_int. rewrite trunc_floor by exact P.
      change (2 ^ 31) with 2147483648 in F.
      destruct (Qfloor u <? INT_MIN); [reflexivity|].
      destruct (Qfloor u >? INT_MAX) eqn:G; [reflexivity|].
      change INT_MAX with 2147483647 in G. lia. }
    rewrite U. unfold to_int. destruct ((_ <? _) || (_ >? _)); reflexivity.
Qed.

Lemma uptime_split_is_exact_witness :
  (0 <= rnd (35073547 # 100))%Q /\
  (rnd (rnd (35073547 # 100)) == rnd (35073547 # 100))%Q /\
  Qfloor (rnd (35073547 # 100)) <= INT_MAX /\
  exists h m s,
    uptime_fields (rnd (35073547 # 100))
    = Normal (Qfloor (rnd (35073547 # 100)) / 86400, h, m, s) /\
    0 <= h < 24 /\ 0 <= m < 60 /\ 0 <= s < 60 /\
    86400 * (Qfloor (rnd (35073547 # 100)) / 86400) + 3600 * h + 60 * m + s
    = Qfloor (rnd (35073547 # 100)).
Proof.
  assert (H : (0 <= rnd (35073547 # 100))%Q) by (vm_compute; discriminate).
  assert (R : (rnd (rnd (35073547 # 100)) == rnd (35073547 # 100))%Q)
    by (vm_compute; reflexivity).
  assert (M : Qfloor (rnd (35073547 # 100)) <= INT_MAX) by (vm_compute; discriminate).
  split; [exact H|]. split; [exact R|]. split; [exact M|].
  exact (proj1 uptime_split_is_exact _ H R M).
Defined.

(** X17: the megabytes shown for a process are its resident pages
    divided by 256 (pages of 4 kilobytes), without rounding error up to
    2^53 pages. *)
Theorem rss_mb_is_exact :
  forall rss, 0 <= rss <= 2 ^ 53 -> (rss_mb rss == inject_Z rss / 256)%Q.
Proof.
  intros rss H. unfold rss_mb. rewrite rnd_Z_exact by exact H.
  assert (E4 : (inject_Z rss * 4 == inject_Z rss * 2 ^ 2)%Q) by reflexivity.
  assert (D : (dmul (inject_Z rss) 4 == inject_Z rss * 2 ^ 2)%Q).
  { unfold dmul. rewrite (rnd_comp _ _ E4). apply rnd_dyadic_le, H. }
  rewrite (ddiv_1024 _ rss 2 H D).
  change (2 ^ (2 - 10))%Q with (1 # 256). field.
Qed.

Lemma rss_mb_is_exact_witness :
  0 <= 250 <= 2 ^ 53 /\ (rss_mb 250 == inject_Z 250 / 256)%Q.
Proof.
  assert (H : 0 <= 250 <= 2 ^ 53) by (split; [lia|discriminate]).
  split; [exact H|]. exact (rss_mb_is_exact 250 H).
Defined.

End DisplayProperties.

(** ** The factory, and a timer event without sources *)

Module FactoryFacts.
Import Main Refresh RefreshFacts LoopFacts.

(** X18: the factory creates one collector for each registration, in
    the order of the registrations; with the six registrations of
    [Collectors.cpp] these are the system, CPU, memory, disk, network
    and process collectors, each as constructed. *)
Theorem factory_creates_in_registration_order :
  (forall creators f,
     CollectorFactory.create_all
       (fold_left (fun f creator => CollectorFactory.register_collector creator f)
                  creators f)
     = CollectorFactory.create_all f ++ map (fun creator => creator tt) creators) /\
  CollectorFactory.create_all CollectorFactory.registered = create_all.
Proof.
  split; [|reflexivity].
  induction creators as [|c cs IH]; intros f; cbn [fold_left map].
  - now rewrite app_nil_r.
  - rewrite IH. unfold CollectorFactory.create_all, CollectorFactory.register_collector.
    rewrite map_app, <- app_assoc. reflexivity.
Qed.







End FactoryFacts.

(** ** The first screen, and the lists that are rebuilt *)

Module FirstScreen.
Import Main Refresh RefreshFacts LoopFacts.

Lemma update_all_cons `{Srt : StdSort} k lg c cs cs' lg' :
  update_all k lg (c :: cs) = Normal (cs', lg') ->
  exists c1 lg1 cs1,
    update k lg c = Normal (c1, lg1) /\
    update_all k lg1 cs = Normal (cs1, lg') /\
    cs' = c1 :: cs1.
Proof.
  cbn [update_all].
  destruct (update k lg c) as [[c1 lg1]| |] eqn:U; cbn [bind fst snd]; try discriminate.
  destruct (update_all k lg1 cs) as [[cs1 lg2]| |] eqn:A; cbn [bind fst snd];
    try discriminate.
  intros E. injection E as <- <-. exists c1, lg1, cs1. repeat split. exact A.
Qed.

Lemma update_cpu `{Srt : StdSort} k lg c c1 lg1 content s :
  file k CPU_PATH = Some content ->
  CPUCollector.extract_counters (first_line content) = Normal s ->
  update k lg (CCPU c) = Normal (c1, lg1) ->
  c1 = CCPU (CPUCollector.do_calculate
               (CPUCollector.mk (first_line content) (CPUCollector.curr_idle_ c)
                  (CPUCollector.curr_total_ c) (CPUCollector.idle_ticks s)
                  (CPUCollector.total_ticks s) (CPUCollector.usage_percent_ c))).
Proof.
  intros F E. cbn [update]. unfold lift.
  rewrite (CPUFacts.update_readable k lg c _ _ F E). cbn [bind fst snd].
  intros U. injection U as <- _. reflexivity.
Qed.

(** X20: the first loop of [main] takes a first CPU sample, and the first
    timer event a second one.  When the totals of the two samples differ,
    the CPU usage on the first screen is that of the interval between
    start-up and the first timer event, computed on the differences of
    the two samples (taken in 64 bits).  When the totals are equal (no
    clock tick was counted in between), the first screen shows the usage
    computed at start-up, which is the usage since boot, or 0 when that
    total is 0. *)
Theorem first_screen_cpu_usage :
  forall (Srt : StdSort) k0 k1 p0 p1 content0 s0 content1 s1,
    file k0 CPU_PATH = Some content0 ->
    CPUCollector.extract_counters (first_line content0) = Normal s0 ->
    file k1 CPU_PATH = Some content1 ->
    CPUCollector.extract_counters (first_line content1) = Normal s1 ->
    startup k0 = Normal p0 ->
    tick k1 p0 = Normal p1 ->
    exists shown_system usage rest,
      screen p1 = shown_system :: RCPU usage :: rest /\
      (CPUCollector.total_ticks s1 <> CPUCollector.total_ticks s0 ->
       usage
       = ddiv (dmul 100%Q
                 (of_u64 (wrap 64
                    (wrap 64 (CPUCollector.total_ticks s1 - CPUCollector.total_ticks s0)
                     - wrap 64 (CPUCollector.idle_ticks s1
                                - CPUCollector.idle_ticks s0)))))
              (of_u64 (wrap 64 (CPUCollector.total_ticks s1
                                - CPUCollector.total_ticks s0)))) /\
      (CPUCollector.total_ticks s1 = CPUCollector.total_ticks s0 ->
       usage
       = if CPUCollector.total_ticks s0 >? 0
         then ddiv (dmul 100%Q
                      (of_u64 (wrap 64 (CPUCollector.total_ticks s0
                                        - CPUCollector.idle_ticks s0))))
                   (of_u64 (CPUCollector.total_ticks s0))
         else 0%Q).
Proof.
  intros Srt k0 k1 p0 p1 content0 s0 content1 s1 F0 E0 F1 E1 S T.
  unfold startup in S.
  destruct (update_all k0 _ create_all) as [[cs lg]| |] eqn:A; cbn [bind fst snd] in S;
    try discriminate.
  injection S as <-. unfold create_all in A.
  apply update_all_cons in A. destruct A as (c_sys & lg1 & cs1 & _ & A & ->).
  apply update_all_cons in A. destruct A as (c_cpu & lg2 & cs2 & U0 & _ & ->).
  apply (update_cpu _ _ _ _ _ _ _ F0 E0) in U0. subst c_cpu.
  unfold tick in T. rewrite tick_loop_unfold in T. cbn [logger collectors] in T.
  destruct (update_all k1 _ _) as [[cs' lg']| |] eqn:B; cbn [bind fst snd] in T;
    try discriminate.
  injection T as <-. cbn [screen].
  apply update_all_cons in B. destruct B as (d_sys & lg3 & ds1 & _ & B & ->).
  apply update_all_cons in B. destruct B as (d_cpu & lg4 & ds2 & U1 & _ & ->).
  apply (update_cpu _ _ _ _ _ _ _ F1 E1) in U1. subst d_cpu.
  cbn [map print_result]. do 3 eexists. split; [reflexivity|].
  destruct (CPUSeries.calculate_fields
              (CPUCollector.mk (first_line content0)
                 (CPUCollector.curr_idle_ CPUCollector.init)
                 (CPUCollector.curr_total_ CPUCollector.init)
                 (CPUCollector.idle_ticks s0) (CPUCollector.total_ticks s0)
                 (CPUCollector.usage_percent_ CPUCollector.init)))
    as (_ & _ & I0 & T0 & _).
  rewrite I0, T0.
  cbn [CPUCollector.curr_idle_ CPUCollector.curr_total_].
  destruct (CPUSeries.ticks_range s0) as [Ri0 R0].
  destruct (CPUSeries.ticks_range s1) as [_ R1].
  set (d := wrap 64 (CPUCollector.total_ticks s1 - CPUCollector.total_ticks s0)).
  assert (D : d = 0 <-> CPUCollector.total_ticks s1 = CPUCollector.total_ticks s0).
  { unfold d, wrap. split; intros E.
    - destruct (Z.lt_trichotomy (CPUCollector.total_ticks s1) (CPUCollector.total_ticks s0))
        as [L | [L | L]]; [|exact L|].
      + rewrite <- (Z_mod_plus_full _ 1) in E. rewrite Z.mod_small in E by lia. lia.
      + rewrite Z.mod_small in E by lia. lia.
    - rewrite E, Z.sub_diag. reflexivity. }
  assert (P : 0 <= d) by (unfold d, wrap; apply Z.mod_pos_bound; lia).
  assert (W0 : wrap 64 (CPUCollector.total_ticks s0) = CPUCollector.total_ticks s0)
    by (unfold wrap; apply Z.mod_small; lia).
  assert (W1 : wrap 64 (CPUCollector.idle_ticks s0) = CPUCollector.idle_ticks s0)
    by (unfold wrap; apply Z.mod_small; lia).
  match goal with
  | |- (_ -> CPUCollector.get_usage ?c = _) /\ _ => set (shown := CPUCollector.get_usage c)
  end.
  assert (U : shown
              = if d >? 0
                then ddiv (dmul 100%Q
                             (of_u64 (wrap 64
                                (d - wrap 64 (CPUCollector.idle_ticks s1
                                              - CPUCollector.idle_ticks s0)))))
                          (of_u64 d)
                else if CPUCollector.total_ticks s0 >? 0
                     then ddiv (dmul 100%Q
                                  (of_u64 (wrap 64 (CPUCollector.total_ticks s0
                                                    - CPUCollector.idle_ticks s0))))
                               (of_u64 (CPUCollector.total_ticks s0))
                     else 0%Q).
  { unfold shown, CPUCollector.get_usage, CPUCollector.do_calculate,
      CPUCollector.total_diff, CPUCollector.idle_diff.
    cbn [CPUCollector.prev_idle_ CPUCollector.prev_total_ CPUCollector.curr_idle_
         CPUCollector.curr_total_ CPUCollector.usage_percent_ CPUCollector.raw_data_
         CPUCollector.init].
    rewrite !Z.sub_0_r, W0, W1. fold d.
    destruct (d >? 0); [reflexivity|].
    destruct (CPUCollector.total_ticks s0 >? 0); reflexivity. }
  rewrite U. clear U. clearbody shown.
  split; intros C.
  - destruct (d >? 0) eqn:G; [reflexivity|].
    rewrite Z.gtb_ltb in G. apply Z.ltb_ge in G. exfalso. apply C, D. lia.
  - destruct (d >? 0) eqn:G; [apply Z.gtb_lt in G; apply D in C; lia|].
    reflexivity.
Qed.

Lemma first_screen_cpu_usage_witness :
  (file Samples.cpu_half_idle CPU_PATH = Some (lit Samples.cpu_half_idle_text) /\
   CPUCollector.extract_counters (first_line (lit Samples.cpu_half_idle_text))
   = Normal (CPUCollector.mkSample 10 0 0 10 0 0 0 0) /\
   file Samples.cpu_later CPU_PATH = Some (lit Samples.cpu_later_text) /\
   CPUCollector.extract_counters (first_line (lit Samples.cpu_later_text))
   = Normal (CPUCollector.mkSample 40 0 0 20 0 0 0 0) /\
   @startup SortFacts.insertion_StdSort Samples.cpu_half_idle
   = Normal Runs.started_cpu_only /\
   @tick SortFacts.insertion_StdSort Samples.cpu_later Runs.started_cpu_only
   = Normal Runs.ticked_cpu_only /\
   @tick SortFacts.insertion_StdSort Samples.cpu_half_idle Runs.started_cpu_only
   = Normal Runs.ticked_cpu_same) /\
  (exists shown_system usage rest,
     screen Runs.ticked_cpu_only = shown_system :: RCPU usage :: rest /\ usage = 75%Q) /\
  (exists shown_system usage rest,
     screen Runs.ticked_cpu_same = shown_system :: RCPU usage :: rest /\ usage = 50%Q).
Proof.
  assert (F0 : file Samples.cpu_half_idle CPU_PATH = Some (lit Samples.cpu_half_idle_text))
    by reflexivity.
  assert (E0 : CPUCollector.extract_counters (first_line (lit Samples.cpu_half_idle_text))
               = Normal (CPUCollector.mkSample 10 0 0 10 0 0 0 0))
    by (vm_compute; reflexivity).
  assert (F1 : file Samples.cpu_later CPU_PATH = Some (lit Samples.cpu_later_text))
    by reflexivity.
  assert (E1 : CPUCollector.extract_counters (first_line (lit Samples.cpu_later_text))
               = Normal (CPUCollector.mkSample 40 0 0 20 0 0 0 0))
    by (vm_compute; reflexivity).
  assert (S : @startup SortFacts.insertion_StdSort Samples.cpu_half_idle
              = Normal Runs.started_cpu_only) by (vm_compute; reflexivity).
  assert (T1 : @tick SortFacts.insertion_StdSort Samples.cpu_later
                 Runs.started_cpu_only
               = Normal Runs.ticked_cpu_only) by (vm_compute; reflexivity).
  assert (T0 : @tick SortFacts.insertion_StdSort Samples.cpu_half_idle
                 Runs.started_cpu_only
               = Normal Runs.ticked_cpu_same) by (vm_compute; reflexivity).
  split; [repeat (split; [assumption|]); assumption|].
  split.
  - destruct (first_screen_cpu_usage SortFacts.insertion_StdSort
                _ _ _ _ _ _ _ _ F0 E0 F1 E1 S T1) as (r & u & rest & Sc & Moved & _).
    exists r, u, rest. split; [exact Sc|].
    rewrite Moved by (vm_compute; discriminate). vm_compute. reflexivity.
  - destruct (first_screen_cpu_usage SortFacts.insertion_StdSort
                _ _ _ _ _ _ _ _ F0 E0 F0 E0 S T0) as (r & u & rest & Sc & _ & Same).
    exists r, u, rest. split; [exact Sc|].
    rewrite Same by reflexivity. vm_compute. reflexivity.
Defined.

(** X21: the disk, network and process collectors build their list
    anew at each refresh that reads its source: the record after the
    refresh does not depend on the record before it, so that no device,
    interface or process of an earlier refresh survives. *)
Theorem lists_are_rebuilt_at_each_refresh :
  forall (Srt : StdSort) k,
    (forall content lg c c' lg' lg2 d d' lg2',
       file k DISK_PATH = Some content ->
       DiskCollector.update k lg c = Normal (c', lg') ->
       DiskCollector.update k lg2 d = Normal (d', lg2') -> c' = d') /\
    (forall content lg c c' lg' lg2 d d' lg2',
       file k NETWORK_PATH = Some content ->
       NetworkCollector.update k lg c = Normal (c', lg') ->
       NetworkCollector.update k lg2 d = Normal (d', lg2') -> c' = d') /\
    (forall entries lg c c' lg' lg2 d d' lg2',
       proc_root k = Some entries ->
       ProcessCollector.update k lg c = Normal (c', lg') ->
       ProcessCollector.update k lg2 d = Normal (d', lg2') -> c' = d').
Proof.
  intros Srt k. split; [|split].
  - intros content lg c c' lg' lg2 d d' lg2' F.
    rewrite !disk_update_eq. unfold DiskCollector.do_collect. rewrite F.
    cbn [fst snd]. unfold DiskCollector.do_parse. cbn [DiskCollector.raw_data_].
    destruct (DiskCollector.parse_lines [] (getlines content)); cbn [bind];
      try discriminate.
    intros E1 E2. injection E1 as <- _. injection E2 as <- _. reflexivity.
  - intros content lg c c' lg' lg2 d d' lg2' F.
    rewrite !network_update_eq. unfold NetworkCollector.do_collect. rewrite F.
    cbn [fst snd]. unfold NetworkCollector.do_parse. cbn [NetworkCollector.raw_data_].
    destruct (NetworkCollector.parse_lines 0 [] (getlines content)); cbn [bind];
      try discriminate.
    intros E1 E2. injection E1 as <- _. injection E2 as <- _. reflexivity.
  - intros entries lg c c' lg' lg2 d d' lg2' R.
    rewrite !ProcessFacts.process_update_eq, R.
    destruct (ProcessCollector.scan k ([], 0, 0) entries); cbn [bind]; try discriminate.
    intros E1 E2. injection E1 as <- _. injection E2 as <- _. reflexivity.
Qed.

Lemma lists_are_rebuilt_at_each_refresh_witness :
  file Samples.good_sources DISK_PATH = Some (lit Samples.disk_text) /\
  DiskCollector.update Samples.good_sources Samples.logger0 DiskCollector.init
  = Normal (Runs.disk_parsed, Samples.logger0) /\
  DiskCollector.update Samples.good_sources Samples.logger0 Runs.disk_stale
  = Normal (Runs.disk_parsed, Samples.logger0) /\
  Runs.disk_parsed = Runs.disk_parsed.
Proof.
  assert (F : file Samples.good_sources DISK_PATH = Some (lit Samples.disk_text))
    by reflexivity.
  assert (U1 : DiskCollector.update Samples.good_sources Samples.logger0
                 DiskCollector.init
               = Normal (Runs.disk_parsed, Samples.logger0))
    by (vm_compute; reflexivity).
  assert (U2 : DiskCollector.update Samples.good_sources Samples.logger0
                 Runs.disk_stale
               = Normal (Runs.disk_parsed, Samples.logger0))
    by (vm_compute; reflexivity).
  split; [exact F|]. split; [exact U1|]. split; [exact U2|].
  exact (proj1 (lists_are_rebuilt_at_each_refresh SortFacts.insertion_StdSort
                  Samples.good_sources) _ _ _ _ _ _ _ _ _ F U1 U2).
Defined.

End FirstScreen.

(** ** The task counts of the load line *)

Module SystemTasks.
Import SystemCollector RefreshFacts StringFacts.

Lemma digit_is_no_slash a : isdigit a = true -> Ascii.eqb a "/" = false.
Proof.
  intros H. destruct (Ascii.eqb_spec a "/"%char) as [-> | N]; [|reflexivity].
  vm_compute in H. discriminate H.
Qed.

Lemma digits_have_no_slash r :
  forallb isdigit r = true -> existsb (fun a => Ascii.eqb a "/") r = false.
Proof.
  induction r as [|a r IH]; cbn [forallb existsb]; [reflexivity|].
  intros H. apply andb_true_iff in H. destruct H as [H1 H2].
  rewrite (digit_is_no_slash a H1), (IH H2). reflexivity.
Qed.

Lemma stoi_digits s :
  s <> [] -> forallb isdigit s = true ->
  stoi s = if digits_val s >? INT_MAX then Throws out_of_range
           else Normal (digits_val s).
Proof.
  intros N D. apply ErrorFacts.stoi_pid. unfold ProcessCollector.is_pid.
  destruct s; [congruence|]. cbn [negb andb]. exact D.
Qed.

(** X22: when the fourth token of the load line is two non-empty runs
    of digits around a slash, a refresh that returns has set the running
    tasks to the number before the slash and the total tasks to the
    number after it. *)
Theorem task_counts_are_the_numbers_around_the_slash :
  forall k lg c c' lg' content r t,
    file k LOADAVG_PATH = Some content ->
    running_str content = r ++ "/"%char :: t ->
    r <> [] -> forallb isdigit r = true ->
    t <> [] -> forallb isdigit t = true ->
    update k lg c = Normal (c', lg') ->
    running_tasks_ c' = digits_val r /\ total_tasks_ c' = digits_val t.
Proof.
  intros k lg c c' lg' content r t F R Nr Dr Nt Dt.
  rewrite system_update_eq. unfold do_collect. rewrite F. cbn [fst].
  unfold do_parse. unfold running_str in R.
  cbn [raw_data_ uptime_seconds_ load_1min_ load_5min_ load_15min_ running_tasks_
       total_tasks_].
  destruct (extract_double (open content)) as [l1 s1].
  destruct (extract_double s1) as [l5 s5].
  destruct (extract_double s5) as [l15 s15].
  destruct (extract_string s15) as [running s4].
  rewrite R.
  rewrite (ProcessFacts.find_char_app "/" r t (digits_have_no_slash r Dr)).
  pose proof (size_nonneg r) as Sr. pose proof (size_nonneg t) as St.
  rewrite substr_n_ok
    by (rewrite ProcessFacts.size_app, size_cons; lia).
  change (Z.to_nat 0) with 0%nat. cbn [skipn].
  rewrite ProcessFacts.take_size_app. cbn [bind].
  rewrite (stoi_digits r Nr Dr).
  destruct (digits_val r >? INT_MAX); cbn [bind]; [discriminate|].
  rewrite substr_ok
    by (rewrite ProcessFacts.size_app, size_cons; lia).
  replace (r ++ "/"%char :: t) with ((r ++ ["/"%char]) ++ t)
    by (rewrite <- app_assoc; reflexivity).
  replace (size r + 1) with (size (r ++ ["/"%char]))
    by (rewrite ProcessFacts.size_app; reflexivity).
  rewrite ProcessFacts.skipn_size_app. cbn [bind].
  rewrite (stoi_digits t Nt Dt).
  destruct (digits_val t >? INT_MAX); cbn [bind]; [discriminate|].
  intros E. injection E as <- _. split; reflexivity.
Qed.

Lemma task_counts_are_the_numbers_around_the_slash_witness :
  file Samples.good_sources LOADAVG_PATH = Some (lit Samples.good_loadavg_text) /\
  running_str (lit Samples.good_loadavg_text) = lit "2" ++ "/"%char :: lit "150" /\
  lit "2" <> [] /\ forallb isdigit (lit "2") = true /\
  lit "150" <> [] /\ forallb isdigit (lit "150") = true /\
  update Samples.good_sources Samples.logger0 init
  = Normal (Runs.sys_after Samples.good_sources init, Samples.logger0) /\
  running_tasks_ (Runs.sys_after Samples.good_sources init) = digits_val (lit "2") /\
  total_tasks_ (Runs.sys_after Samples.good_sources init) = digits_val (lit "150").
Proof.
  assert (F : file Samples.good_sources LOADAVG_PATH
              = Some (lit Samples.good_loadavg_text)) by reflexivity.
  assert (R : running_str (lit Samples.good_loadavg_text)
              = lit "2" ++ "/"%char :: lit "150") by (vm_compute; reflexivity).
  assert (Nr : lit "2" <> []) by discriminate.
  assert (Dr : forallb isdigit (lit "2") = true) by reflexivity.
  assert (Nt : lit "150" <> []) by discriminate.
  assert (Dt : forallb isdigit (lit "150") = true) by reflexivity.
  assert (U : update Samples.good_sources Samples.logger0 init
              = Normal (Runs.sys_after Samples.good_sources init, Samples.logger0))
    by (vm_compute; reflexivity).
  repeat (split; [assumption|]).
  exact (task_counts_are_the_numbers_around_the_slash _ _ _ _ _ _ _ _
           F R Nr Dr Nt Dt U).
Defined.

End SystemTasks.
